(** * qemuctl: a shallow embedding of the controller's pure core

    The development follows the Go sources of the repository:
    - [config.go]   : the PCI slot allocator and the option-string builders,
    - [disk.go]     : disk back-ends and [buildDiskArgs],
    - [network.go]  : [buildNetworkArgs],
    - [builder.go]  : [VMBuilder.Build],
    - the QMP transport (the file of [type QMP]): [readGreeting] and the
      first read of the event loop,
    - [instance.go] : [setState], [cleanup], [ForceStop], [Quit],
                      [findSocketFromArgs], [buildArgs], [StopContext],
    - [state.go]    : [String], [parseQMPStatus],
    - [display.go]  : handing a client connection to QEMU,
    - [locate.go]   : [LocateQemu].

    Go values are modelled as follows.  [int] is [Z]; [string] is
    [String.string] (a sequence of bytes); a slice is a [list]; a nilable
    pointer is an [option]; [map[int]bool] is a [gmap Z bool] read with the
    Go default [false]; an interface is a record of its methods; a [panic]
    is the [Panic] outcome of the small error monad below. *)

From Stdlib Require Import ZArith List Bool Ascii String.
From Stdlib Require Import DecimalString HexadecimalString.
From Stdlib Require DecimalZ DecimalPos.
From stdpp Require Import base option list gmap strings.

Local Open Scope string_scope.
Local Open Scope list_scope.
Local Open Scope Z_scope.

(** The double-quote character, written by its code. *)
Definition dq : string := String (ascii_of_nat 34) EmptyString.

(* ================================================================= *)
(** ** The parts of Go's [strings], [strconv] and [fmt] the code uses *)
(* ================================================================= *)

Module GoStr.

(** [strings.HasPrefix s p]. *)
Fixpoint HasPrefix (s p : string) : bool :=
  match p, s with
  | EmptyString, _ => true
  | String _ _, EmptyString => false
  | String b p', String a s' => if Ascii.eqb a b then HasPrefix s' p' else false
  end.

(** [strings.Contains s sub]. *)
Fixpoint Contains (s sub : string) : bool :=
  if HasPrefix s sub then true
  else match s with
       | EmptyString => false
       | String _ s' => Contains s' sub
       end.

(** [s[n:]] for [n <= len(s)]; the code only slices after a successful
    [HasPrefix] test of that length. *)
Fixpoint drop (n : nat) (s : string) : string :=
  match n, s with
  | O, _ => s
  | S n', String _ s' => drop n' s'
  | S _, EmptyString => EmptyString
  end.

(** [strings.Split s sep] for a one-byte separator (the code only ever
    splits on a comma): the result is never empty, and an input without
    separator comes back as the single field [s]. *)
Fixpoint Split (s : string) (sep : ascii) : list string :=
  match s with
  | EmptyString => [EmptyString]
  | String c s' =>
      if Ascii.eqb c sep then EmptyString :: Split s' sep
      else match Split s' sep with
           | [] => [String c EmptyString]
           | f :: fs => String c f :: fs
           end
  end.

(** [strings.Join parts sep]. *)
Fixpoint Join (parts : list string) (sep : string) : string :=
  match parts with
  | [] => EmptyString
  | [p] => p
  | p :: ps => p +:+ sep +:+ Join ps sep
  end.

(** [strconv.Itoa] and the verb [%d]. *)
Definition Itoa (z : Z) : string :=
  DecimalString.NilZero.string_of_int (Z.to_int z).

(** The verb [%x] on an [int]. *)
Definition Hex (z : Z) : string :=
  HexadecimalString.NilZero.string_of_int (Z.to_hex_int z).

(** A Go [int] is 64 bits wide; arithmetic wraps. *)
Definition wrap64 (z : Z) : Z := (z + 2 ^ 63) mod 2 ^ 64 - 2 ^ 63.

End GoStr.

(* ================================================================= *)
(** ** Outcomes: a value or a Go panic *)
(* ================================================================= *)

Inductive Result (A : Type) : Type :=
| Ok (a : A)
| Panic (msg : string).
Arguments Ok {A} a.
Arguments Panic {A} msg.

(* ================================================================= *)
(** ** config.go: the PCI slot allocator *)
(* ================================================================= *)

Module PCI.

(** [type pciSlotAllocator struct { nextSlot int; used map[int]bool; bus string }] *)
Record pciSlotAllocator : Type := mkAlloc {
  nextSlot : Z;
  used : gmap Z bool;
  bus : string
}.

(** Reading a Go [map[int]bool]: absent keys read as [false]. *)
Definition is_used (u : gmap Z bool) (k : Z) : bool := default false (u !! k).

Definition newPCISlotAllocator (isQ35 : bool) : pciSlotAllocator :=
  let u0 : gmap Z bool := <[0 := true]> ∅ in
  if isQ35
  then mkAlloc 3 (<[2 := true]> (<[1 := true]> u0)) "pcie.0"
  else mkAlloc 3 u0 "pci.0".

(** The skip loop of [Alloc]:
<<
    for a.used[a.nextSlot] {
      a.nextSlot++
      if a.nextSlot > 0x1f { panic("ran out of PCI slots") }
    }
>>
    Every iteration that does not panic leaves [nextSlot <= 0x1f] one
    larger than before, so [fuel] bounds the iterations. *)
Fixpoint skip_used (fuel : nat) (u : gmap Z bool) (n : Z) : Result Z :=
  if is_used u n then
    let n' := n + 1 in
    if 31 <? n' then Panic "ran out of PCI slots"
    else match fuel with
         | O => Panic "ran out of PCI slots"
         | S fuel' => skip_used fuel' u n'
         end
  else Ok n.

(** Enough fuel for every start value: the loop runs at most
    [0x1f - nextSlot] times before it panics or stops. *)
Definition skip_fuel (n : Z) : nat := Z.to_nat (32 - n).

(** [Alloc], returning the slot number; [Alloc] formats it. *)
Definition AllocSlot (a : pciSlotAllocator) : Result (Z * pciSlotAllocator) :=
  match skip_used (skip_fuel (nextSlot a)) (used a) (nextSlot a) with
  | Panic m => Panic m
  | Ok slot => Ok (slot, mkAlloc (slot + 1) (<[slot := true]> (used a)) (bus a))
  end.

Definition Alloc (a : pciSlotAllocator) : Result (string * pciSlotAllocator) :=
  match AllocSlot a with
  | Panic m => Panic m
  | Ok (slot, a') => Ok ("0x" +:+ GoStr.Hex slot, a')
  end.

Definition Reserve (a : pciSlotAllocator) (slot : Z) : pciSlotAllocator :=
  mkAlloc (nextSlot a) (<[slot := true]> (used a)) (bus a).

Definition Bus (a : pciSlotAllocator) : string := bus a.

(** [n] successive calls of [Alloc], collecting what they return. *)
Fixpoint AllocSlots (n : nat) (a : pciSlotAllocator)
  : Result (list Z * pciSlotAllocator) :=
  match n with
  | O => Ok ([], a)
  | S n' =>
      match AllocSlot a with
      | Panic m => Panic m
      | Ok (s, a1) =>
          match AllocSlots n' a1 with
          | Panic m => Panic m
          | Ok (ss, a2) => Ok (s :: ss, a2)
          end
      end
  end.

Fixpoint AllocN (n : nat) (a : pciSlotAllocator)
  : Result (list string * pciSlotAllocator) :=
  match n with
  | O => Ok ([], a)
  | S n' =>
      match Alloc a with
      | Panic m => Panic m
      | Ok (s, a1) =>
          match AllocN n' a1 with
          | Panic m => Panic m
          | Ok (ss, a2) => Ok (s :: ss, a2)
          end
      end
  end.

(** No slot at or above the next candidate is taken.  It holds of a new
    allocator and [Alloc] keeps it; only [Reserve] can break it. *)
Definition fresh_above (a : pciSlotAllocator) : Prop :=
  forall k, nextSlot a <= k -> is_used (used a) k = false.

End PCI.

(* ================================================================= *)
(** ** encoding/json, as far as the composer uses it *)
(* ================================================================= *)

Module Json.

(** The values the code puts into a [map[string]any]: strings, booleans,
    ints, string slices and nested maps. *)
#[warnings="-register-all"]
Inductive JSON : Type :=
| JStr (s : string)
| JBool (b : bool)
| JInt (z : Z)
| JArr (items : list JSON)
| JObj (fields : list (string * JSON)).

(** A Go map literal or assignment [m[k] = v]: the binding of [k] is
    replaced when there is one, added otherwise. *)
Fixpoint mset (k : string) (v : JSON) (m : list (string * JSON))
  : list (string * JSON) :=
  match m with
  | [] => [(k, v)]
  | (k', v') :: m' =>
      if String.eqb k k' then (k, v) :: m' else (k', v') :: mset k v m'
  end.

Fixpoint mget (k : string) (m : list (string * JSON)) : option JSON :=
  match m with
  | [] => None
  | (k', v') :: m' => if String.eqb k k' then Some v' else mget k m'
  end.

(** The field [k] of an object. *)
Definition field (k : string) (v : JSON) : option JSON :=
  match v with
  | JObj m => mget k m
  | _ => None
  end.

(** [json.Marshal] writes the keys of a map in byte order. *)
Fixpoint insert_sorted (kv : string * string) (l : list (string * string))
  : list (string * string) :=
  match l with
  | [] => [kv]
  | kv' :: l' =>
      if String.leb (fst kv) (fst kv') then kv :: l
      else kv' :: insert_sorted kv l'
  end.

Definition sort_keys (l : list (string * string)) : list (string * string) :=
  foldr insert_sorted [] l.

Section Marshal.

(** The string-literal encoder of [encoding/json] (quotes, escapes) is
    library code; the composer only relies on it being a function. *)
Variable quote : string -> string.

Fixpoint Marshal (v : JSON) : string :=
  match v with
  | JStr s => quote s
  | JBool b => if b then "true" else "false"
  | JInt z => GoStr.Itoa z
  | JArr items => "[" +:+ GoStr.Join (map Marshal items) "," +:+ "]"
  | JObj fields =>
      let rendered :=
        map (fun kv => match kv with (k, x) => (k, Marshal x) end) fields in
      "{" +:+ GoStr.Join
                (map (fun kv => quote (fst kv) +:+ ":" +:+ snd kv)
                     (sort_keys rendered)) ","
          +:+ "}"
  end.

End Marshal.

(** The encoder on strings that need no escape: the text between quotes. *)
Definition plainQuote (s : string) : string := dq +:+ s +:+ dq.

End Json.

(* ================================================================= *)
(** ** disk.go *)
(* ================================================================= *)

Module Disk.
Import Json.

(** [type DiskBackend interface { Type() string; BuildBlockdevArgs(id string) []string }] *)
Class DiskBackend (B : Type) : Type := {
  Type_ : B -> string;
  BuildBlockdevArgs : B -> string -> list string
}.

Record FileDiskBackend : Type := {
  file_Path : string;
  file_Format : string;
  file_AutoReadOnly : bool
}.

Record NBDDiskBackend : Type := {
  nbd_SocketPath : string;
  nbd_Host : string;
  nbd_Port : Z;
  nbd_Export : string;
  nbd_TLS : bool;
  nbd_TLSCreds : string
}.

Record RBDDiskBackend : Type := {
  rbd_Pool : string;
  rbd_Image : string;
  rbd_Snapshot : string;
  rbd_Conf : string;
  rbd_User : string;
  rbd_KeySecret : string;
  rbd_AuthClientRequired : list string
}.

Record ISCSIDiskBackend : Type := {
  iscsi_Portal : string;
  iscsi_Target : string;
  iscsi_Lun : Z;
  iscsi_User : string;
  iscsi_PasswordSecret : string;
  iscsi_InitiatorName : string
}.

Record ThrottleConfig : Type := {
  Group : string;
  BPS : Z; BPSRead : Z; BPSWrite : Z;
  IOPS : Z; IOPSRead : Z; IOPSWrite : Z;
  BPSMax : Z; IOPSMax : Z;
  BurstLength : Z
}.

Record CDROMConfig : Type := {
  cd_Path : string;
  cd_BootIndex : Z
}.

Definition nonempty (s : string) : bool := negb (String.eqb s EmptyString).

(** [if c { m[k] = v }] *)
Definition mset_if (c : bool) (k : string) (v : JSON) (m : list (string * JSON)) :=
  if c then mset k v m else m.

(** [cache: {direct: true, no-flush: false}] *)
Definition cacheOpts : JSON :=
  JObj (mset "no-flush" (JBool false) (mset "direct" (JBool true) [])).

Section Backends.
Variable quote : string -> string.

(** The format layer of the file back-end. *)
Definition file_formatOpts (f : FileDiskBackend) (id : string) : JSON :=
  let fileNode := id +:+ "-file" in
  let formatNode := id +:+ "-format" in
  let format := if nonempty (file_Format f) then file_Format f else "raw" in
  JObj (mset "node-name" (JStr formatNode)
       (mset "file" (JStr fileNode)
       (mset "driver" (JStr format) []))).

Definition file_fileOpts (f : FileDiskBackend) (id : string) : JSON :=
  let fileNode := id +:+ "-file" in
  JObj (mset_if (file_AutoReadOnly f) "auto-read-only" (JBool true)
       (mset "node-name" (JStr fileNode)
       (mset "filename" (JStr (file_Path f))
       (mset "driver" (JStr "file") [])))).

Definition File_BuildBlockdevArgs (f : FileDiskBackend) (id : string) : list string :=
  [ "-blockdev"; Marshal quote (file_fileOpts f id);
    "-blockdev"; Marshal quote (file_formatOpts f id) ].

Definition nbd_server (n : NBDDiskBackend) : option JSON :=
  if nonempty (nbd_SocketPath n) then
    Some (JObj (mset "path" (JStr (nbd_SocketPath n))
               (mset "type" (JStr "unix") [])))
  else if nonempty (nbd_Host n) then
    Some (JObj (mset_if (0 <? nbd_Port n) "port" (JStr (GoStr.Itoa (nbd_Port n)))
               (mset "host" (JStr (nbd_Host n))
               (mset "type" (JStr "inet") []))))
  else None.

Definition nbd_nbdOpts (n : NBDDiskBackend) (id : string) : JSON :=
  let nbdNode := id +:+ "-nbd" in
  let m0 := mset "node-name" (JStr nbdNode) (mset "driver" (JStr "nbd") []) in
  let m1 := match nbd_server n with
            | Some srv => mset "server" srv m0
            | None => m0
            end in
  let m2 := mset_if (nonempty (nbd_Export n)) "export" (JStr (nbd_Export n)) m1 in
  let m3 := mset_if (nbd_TLS n) "tls-creds" (JStr (nbd_TLSCreds n)) m2 in
  JObj (mset "cache" cacheOpts m3).

(** The raw layer that sits on a network back-end node. *)
Definition raw_formatOpts (backendNode formatNode : string) : JSON :=
  JObj (mset "read-only" (JBool false)
       (mset "node-name" (JStr formatNode)
       (mset "file" (JStr backendNode)
       (mset "driver" (JStr "raw") [])))).

Definition NBD_BuildBlockdevArgs (n : NBDDiskBackend) (id : string) : list string :=
  [ "-blockdev"; Marshal quote (nbd_nbdOpts n id);
    "-blockdev"; Marshal quote (raw_formatOpts (id +:+ "-nbd") (id +:+ "-format")) ].

Definition rbd_rbdOpts (r : RBDDiskBackend) (id : string) : JSON :=
  let rbdNode := id +:+ "-rbd" in
  let m0 := mset "node-name" (JStr rbdNode)
           (mset "image" (JStr (rbd_Image r))
           (mset "pool" (JStr (rbd_Pool r))
           (mset "driver" (JStr "rbd") []))) in
  let m1 := mset_if (nonempty (rbd_Snapshot r)) "snapshot" (JStr (rbd_Snapshot r)) m0 in
  let m2 := mset_if (nonempty (rbd_Conf r)) "conf" (JStr (rbd_Conf r)) m1 in
  let m3 := mset_if (nonempty (rbd_User r)) "user" (JStr (rbd_User r)) m2 in
  let m4 := mset_if (nonempty (rbd_KeySecret r)) "key-secret" (JStr (rbd_KeySecret r)) m3 in
  let m5 := mset_if (0 <? Z.of_nat (length (rbd_AuthClientRequired r)))
              "auth-client-required"
              (JArr (map JStr (rbd_AuthClientRequired r))) m4 in
  JObj (mset "discard" (JStr "unmap") (mset "cache" cacheOpts m5)).

Definition RBD_BuildBlockdevArgs (r : RBDDiskBackend) (id : string) : list string :=
  [ "-blockdev"; Marshal quote (rbd_rbdOpts r id);
    "-blockdev"; Marshal quote (raw_formatOpts (id +:+ "-rbd") (id +:+ "-format")) ].

Definition iscsi_iscsiOpts (i : ISCSIDiskBackend) (id : string) : JSON :=
  let iscsiNode := id +:+ "-iscsi" in
  let m0 := mset "node-name" (JStr iscsiNode)
           (mset "lun" (JInt (iscsi_Lun i))
           (mset "target" (JStr (iscsi_Target i))
           (mset "portal" (JStr (iscsi_Portal i))
           (mset "transport" (JStr "tcp")
           (mset "driver" (JStr "iscsi") []))))) in
  let m1 := mset_if (nonempty (iscsi_User i)) "user" (JStr (iscsi_User i)) m0 in
  let m2 := mset_if (nonempty (iscsi_PasswordSecret i))
              "password-secret" (JStr (iscsi_PasswordSecret i)) m1 in
  let m3 := mset_if (nonempty (iscsi_InitiatorName i))
              "initiator-name" (JStr (iscsi_InitiatorName i)) m2 in
  JObj (mset "discard" (JStr "unmap") (mset "cache" cacheOpts m3)).

(** iSCSI emits the back-end node only: no format layer. *)
Definition ISCSI_BuildBlockdevArgs (i : ISCSIDiskBackend) (id : string) : list string :=
  [ "-blockdev"; Marshal quote (iscsi_iscsiOpts i id) ].

#[export] Instance FileDisk : DiskBackend FileDiskBackend :=
  {| Type_ := fun _ => "file"; BuildBlockdevArgs := File_BuildBlockdevArgs |}.
#[export] Instance NBDDisk : DiskBackend NBDDiskBackend :=
  {| Type_ := fun _ => "nbd"; BuildBlockdevArgs := NBD_BuildBlockdevArgs |}.
#[export] Instance RBDDisk : DiskBackend RBDDiskBackend :=
  {| Type_ := fun _ => "rbd"; BuildBlockdevArgs := RBD_BuildBlockdevArgs |}.
#[export] Instance ISCSIDisk : DiskBackend ISCSIDiskBackend :=
  {| Type_ := fun _ => "iscsi"; BuildBlockdevArgs := ISCSI_BuildBlockdevArgs |}.

(** A value of interface type: a dynamic type with its method table
    and a value of that type. *)
Record AnyDiskBackend : Type := PackDisk {
  disk_dyn : Type;
  disk_methods : DiskBackend disk_dyn;
  disk_value : disk_dyn
}.

Definition AnyType (b : AnyDiskBackend) : string :=
  @Type_ _ (disk_methods b) (disk_value b).
Definition AnyBuildBlockdevArgs (b : AnyDiskBackend) (id : string) : list string :=
  @BuildBlockdevArgs _ (disk_methods b) (disk_value b) id.

Definition ofFile (f : FileDiskBackend) := PackDisk _ FileDisk f.
Definition ofNBD (n : NBDDiskBackend) := PackDisk _ NBDDisk n.
Definition ofRBD (r : RBDDiskBackend) := PackDisk _ RBDDisk r.
Definition ofISCSI (i : ISCSIDiskBackend) := PackDisk _ ISCSIDisk i.

Record DiskConfig : Type := {
  ID : string;
  Backend : option AnyDiskBackend;
  Interface : string;
  Cache : string;
  Discard : string;
  ReadOnly : bool;
  BootIndex : Z;
  Throttle : option ThrottleConfig;
  Serial : string
}.

(** [if v > 0 { parts = append(parts, key + "=" + %d) }] *)
Definition part_pos (key : string) (v : Z) : list string :=
  if 0 <? v then [key +:+ "=" +:+ GoStr.Itoa v] else [].

Definition BuildThrottleGroupArgs (t : option ThrottleConfig) : list string :=
  match t with
  | None => []
  | Some t =>
      if negb (nonempty (Group t)) then []
      else
        let parts :=
          ["throttle-group"; "id=" +:+ Group t]
          ++ part_pos "x-bps-total" (BPS t)
          ++ part_pos "x-bps-read" (BPSRead t)
          ++ part_pos "x-bps-write" (BPSWrite t)
          ++ part_pos "x-iops-total" (IOPS t)
          ++ part_pos "x-iops-read" (IOPSRead t)
          ++ part_pos "x-iops-write" (IOPSWrite t)
          ++ part_pos "x-bps-total-max" (BPSMax t)
          ++ part_pos "x-iops-total-max" (IOPSMax t)
          ++ (if 0 <? BurstLength t
              then ["x-bps-total-max-length=" +:+ GoStr.Itoa (BurstLength t);
                    "x-iops-total-max-length=" +:+ GoStr.Itoa (BurstLength t)]
              else []) in
        ["-object"; GoStr.Join parts ","]
  end.

Definition throttleOpts (t : ThrottleConfig) (id fileNode : string) : JSON :=
  JObj (mset "throttle-group" (JStr (Group t))
       (mset "file" (JStr fileNode)
       (mset "node-name" (JStr id)
       (mset "driver" (JStr "throttle") [])))).

Definition BuildThrottleBlockdevArgs (t : option ThrottleConfig) (id fileNode : string)
  : list string :=
  match t with
  | None => []
  | Some t =>
      if negb (nonempty (Group t)) then []
      else ["-blockdev"; Marshal quote (throttleOpts t id fileNode)]
  end.

(** [cfg.Throttle != nil] and [cfg.Throttle.Group] is not empty. *)
Definition throttled (cfg : DiskConfig) : bool :=
  match Throttle cfg with
  | Some t => nonempty (Group t)
  | None => false
  end.

Definition deviceType_of (iface : string) : string :=
  if String.eqb iface "virtio" then "virtio-blk-pci"
  else if String.eqb iface "scsi" then "scsi-hd"
  else if String.eqb iface "ide" then "ide-hd"
  else if String.eqb iface "nvme" then "nvme"
  else "virtio-blk-pci".

(** The tail of the device line:
<<
  if cfg.BootIndex > 0 { deviceArgs += ",bootindex=%d" }
  if cfg.Serial is not empty { deviceArgs += ",serial=%s" }
>> *)
Definition add_boot_serial (cfg : DiskConfig) (d : string) : string :=
  let d1 := if 0 <? BootIndex cfg
            then d +:+ ",bootindex=" +:+ GoStr.Itoa (BootIndex cfg) else d in
  if nonempty (Serial cfg) then d1 +:+ ",serial=" +:+ Serial cfg else d1.

(** [cfg.ID], or ["drive0"] when it is empty. *)
Definition disk_id (cfg : DiskConfig) : string :=
  if nonempty (ID cfg) then ID cfg else "drive0".

(** [buildDiskArgs(cfg *DiskConfig, pciAlloc *pciSlotAllocator) []string];
    the allocator the pointer refers to is handed back. *)
Definition buildDiskArgs (cfg : option DiskConfig) (pciAlloc : option PCI.pciSlotAllocator)
  : Result (list string * option PCI.pciSlotAllocator) :=
  match cfg with
  | None => Ok ([], pciAlloc)
  | Some cfg =>
      match Backend cfg with
      | None => Ok ([], pciAlloc)
      | Some backend =>
          let id := disk_id cfg in
          let args0 :=
            if throttled cfg then BuildThrottleGroupArgs (Throttle cfg) else [] in
          let args1 := args0 ++ AnyBuildBlockdevArgs backend id in
          let finalNode0 :=
            if String.eqb (AnyType backend) "iscsi"
            then id +:+ "-iscsi" else id +:+ "-format" in
          let '(args2, finalNode) :=
            if throttled cfg then
              let throttleNode := id +:+ "-throttle" in
              (args1 ++ BuildThrottleBlockdevArgs (Throttle cfg) throttleNode finalNode0,
               throttleNode)
            else (args1, finalNode0) in
          let iface := if nonempty (Interface cfg) then Interface cfg else "virtio" in
          let deviceType := deviceType_of iface in
          let deviceArgs0 :=
            deviceType +:+ ",drive=" +:+ finalNode +:+ ",id=" +:+ id +:+ "-device" in
          let bootSerial := add_boot_serial cfg in
          match pciAlloc with
          | Some a =>
              if String.eqb iface "virtio" || String.eqb iface "nvme" then
                match PCI.Alloc a with
                | Panic m => Panic m
                | Ok (addr, a') =>
                    let d := deviceArgs0 +:+ ",bus=" +:+ PCI.Bus a +:+ ",addr=" +:+ addr in
                    Ok (args2 ++ ["-device"; bootSerial d], Some a')
                end
              else Ok (args2 ++ ["-device"; bootSerial deviceArgs0], pciAlloc)
          | None => Ok (args2 ++ ["-device"; bootSerial deviceArgs0], pciAlloc)
          end
      end
  end.

End Backends.

(** [buildCDROMArgs(cfg *CDROMConfig, index int, sataController string)] *)
Definition buildCDROMArgs (cfg : option CDROMConfig) (index : Z) (sataController : string)
  : list string :=
  match cfg with
  | None => []
  | Some cfg =>
      if negb (nonempty (cd_Path cfg)) then []
      else
        let id := "cdrom" +:+ GoStr.Itoa index in
        let driveArg :=
          "file=" +:+ cd_Path cfg +:+ ",format=raw,if=none,id=" +:+ id
          +:+ ",media=cdrom,readonly=on" in
        let deviceArg0 :=
          "ide-cd,bus=" +:+ sataController +:+ "." +:+ GoStr.Itoa index
          +:+ ",drive=" +:+ id +:+ ",id=" +:+ id +:+ "-device" in
        let deviceArg :=
          if 0 <? cd_BootIndex cfg
          then deviceArg0 +:+ ",bootindex=" +:+ GoStr.Itoa (cd_BootIndex cfg)
          else deviceArg0 in
        ["-drive"; driveArg; "-device"; deviceArg]
  end.

(** *** Vocabulary for the statements about disks *)

(** The back-ends the composer ships. *)
Inductive KnownBackend : Type :=
| KFile (f : FileDiskBackend)
| KNBD (n : NBDDiskBackend)
| KRBD (r : RBDDiskBackend)
| KISCSI (i : ISCSIDiskBackend).

Definition pack (quote : string -> string) (k : KnownBackend) : AnyDiskBackend :=
  match k with
  | KFile f => ofFile quote f
  | KNBD n => ofNBD quote n
  | KRBD r => ofRBD quote r
  | KISCSI i => ofISCSI quote i
  end.

Definition backend_name (k : KnownBackend) : string :=
  match k with
  | KFile _ => "file"
  | KNBD _ => "nbd"
  | KRBD _ => "rbd"
  | KISCSI _ => "iscsi"
  end.

(** The driver of the format layer: the configured format of a file
    back-end, [raw] when there is none and for the network back-ends. *)
Definition format_of (k : KnownBackend) : string :=
  match k with
  | KFile f => if nonempty (file_Format f) then file_Format f else "raw"
  | _ => "raw"
  end.

(** [args] holds [-blockdev] followed by the encoding of [o]. *)
Definition emits_node (quote : string -> string) (args : list string) (o : JSON) : Prop :=
  exists pre post, args = pre ++ ["-blockdev"; Marshal quote o] ++ post.

(** [args] ends with the [-device] line of disk [id], and that line
    names [node] as its drive. *)
Definition device_refs (args : list string) (node id : string) : Prop :=
  exists pre devType suffix,
    args = pre ++ ["-device";
                   devType +:+ ",drive=" +:+ node +:+ ",id=" +:+ id +:+ "-device"
                   +:+ suffix].

Definition alloc_ok (oa : option PCI.pciSlotAllocator) : Prop :=
  forall a, oa = Some a -> PCI.fresh_above a.

(** An iSCSI disk behind virtio, with no throttle. *)
Definition iscsi_disk : DiskConfig :=
  {| ID := "d0";
     Backend := Some (ofISCSI plainQuote
                  {| iscsi_Portal := "192.168.1.100:3260";
                     iscsi_Target := "iqn.2023-01.com.example:storage";
                     iscsi_Lun := 0; iscsi_User := EmptyString;
                     iscsi_PasswordSecret := EmptyString;
                     iscsi_InitiatorName := EmptyString |});
     Interface := EmptyString; Cache := EmptyString; Discard := EmptyString;
     ReadOnly := false; BootIndex := 0; Throttle := None; Serial := EmptyString |}.

(** The disk of the builder test: a qcow2 file behind virtio. *)
Definition qcow_file : FileDiskBackend :=
  {| file_Path := "/var/lib/qemu/test.qcow2"; file_Format := "qcow2";
     file_AutoReadOnly := false |}.

Definition qcow_disk : DiskConfig :=
  {| ID := "disk0"; Backend := Some (pack plainQuote (KFile qcow_file));
     Interface := "virtio"; Cache := EmptyString; Discard := EmptyString;
     ReadOnly := false; BootIndex := 1; Throttle := None;
     Serial := EmptyString |}.

End Disk.

(* ================================================================= *)
(** ** network.go: [buildNetworkArgs] *)
(* ================================================================= *)

Module Net.
Import Disk.

(** [type NetworkBackend interface { Type() string; BuildNetdevArgs(id string) []string }].
    The composer calls the method and appends what it returns; the
    concrete back-ends are lowered by their own methods. *)
Class NetworkBackend (B : Type) : Type := {
  NetType : B -> string;
  BuildNetdevArgs : B -> string -> list string
}.

Record AnyNetBackend : Type := PackNet {
  net_dyn : Type;
  net_methods : NetworkBackend net_dyn;
  net_value : net_dyn
}.

Definition AnyBuildNetdevArgs (b : AnyNetBackend) (id : string) : list string :=
  @BuildNetdevArgs _ (net_methods b) (net_value b) id.

Record NetworkConfig : Type := {
  net_ID : string;
  net_Backend : option AnyNetBackend;
  net_Model : string;
  net_MACAddr : string;
  net_BootIndex : Z
}.

Definition pci_model (model : string) : bool :=
  String.eqb model "virtio-net-pci" || String.eqb model "e1000"
  || String.eqb model "e1000e" || String.eqb model "rtl8139".

Definition buildNetworkArgs (cfg : option NetworkConfig) (pciAlloc : option PCI.pciSlotAllocator)
  : Result (list string * option PCI.pciSlotAllocator) :=
  match cfg with
  | None => Ok ([], pciAlloc)
  | Some cfg =>
      match net_Backend cfg with
      | None => Ok ([], pciAlloc)
      | Some backend =>
          let id := if nonempty (net_ID cfg) then net_ID cfg else "net0" in
          let args := AnyBuildNetdevArgs backend id in
          let model := if nonempty (net_Model cfg) then net_Model cfg else "virtio-net-pci" in
          let parts0 :=
            [model; "netdev=" +:+ id; "id=" +:+ id +:+ "-device"]
            ++ (if nonempty (net_MACAddr cfg) then ["mac=" +:+ net_MACAddr cfg] else []) in
          let boot := part_pos "bootindex" (net_BootIndex cfg) in
          match pciAlloc with
          | Some a =>
              if pci_model model then
                match PCI.Alloc a with
                | Panic m => Panic m
                | Ok (addr, a') =>
                    let parts := parts0 ++ ["bus=" +:+ PCI.Bus a; "addr=" +:+ addr] ++ boot in
                    Ok (args ++ ["-device"; GoStr.Join parts ","], Some a')
                end
              else Ok (args ++ ["-device"; GoStr.Join (parts0 ++ boot) ","], pciAlloc)
          | None => Ok (args ++ ["-device"; GoStr.Join (parts0 ++ boot) ","], pciAlloc)
          end
      end
  end.

End Net.

(* ================================================================= *)
(** ** config.go: configuration records and option-string builders *)
(* ================================================================= *)

Module Config.
Import Disk.

Record MachineConfig : Type := {
  mc_Type : string;
  mc_Accel : string;
  mc_USB : option bool;
  mc_DumpGuestCore : option bool;
  mc_Pflash0 : string;
  mc_Pflash1 : string
}.

Record CPUConfig : Type := {
  cpu_Model : string;
  cpu_Features : list string;
  cpu_Sockets : Z;
  cpu_Cores : Z;
  cpu_Threads : Z
}.

Record MemoryBackendConfig : Type := {
  mb_Type : string;
  mb_Path : string;
  mb_Share : bool;
  mb_Prealloc : bool
}.

Record MemoryConfig : Type := {
  mem_Size : Z;
  mem_Backend : option MemoryBackendConfig;
  mem_MemLock : string
}.

Record EFIConfig : Type := {
  efi_Code : string;
  efi_Vars : string;
  efi_VarsTemplate : string
}.

Record BootConfig : Type := {
  boot_Order : string;
  boot_Menu : option bool;
  boot_Strict : bool;
  boot_Kernel : string;
  boot_Initrd : string;
  boot_Append : string
}.

Record VNCConfig : Type := {
  vnc_Listen : string;
  vnc_Password : string;
  vnc_PasswordSecret : string;
  vnc_Lossy : bool;
  vnc_AudioDev : string;
  vnc_Websocket : Z
}.

Record SpiceDisplayConfig : Type := {
  sp_Unix : bool;
  sp_Port : Z;
  sp_Password : string;
  sp_PasswordSecret : string;
  sp_DisableTicketing : bool;
  sp_ImageCompression : string;
  sp_JpegWanCompression : string;
  sp_ZlibGlzWanCompression : string;
  sp_PlaybackCompression : bool;
  sp_SeamlessMigration : bool;
  sp_DisableCopyPaste : bool
}.

Record VideoConfig : Type := {
  vid_Type : string;
  vid_VgaMem : Z;
  vid_Ram : Z;
  vid_Vram : Z;
  vid_MaxOutputs : Z
}.

Record DisplayConfig : Type := {
  dsp_Type : string;
  dsp_VNC : option VNCConfig;
  dsp_Spice : option SpiceDisplayConfig;
  dsp_Video : option VideoConfig
}.

Record AudioConfig : Type := {
  au_Backend : string;
  au_Device : string;
  au_Codec : string
}.

Record SerialConfig : Type := {
  ser_Type : string;
  ser_Path : string;
  ser_Server : bool;
  ser_Wait : bool;
  ser_Device : string
}.

Record ChardevConfig : Type := {
  cd_ID : string;
  cd_Backend : string;
  cd_Path_ : string;
  cd_Server : bool;
  cd_Wait : bool;
  cd_Host : string;
  cd_Port : Z;
  cd_Reconnect : Z;
  cd_Name : string
}.

Record VirtioSerialPortConfig : Type := {
  vp_Chardev : string;
  vp_Name : string;
  vp_Type : string
}.

Record VirtioSerialConfig : Type := {
  vs_MaxPorts : Z;
  vs_Ports : list VirtioSerialPortConfig
}.

Record USBControllerConfig : Type := { usb_Type : string }.

Record USBDeviceConfig : Type := {
  ud_Type : string;
  ud_Chardev : string
}.

Record BalloonConfig : Type := { bal_Enabled : bool }.

Record SecretConfig : Type := {
  sec_ID : string;
  sec_Data : string;
  sec_File : string;
  sec_Format : string
}.

(** [parts = append(parts, key + s)] when [s] is not empty. *)
Definition part_str (key s : string) : list string :=
  if nonempty s then [key +:+ s] else [].

(** [if b != nil { if *b { key=on } else { key=off } }] *)
Definition part_onoff (key : string) (b : option bool) : list string :=
  match b with
  | Some true => [key +:+ "=on"]
  | Some false => [key +:+ "=off"]
  | None => []
  end.

Definition part_flag (c : bool) (s : string) : list string :=
  if c then [s] else [].

Definition buildMachineArgs (cfg : option MachineConfig) : list string :=
  match cfg with
  | None => []
  | Some cfg =>
      let parts :=
        part_str EmptyString (mc_Type cfg)
        ++ part_str "accel=" (mc_Accel cfg)
        ++ part_onoff "usb" (mc_USB cfg)
        ++ part_onoff "dump-guest-core" (mc_DumpGuestCore cfg)
        ++ part_str "pflash0=" (mc_Pflash0 cfg)
        ++ part_str "pflash1=" (mc_Pflash1 cfg) in
      match parts with
      | [] => []
      | _ => ["-machine"; GoStr.Join parts ","]
      end
  end.

(** [if x == 0 { x = 1 }] *)
Definition or_one (x : Z) : Z := if x =? 0 then 1 else x.

Definition buildCPUArgs (cfg : option CPUConfig) (memory : Z) : list string :=
  match cfg with
  | None => []
  | Some cfg =>
      let cpu :=
        if nonempty (cpu_Model cfg)
        then ["-cpu"; fold_left (fun acc f => acc +:+ "," +:+ f)
                                (cpu_Features cfg) (cpu_Model cfg)]
        else [] in
      let mem := if 0 <? memory then ["-m"; GoStr.Itoa memory] else [] in
      let sockets := or_one (cpu_Sockets cfg) in
      let cores := or_one (cpu_Cores cfg) in
      let threads := or_one (cpu_Threads cfg) in
      let total := GoStr.wrap64 (GoStr.wrap64 (sockets * cores) * threads) in
      let smp :=
        if 1 <? total
        then ["-smp"; GoStr.Itoa total +:+ ",sockets=" +:+ GoStr.Itoa sockets
                      +:+ ",cores=" +:+ GoStr.Itoa cores
                      +:+ ",threads=" +:+ GoStr.Itoa threads]
        else [] in
      cpu ++ mem ++ smp
  end.

Definition buildVNCArgs (cfg : option VNCConfig) : list string :=
  match cfg with
  | None => []
  | Some cfg =>
      let listen := if nonempty (vnc_Listen cfg) then vnc_Listen cfg else "none" in
      let parts :=
        [listen]
        ++ (if nonempty (vnc_PasswordSecret cfg)
            then ["password-secret=" +:+ vnc_PasswordSecret cfg]
            else if nonempty (vnc_Password cfg) then ["password=on"] else [])
        ++ part_flag (vnc_Lossy cfg) "lossy=on"
        ++ part_str "audiodev=" (vnc_AudioDev cfg)
        ++ part_pos "websocket" (vnc_Websocket cfg) in
      ["-vnc"; GoStr.Join parts ","]
  end.

Definition buildSpiceArgs (cfg : option SpiceDisplayConfig) : list string :=
  match cfg with
  | None => []
  | Some cfg =>
      let parts :=
        (if sp_Unix cfg then ["unix=on"] else part_pos "port" (sp_Port cfg))
        ++ part_str "password-secret=" (sp_PasswordSecret cfg)
        ++ part_flag (sp_DisableTicketing cfg) "disable-ticketing=on"
        ++ part_str "image-compression=" (sp_ImageCompression cfg)
        ++ part_str "jpeg-wan-compression=" (sp_JpegWanCompression cfg)
        ++ part_str "zlib-glz-wan-compression=" (sp_ZlibGlzWanCompression cfg)
        ++ part_flag (sp_PlaybackCompression cfg) "playback-compression=on"
        ++ part_flag (sp_SeamlessMigration cfg) "seamless-migration=on"
        ++ [if sp_DisableCopyPaste cfg
            then "disable-copy-paste=on" else "disable-copy-paste=off"] in
      match parts with
      | [] => []
      | _ => ["-spice"; GoStr.Join parts ","]
      end
  end.

Definition buildChardevArgs (cfg : option ChardevConfig) : list string :=
  match cfg with
  | None => []
  | Some cfg =>
      if negb (nonempty (cd_ID cfg)) then []
      else
        let parts :=
          [cd_Backend cfg; "id=" +:+ cd_ID cfg]
          ++ part_str "path=" (cd_Path_ cfg)
          ++ part_str "host=" (cd_Host cfg)
          ++ part_pos "port" (cd_Port cfg)
          ++ part_flag (cd_Server cfg) "server=on"
          ++ part_flag (negb (cd_Wait cfg)) "wait=off"
          ++ part_pos "reconnect" (cd_Reconnect cfg)
          ++ part_str "name=" (cd_Name cfg) in
        ["-chardev"; GoStr.Join parts ","]
  end.

Definition buildSecretArgs (cfg : option SecretConfig) : list string :=
  match cfg with
  | None => []
  | Some cfg =>
      if negb (nonempty (sec_ID cfg)) then []
      else
        let parts :=
          ["secret"; "id=" +:+ sec_ID cfg]
          ++ part_str "data=" (sec_Data cfg)
          ++ part_str "file=" (sec_File cfg)
          ++ part_str "format=" (sec_Format cfg) in
        ["-object"; GoStr.Join parts ","]
  end.

End Config.

(* ================================================================= *)
(** ** builder.go: [VMBuilder] *)
(* ================================================================= *)

Module Builder.
Import Json Disk Net Config.

Record RTCConfig : Type := {
  rtc_Base : string;
  rtc_Clock : string;
  rtc_DriftFix : string
}.

(** [type VMConfig struct].  Every slice of pointers holds options: an
    entry may be [nil].  The composer tests the entries of [Disks],
    [CDROMs], [Networks], [Chardevs] and [Secrets] against [nil]; those of
    [Serials] and [USBDevices] it dereferences as they come. *)
Record VMConfig : Type := {
  Name : string;
  Arch : string;
  QemuPath : string;
  SocketDir : string;
  Machine : option MachineConfig;
  CPU : option CPUConfig;
  Memory : option MemoryConfig;
  EFI : option EFIConfig;
  Boot : option BootConfig;
  Disks : list (option DiskConfig);
  CDROMs : list (option CDROMConfig);
  Networks : list (option NetworkConfig);
  Display : option DisplayConfig;
  Audio : option AudioConfig;
  Serials : list (option SerialConfig);
  Chardevs : list (option ChardevConfig);
  VirtioSerial : option VirtioSerialConfig;
  USB : option USBControllerConfig;
  USBDevices : list (option USBDeviceConfig);
  Balloon : option BalloonConfig;
  RTC : option RTCConfig;
  Secrets : list (option SecretConfig);
  NoDefaults : bool;
  ExtraArgs : list string
}.

(** [&VMConfig{}] *)
Definition zeroVMConfig : VMConfig :=
  {| Name := EmptyString; Arch := EmptyString; QemuPath := EmptyString;
     SocketDir := EmptyString; Machine := None; CPU := None; Memory := None;
     EFI := None; Boot := None; Disks := []; CDROMs := []; Networks := [];
     Display := None; Audio := None; Serials := []; Chardevs := [];
     VirtioSerial := None; USB := None; USBDevices := []; Balloon := None;
     RTC := None; Secrets := []; NoDefaults := false; ExtraArgs := [] |}.

Record VMBuilder : Type := mkBuilder {
  config : VMConfig;
  pciAlloc : PCI.pciSlotAllocator;
  args : list string;
  isQ35 : bool
}.

Definition x86_default (arch : string) : bool :=
  String.eqb arch EmptyString || String.eqb arch "amd64" || String.eqb arch "386".

Definition NewVMBuilder (cfg : option VMConfig) : VMBuilder :=
  let cfg := default zeroVMConfig cfg in
  let q35 :=
    match Machine cfg with
    | Some m => GoStr.HasPrefix (mc_Type m) "q35"
    | None => x86_default (Arch cfg)
    end in
  mkBuilder cfg (PCI.newPCISlotAllocator q35) [] q35.

(** *** Methods of the builder: state passing with panics *)

Definition M (A : Type) : Type := VMBuilder -> Result (A * VMBuilder).

Definition ret {A} (a : A) : M A := fun b => Ok (a, b).

Definition bind {A B} (m : M A) (f : A -> M B) : M B :=
  fun b => match m b with
           | Panic msg => Panic msg
           | Ok (a, b') => f a b'
           end.

Notation "x <- m ;; k" := (bind m (fun x => k))
  (at level 100, m at next level, right associativity).
Notation "m ;; k" := (bind m (fun _ => k))
  (at level 100, right associativity).

(** [b.args = append(b.args, l...)] *)
Definition emit (l : list string) : M unit :=
  fun b => Ok (tt, mkBuilder (config b) (pciAlloc b) (args b ++ l) (isQ35 b)).

(** [b.pciAlloc.Alloc()] *)
Definition alloc : M string :=
  fun b => match PCI.Alloc (pciAlloc b) with
           | Panic msg => Panic msg
           | Ok (addr, a') => Ok (addr, mkBuilder (config b) a' (args b) (isQ35 b))
           end.

(** What the Go runtime panics with when a field of a [nil] pointer is
    read. *)
Definition nil_dereference : string :=
  "runtime error: invalid memory address or nil pointer dereference".

Definition nil_deref {A} : M A := fun _ => Panic nil_dereference.

Definition bus : M string := fun b => Ok (PCI.Bus (pciAlloc b), b).
Definition cfg : M VMConfig := fun b => Ok (config b, b).
Definition q35 : M bool := fun b => Ok (isQ35 b, b).

(** A helper that receives [b.pciAlloc] and appends what it returns. *)
Definition with_alloc
    (f : option PCI.pciSlotAllocator -> Result (list string * option PCI.pciSlotAllocator))
  : M unit :=
  fun b => match f (Some (pciAlloc b)) with
           | Panic msg => Panic msg
           | Ok (l, oa) =>
               Ok (tt, mkBuilder (config b) (default (pciAlloc b) oa)
                                 (args b ++ l) (isQ35 b))
           end.

(** [for _, x := range l { f(x) }] *)
Fixpoint forM_ {A} (l : list A) (f : A -> M unit) : M unit :=
  match l with
  | [] => ret tt
  | x :: l' => f x ;; forM_ l' f
  end.

(** [for i, x := range l { f(i, x) }], counting from [i]. *)
Fixpoint forI_ {A} (i : Z) (l : list A) (f : Z -> A -> M unit) : M unit :=
  match l with
  | [] => ret tt
  | x :: l' => f i x ;; forI_ (i + 1) l' f
  end.

Section Steps.
Variable quote : string -> string.

Definition buildMachine : M unit :=
  c <- cfg ;;
  match Machine c with
  | None =>
      let machineType := if x86_default (Arch c) then "q35" else EmptyString in
      if nonempty machineType
      then emit ["-machine"; machineType +:+ ",accel=kvm"]
      else ret tt
  | Some m => emit (buildMachineArgs (Some m))
  end.

Definition pflash_file (path node : string) (ro : bool) : JSON :=
  JObj (mset_if ro "read-only" (JBool true)
       (mset "node-name" (JStr node)
       (mset "filename" (JStr path)
       (mset "driver" (JStr "file") [])))).

Definition pflash_raw (file node : string) (ro : bool) : JSON :=
  JObj (mset_if ro "read-only" (JBool true)
       (mset "node-name" (JStr node)
       (mset "file" (JStr file)
       (mset "driver" (JStr "raw") [])))).

Definition buildEFI : M unit :=
  c <- cfg ;;
  match EFI c with
  | None => ret tt
  | Some e =>
      if negb (nonempty (efi_Code e)) then ret tt
      else
        emit ["-blockdev"; Marshal quote (pflash_file (efi_Code e) "pflash0-file" true)] ;;
        emit ["-blockdev"; Marshal quote (pflash_raw "pflash0-file" "pflash0" true)] ;;
        if nonempty (efi_Vars e) then
          emit ["-blockdev"; Marshal quote (pflash_file (efi_Vars e) "pflash1-file" false)] ;;
          emit ["-blockdev"; Marshal quote (pflash_raw "pflash1-file" "pflash1" false)]
        else ret tt
  end.

Definition buildCPU : M unit :=
  c <- cfg ;;
  let memSize :=
    match Memory c with
    | Some m => if 0 <? mem_Size m then mem_Size m else 512
    | None => 512
    end in
  match CPU c with
  | None =>
      emit ["-cpu"; "host"] ;;
      emit ["-m"; GoStr.Itoa memSize]
  | Some cpu => emit (buildCPUArgs (Some cpu) memSize)
  end.

Definition buildMemory : M unit :=
  c <- cfg ;;
  match Memory c with
  | None => ret tt
  | Some m =>
      match mem_Backend m with
      | None => ret tt
      | Some be =>
          let parts :=
            if String.eqb (mb_Type be) "file" then
              ["memory-backend-file"; "id=mem0";
               "size=" +:+ GoStr.Itoa (mem_Size m) +:+ "M"]
              ++ part_str "mem-path=" (mb_Path be)
              ++ part_flag (mb_Share be) "share=on"
              ++ part_flag (mb_Prealloc be) "prealloc=on"
            else if String.eqb (mb_Type be) "memfd" then
              ["memory-backend-memfd"; "id=mem0";
               "size=" +:+ GoStr.Itoa (mem_Size m) +:+ "M"]
              ++ part_flag (mb_Share be) "share=on"
            else [] in
          match parts with
          | [] => ret tt
          | _ =>
              emit ["-object"; GoStr.Join parts ","] ;;
              emit ["-numa"; "node,memdev=mem0"]
          end
      end ;;
      if String.eqb (mem_MemLock m) "on"
      then emit ["-overcommit"; "mem-lock=on"]
      else ret tt
  end.

Definition buildRTC : M unit :=
  c <- cfg ;;
  match RTC c with
  | None => emit ["-rtc"; "base=utc,driftfix=slew"]
  | Some r =>
      let parts :=
        part_str "base=" (rtc_Base r)
        ++ part_str "clock=" (rtc_Clock r)
        ++ part_str "driftfix=" (rtc_DriftFix r) in
      match parts with
      | [] => ret tt
      | _ => emit ["-rtc"; GoStr.Join parts ","]
      end
  end.

Definition buildBoot : M unit :=
  c <- cfg ;;
  match Boot c with
  | None => ret tt
  | Some bo =>
      (if nonempty (boot_Order bo) || bool_decide (boot_Menu bo <> None) || boot_Strict bo
       then
         let parts :=
           part_str "order=" (boot_Order bo)
           ++ part_onoff "menu" (boot_Menu bo)
           ++ part_flag (boot_Strict bo) "strict=on" in
         match parts with
         | [] => ret tt
         | _ => emit ["-boot"; GoStr.Join parts ","]
         end
       else ret tt) ;;
      (if nonempty (boot_Kernel bo) then emit ["-kernel"; boot_Kernel bo] else ret tt) ;;
      (if nonempty (boot_Initrd bo) then emit ["-initrd"; boot_Initrd bo] else ret tt) ;;
      (if nonempty (boot_Append bo) then emit ["-append"; boot_Append bo] else ret tt)
  end.

Definition buildSecrets : M unit :=
  c <- cfg ;;
  forM_ (Secrets c) (fun secret => emit (buildSecretArgs secret)).

Definition is_pci_video (t : string) : bool :=
  String.eqb t "qxl-vga" || String.eqb t "virtio-vga" || String.eqb t "vga".

Definition buildVideoDevice (v : option VideoConfig) : M unit :=
  match v with
  | None => ret tt
  | Some v =>
      if negb (nonempty (vid_Type v)) then ret tt
      else
        let parts :=
          [vid_Type v; "id=video0"]
          ++ part_pos "vgamem_mb" (vid_VgaMem v)
          ++ part_pos "ram_size" (vid_Ram v)
          ++ part_pos "vram_size" (vid_Vram v)
          ++ part_pos "max_outputs" (vid_MaxOutputs v) in
        if is_pci_video (vid_Type v) then
          bs <- bus ;;
          addr <- alloc ;;
          emit ["-device"; GoStr.Join (parts ++ ["bus=" +:+ bs; "addr=" +:+ addr]) ","]
        else emit ["-device"; GoStr.Join parts ","]
  end.

Definition buildDisplay : M unit :=
  c <- cfg ;;
  match Display c with
  | None => emit ["-display"; "none"]
  | Some d =>
      (if String.eqb (dsp_Type d) "none" then emit ["-display"; "none"]
       else if String.eqb (dsp_Type d) "gtk" then emit ["-display"; "gtk"]
       else if String.eqb (dsp_Type d) "sdl" then emit ["-display"; "sdl"]
       else if String.eqb (dsp_Type d) "vnc" then
         match dsp_VNC d with
         | Some v => emit (buildVNCArgs (Some v))
         | None => ret tt
         end ;;
         emit ["-display"; "none"]
       else if String.eqb (dsp_Type d) "spice" then
         match dsp_Spice d with
         | Some sp => emit (buildSpiceArgs (Some sp))
         | None => ret tt
         end ;;
         emit ["-display"; "none"]
       else emit ["-display"; "none"]) ;;
      match dsp_Video d with
      | Some v => buildVideoDevice (Some v)
      | None => ret tt
      end
  end.

Definition audio_on (a : AudioConfig) : bool :=
  nonempty (au_Backend a) && negb (String.eqb (au_Backend a) "none").

Definition buildAudio : M unit :=
  c <- cfg ;;
  match Audio c with
  | None => ret tt
  | Some a =>
      (if audio_on a
       then emit ["-audiodev"; GoStr.Join [au_Backend a +:+ ",id=audio0"] ","]
       else ret tt) ;;
      if nonempty (au_Device a) then
        bs <- bus ;;
        addr <- alloc ;;
        emit ["-device";
              GoStr.Join [au_Device a; "id=sound0"; "bus=" +:+ bs; "addr=" +:+ addr] ","] ;;
        if nonempty (au_Codec a)
           && (String.eqb (au_Device a) "intel-hda"
               || String.eqb (au_Device a) "ich9-intel-hda")
        then
          emit ["-device";
                GoStr.Join ([au_Codec a; "bus=sound0.0"]
                            ++ part_flag (audio_on a) "audiodev=audio0") ","]
        else ret tt
      else ret tt
  end.

(** [buildControlSocket]: nothing is emitted for an empty path. *)
Definition buildControlSocket (socketPath : string) : M unit :=
  if negb (nonempty socketPath) then ret tt
  else
    emit ["-chardev"; "socket,id=qmp,path=" +:+ socketPath +:+ ",server=on,wait=off"] ;;
    emit ["-mon"; "chardev=qmp,id=monitor,mode=control"].

Definition buildSATAController : M unit :=
  c <- cfg ;;
  match CDROMs c with
  | [] => ret tt
  | _ =>
      is35 <- q35 ;;
      bs <- bus ;;
      addr <- alloc ;;
      if is35
      then emit ["-device"; "ich9-ahci,id=sata0,bus=" +:+ bs +:+ ",addr=" +:+ addr]
      else emit ["-device"; "ahci,id=sata0,bus=" +:+ bs +:+ ",addr=" +:+ addr]
  end.

Definition buildDisks : M unit :=
  c <- cfg ;;
  forM_ (Disks c) (fun disk => with_alloc (buildDiskArgs quote disk)).

Definition buildCDROMs : M unit :=
  c <- cfg ;;
  forI_ 0 (CDROMs c) (fun i cdrom => emit (buildCDROMArgs cdrom i "sata0")).

Definition buildNetworks : M unit :=
  c <- cfg ;;
  forM_ (Networks c) (fun net => with_alloc (buildNetworkArgs net)).

Definition virtio_port (port : VirtioSerialPortConfig) : M unit :=
  let portType := if nonempty (vp_Type port) then vp_Type port else "virtserialport" in
  emit ["-device";
        GoStr.Join ([portType; "bus=virtio-serial0.0"]
                    ++ part_str "chardev=" (vp_Chardev port)
                    ++ part_str "name=" (vp_Name port)) ","].

Definition buildVirtioSerial : M unit :=
  c <- cfg ;;
  match VirtioSerial c, Chardevs c with
  | None, [] => ret tt
  | vs, _ =>
      bs <- bus ;;
      addr <- alloc ;;
      let maxPorts :=
        match vs with
        | Some v => part_pos "max_ports" (vs_MaxPorts v)
        | None => []
        end in
      emit ["-device";
            GoStr.Join (["virtio-serial-pci"; "id=virtio-serial0";
                         "bus=" +:+ bs; "addr=" +:+ addr] ++ maxPorts) ","] ;;
      match vs with
      | Some v => forM_ (vs_Ports v) virtio_port
      | None => ret tt
      end
  end.

(** The body of the loop of [buildSerials].  The entry is a pointer that
    the loop does not test: reading [serial.Type] of a [nil] entry panics,
    before anything is written for it. *)
Definition serial_port (i : Z) (serial : option SerialConfig) : M unit :=
  let chardevID := "serial" +:+ GoStr.Itoa i in
  match serial with
  | None => nil_deref
  | Some serial =>
      emit ["-chardev";
            GoStr.Join ([ser_Type serial; "id=" +:+ chardevID]
                        ++ part_str "path=" (ser_Path serial)
                        ++ part_flag (ser_Server serial) "server=on"
                        ++ part_flag (negb (ser_Wait serial)) "wait=off") ","] ;;
      let device :=
        if nonempty (ser_Device serial) then ser_Device serial else "isa-serial" in
      emit ["-device";
            device +:+ ",chardev=" +:+ chardevID +:+ ",id=" +:+ chardevID +:+ "-device"]
  end.

Definition buildSerials : M unit :=
  c <- cfg ;;
  forI_ 0 (Serials c) serial_port.

Definition buildChardevs : M unit :=
  c <- cfg ;;
  forM_ (Chardevs c) (fun chardev => emit (buildChardevArgs chardev)).

(** The body of the device loop of [buildUSB]: reading [device.Type] of
    a [nil] entry panics. *)
Definition usb_device (i : Z) (device : option USBDeviceConfig) : M unit :=
  match device with
  | None => nil_deref
  | Some device =>
      emit ["-device";
            GoStr.Join ([ud_Type device; "id=usb-dev" +:+ GoStr.Itoa i; "bus=usb0.0"]
                        ++ part_str "chardev=" (ud_Chardev device)) ","]
  end.

Definition buildUSB : M unit :=
  c <- cfg ;;
  match USB c, USBDevices c with
  | None, [] => ret tt
  | u, _ =>
      let controllerType :=
        match u with
        | Some u' => if nonempty (usb_Type u') then usb_Type u' else "qemu-xhci"
        | None => "qemu-xhci"
        end in
      bs <- bus ;;
      addr <- alloc ;;
      emit ["-device"; controllerType +:+ ",id=usb0,bus=" +:+ bs +:+ ",addr=" +:+ addr] ;;
      forI_ 0 (USBDevices c) usb_device
  end.

Definition buildBalloon : M unit :=
  c <- cfg ;;
  match Balloon c with
  | None => ret tt
  | Some bl =>
      if negb (bal_Enabled bl) then ret tt
      else
        bs <- bus ;;
        addr <- alloc ;;
        emit ["-device";
              "virtio-balloon-pci,id=balloon0,bus=" +:+ bs +:+ ",addr=" +:+ addr]
  end.

Definition buildMiscDevices : M unit :=
  emit ["-object"; "rng-random,id=rng0,filename=/dev/urandom"] ;;
  bs <- bus ;;
  addr <- alloc ;;
  emit ["-device";
        "virtio-rng-pci,rng=rng0,id=rng-dev0,bus=" +:+ bs +:+ ",addr=" +:+ addr].

(** [b.args = nil] *)
Definition reset_args : M unit :=
  fun b => Ok (tt, mkBuilder (config b) (pciAlloc b) [] (isQ35 b)).

(** What is built before the control socket, and what after it. *)
Definition buildHead (name : string) : M unit :=
  reset_args ;;
  (if nonempty name
   then emit ["-name"; "guest=" +:+ name +:+ ",debug-threads=on"]
   else ret tt) ;;
  c <- cfg ;;
  (if NoDefaults c then emit ["-no-user-config"; "-nodefaults"] else ret tt) ;;
  buildMachine ;;
  buildEFI ;;
  buildCPU ;;
  buildMemory ;;
  buildRTC ;;
  buildBoot ;;
  buildSecrets ;;
  buildDisplay ;;
  buildAudio.

Definition buildTail : M unit :=
  buildSATAController ;;
  buildDisks ;;
  buildCDROMs ;;
  buildNetworks ;;
  buildVirtioSerial ;;
  buildSerials ;;
  buildChardevs ;;
  buildUSB ;;
  buildBalloon ;;
  buildMiscDevices ;;
  c <- cfg ;;
  emit (ExtraArgs c).

(** [func (b *VMBuilder) Build(name, socketPath string) []string] *)
Definition BuildM (name socketPath : string) : M (list string) :=
  buildHead name ;;
  buildControlSocket socketPath ;;
  buildTail ;;
  fun b => Ok (args b, b).

Definition Build (b : VMBuilder) (name socketPath : string) : Result (list string) :=
  match BuildM name socketPath b with
  | Panic msg => Panic msg
  | Ok (l, _) => Ok l
  end.

End Steps.

(** *** Vocabulary for the statements about the composer *)

(** A step is steady when, from a builder whose allocator has nothing
    taken above its next candidate, it returns (no panic), leaves the
    allocator in such a state, leaves [config] alone and only appends to
    [args]. *)
Definition steady {A} (m : M A) : Prop :=
  forall b, PCI.fresh_above (pciAlloc b) ->
    exists x b' l, m b = Ok (x, b')
                   /\ PCI.fresh_above (pciAlloc b')
                   /\ config b' = config b
                   /\ args b' = args b ++ l.

(** No entry of the slice is [nil]. *)
Definition no_nil {A} (l : list (option A)) : bool :=
  forallb (fun x => match x with Some _ => true | None => false end) l.

(** No [nil] among the entries of [Serials] and of [USBDevices], which
    [buildSerials] and [buildUSB] dereference without a test. *)
Definition nil_free (c : VMConfig) : bool :=
  no_nil (Serials c) && no_nil (USBDevices c).

(** The monitor pair, as [buildControlSocket] writes it. *)
Definition monitor_pair (socketPath : string) : list string :=
  [ "-chardev"; "socket,id=qmp,path=" +:+ socketPath +:+ ",server=on,wait=off";
    "-mon"; "chardev=qmp,id=monitor,mode=control" ].

(** The configuration of the composer baseline. *)
Definition test_vm : VMConfig :=
  {| Name := "test-vm"; Arch := EmptyString; QemuPath := EmptyString;
     SocketDir := EmptyString;
     Machine := Some {| mc_Type := "q35"; mc_Accel := "kvm"; mc_USB := None;
                        mc_DumpGuestCore := None; mc_Pflash0 := EmptyString;
                        mc_Pflash1 := EmptyString |};
     CPU := Some {| cpu_Model := "host"; cpu_Features := [];
                    cpu_Sockets := 1; cpu_Cores := 2; cpu_Threads := 2 |};
     Memory := Some {| mem_Size := 2048; mem_Backend := None;
                       mem_MemLock := EmptyString |};
     EFI := None; Boot := None; Disks := []; CDROMs := []; Networks := [];
     Display := None; Audio := None; Serials := []; Chardevs := [];
     VirtioSerial := None; USB := None; USBDevices := []; Balloon := None;
     RTC := None; Secrets := []; NoDefaults := true; ExtraArgs := [] |}.

(** The baseline with two serial ports, the second one left [nil]. *)
Definition nil_serial_vm : VMConfig :=
  {| Name := "test-vm"; Arch := EmptyString; QemuPath := EmptyString;
     SocketDir := EmptyString; Machine := Machine test_vm; CPU := CPU test_vm;
     Memory := Memory test_vm; EFI := None; Boot := None; Disks := [];
     CDROMs := []; Networks := []; Display := None; Audio := None;
     Serials := [Some {| ser_Type := "pty"; ser_Path := EmptyString;
                         ser_Server := false; ser_Wait := true;
                         ser_Device := EmptyString |};
                 None];
     Chardevs := []; VirtioSerial := None; USB := None; USBDevices := [];
     Balloon := None; RTC := None; Secrets := []; NoDefaults := true;
     ExtraArgs := [] |}.

(** The baseline with a USB device entry left [nil]. *)
Definition nil_usb_vm : VMConfig :=
  {| Name := "test-vm"; Arch := EmptyString; QemuPath := EmptyString;
     SocketDir := EmptyString; Machine := Machine test_vm; CPU := CPU test_vm;
     Memory := Memory test_vm; EFI := None; Boot := None; Disks := [];
     CDROMs := []; Networks := []; Display := None; Audio := None;
     Serials := []; Chardevs := []; VirtioSerial := None; USB := None;
     USBDevices := [None]; Balloon := None; RTC := None; Secrets := [];
     NoDefaults := true; ExtraArgs := [] |}.

(** The baseline with a serial port and a USB tablet. *)
Definition serial_usb_vm : VMConfig :=
  {| Name := "test-vm"; Arch := EmptyString; QemuPath := EmptyString;
     SocketDir := EmptyString; Machine := Machine test_vm; CPU := CPU test_vm;
     Memory := Memory test_vm; EFI := None; Boot := None; Disks := [];
     CDROMs := []; Networks := []; Display := None; Audio := None;
     Serials := [Some {| ser_Type := "pty"; ser_Path := EmptyString;
                         ser_Server := false; ser_Wait := true;
                         ser_Device := EmptyString |}];
     Chardevs := []; VirtioSerial := None; USB := None;
     USBDevices := [Some {| ud_Type := "usb-tablet"; ud_Chardev := EmptyString |}];
     Balloon := None; RTC := None; Secrets := []; NoDefaults := true;
     ExtraArgs := ["-snapshot"] |}.

(** A q35 machine with twenty-nine virtio disks. *)
Definition crowded_vm : VMConfig :=
  {| Name := "crowded"; Arch := EmptyString; QemuPath := EmptyString;
     SocketDir := EmptyString; Machine := None; CPU := None; Memory := None;
     EFI := None; Boot := None; Disks := replicate 29 (Some qcow_disk);
     CDROMs := []; Networks := []; Display := None; Audio := None;
     Serials := []; Chardevs := []; VirtioSerial := None; USB := None;
     USBDevices := []; Balloon := None; RTC := None; Secrets := [];
     NoDefaults := true; ExtraArgs := [] |}.

End Builder.

(* ================================================================= *)
(** ** The QMP transport: the greeting read and the first loop read *)
(* ================================================================= *)

Module Qmp.

(** What one [conn.Read(b)] with a one-byte buffer can return:
    a byte ([n = 1]), nothing without error ([n = 0]), or an error. *)
Inductive ReadResult : Type :=
| RData (c : ascii)
| REmpty
| RErr (e : string).

(** The connection, seen from the reading side: the results the
    successive reads will produce.  Reading past the end of the script
    reports end of file. *)
Definition Conn : Type := list ReadResult.

Definition newline : ascii := ascii_of_nat 10.

(** The loop of [readGreeting]: one byte per read, until a newline.
    Returns the bytes gathered (or the read error) and the connection
    as the loop leaves it. *)
Fixpoint readLine (conn : Conn) (buf : string) : (string + string) * Conn :=
  match conn with
  | [] => (inr "EOF", [])
  | RErr e :: conn' => (inr e, conn')
  | REmpty :: conn' => readLine conn' buf
  | RData c :: conn' =>
      let buf' := buf +:+ String c EmptyString in
      if Ascii.eqb c newline then (inl buf', conn')
      else readLine conn' buf'
  end.

(** The bytes a buffered reader can still draw from the connection:
    everything that arrives before the first error. *)
Fixpoint incoming (conn : Conn) : string :=
  match conn with
  | [] => EmptyString
  | RErr _ :: _ => EmptyString
  | REmpty :: conn' => incoming conn'
  | RData c :: conn' => String c (incoming conn')
  end.

(** [q.reader.ReadBytes('\n')] of the event loop on those bytes: the
    line with its delimiter and the bytes after it, or an error when the
    stream ends first. *)
Fixpoint ReadBytes (stream : string) : option (string * string) :=
  match stream with
  | EmptyString => None
  | String c rest =>
      if Ascii.eqb c newline then Some (String c EmptyString, rest)
      else match ReadBytes rest with
           | Some (line, rest') => Some (String c line, rest')
           | None => None
           end
  end.

(** The bytes of a string, arriving one per read. *)
Fixpoint arriving (s : string) : Conn :=
  match s with
  | EmptyString => []
  | String c s' => RData c :: arriving s'
  end.

Inductive GreetingError : Type :=
| ReadFailed (e : string)    (* "failed to read QMP greeting: ..." *)
| ParseFailed.               (* "failed to parse QMP greeting: ..." *)

Section Greeting.
(** [json.Unmarshal(buf, &greeting) == nil]: whether the line decodes
    as a greeting is decided by the library decoder. *)
Variable decodes : string -> bool.

(** [func (q *QMP) readGreeting() error]: [None] is the [nil] error. *)
Definition readGreeting (conn : Conn) : option GreetingError * Conn :=
  match readLine conn EmptyString with
  | (inr e, conn') => (Some (ReadFailed e), conn')
  | (inl buf, conn') =>
      if decodes buf then (None, conn') else (Some ParseFailed, conn')
  end.

(** [newQMP] after the dial: the greeting is read from the bare
    connection, then the event loop wraps what is left of it in a
    buffered reader and reads its first line.  [None]: the greeting
    failed and the connection was closed. *)
Definition firstLoopRead (conn : Conn) : option (option (string * string)) :=
  match readGreeting conn with
  | (Some _, _) => None
  | (None, conn') => Some (ReadBytes (incoming conn'))
  end.
End Greeting.

(** Whether a newline occurs among the bytes of [s]. *)
Fixpoint has_newline (s : string) : bool :=
  match s with
  | EmptyString => false
  | String c s' => Ascii.eqb c newline || has_newline s'
  end.

(** A stretch of reads that brings no error and no newline. *)
Fixpoint quiet (conn : Conn) : bool :=
  match conn with
  | [] => true
  | RErr _ :: _ => false
  | REmpty :: conn' => quiet conn'
  | RData c :: conn' => negb (Ascii.eqb c newline) && quiet conn'
  end.

(** The one-byte string that ends a line. *)
Definition nl : string := String newline EmptyString.

(** A greeting and the reply to [qmp_capabilities] in one segment. *)
Definition greeting_line : string :=
  "{" +:+ dq +:+ "QMP" +:+ dq +:+ ": {" +:+ dq +:+ "version" +:+ dq +:+ ": {}, "
  +:+ dq +:+ "capabilities" +:+ dq +:+ ": []}}".

Definition reply_line : string :=
  "{" +:+ dq +:+ "return" +:+ dq +:+ ": {}, " +:+ dq +:+ "id" +:+ dq +:+ ": "
  +:+ dq +:+ "cmd-1" +:+ dq +:+ "}".

End Qmp.

(* ================================================================= *)
(** ** state.go and instance.go *)
(* ================================================================= *)

Module Inst.

(** [type State int] with its constants, in [iota] order. *)
Inductive State : Type :=
| StateUnknown
| StateRunning
| StatePaused
| StateShutdown
| StateCrashed
| StateSuspended
| StatePrelaunch.

#[export] Instance State_eq_dec : EqDecision State.
Proof. solve_decision. Defined.

Definition IsAlive (s : State) : bool :=
  match s with
  | StateRunning | StatePaused | StateSuspended | StatePrelaunch => true
  | _ => false
  end.

Definition SIGKILL : Z := 9.

(** [*os.Process]: the handle carries the pid. *)
Record Process : Type := { Pid : Z }.

(** A [*QMP] is an address in the store of transports. *)
Definition QMPRef : Type := nat.

(** The part of [QMP] that [Close] touches: [conn], [nil] once closed. *)
Record QMP : Type := { conn : option nat }.

(** [type Instance struct] (mutexes left out: the methods are followed
    one call at a time; [config] plays no part in them).
    [onStateChange] is the user's callback.  To the controller only
    whether one is set matters; what the callback does is the user's, and
    it is taken to observe the instance ([State()]) without calling back
    into the methods modelled here. *)
Record Instance : Type := mkInstance {
  name : string;
  pid : Z;
  process : option Process;
  socketPath : string;
  qmp : option QMPRef;
  state : State;
  onStateChange : bool
}.

(** What the controller does to the world around it, in order. *)
Inductive Effect : Type :=
| Kill (target : Z) (sig : Z)           (* syscall.Kill(target, sig) *)
| ProcessKill (p : Z)                   (* i.process.Kill() *)
| ConnClose (c : nat)                   (* net.Conn.Close() *)
| Remove (path : string)                (* os.Remove(path) *)
| Execute (q : QMPRef) (cmd : string)   (* qmp.Execute(cmd, nil) *)
| Callback (arg : State) (seen : State).
    (* onStateChange(arg); [seen] is what State() returns while it runs *)

(** The instance with what it shares with its environment: the
    transports it may point to, the files on disk, and the effects so
    far (oldest first). *)
Record World : Type := mkWorld {
  inst : Instance;
  transports : gmap QMPRef QMP;
  files : gset string;
  trace : list Effect
}.

Definition with_inst (f : Instance -> Instance) (w : World) : World :=
  mkWorld (f (inst w)) (transports w) (files w) (trace w).

Definition log (e : Effect) (w : World) : World :=
  mkWorld (inst w) (transports w) (files w) (trace w ++ [e]).

(** [func (i *Instance) State() State] *)
Definition State_ (w : World) : State := state (inst w).

(** [func (i *Instance) setState(s State)]: the field is written
    first, the callback runs afterwards, outside the lock. *)
Definition setState (s : State) (w : World) : World :=
  let old := state (inst w) in
  let w1 := with_inst (fun i => mkInstance (name i) (pid i) (process i)
                                  (socketPath i) (qmp i) s (onStateChange i)) w in
  if bool_decide (old <> s) && onStateChange (inst w1)
  then log (Callback s (State_ w1)) w1
  else w1.

(** [func (q *QMP) Close() error] on the transport at [r]. *)
Definition Close (r : QMPRef) (w : World) : World :=
  match transports w !! r with
  | Some {| conn := Some c |} =>
      log (ConnClose c)
          (mkWorld (inst w) (<[r := {| conn := None |}]> (transports w))
                   (files w) (trace w))
  | _ => w
  end.

(** [os.Remove(path)]; its error is dropped by every caller here. *)
Definition os_Remove (path : string) (w : World) : World :=
  log (Remove path) (mkWorld (inst w) (transports w) (files w ∖ {[path]}) (trace w)).

(** [func (i *Instance) cleanup()] *)
Definition cleanup (w : World) : World :=
  let w1 :=
    match qmp (inst w) with
    | Some r =>
        with_inst (fun i => mkInstance (name i) (pid i) (process i)
                              (socketPath i) None (state i) (onStateChange i))
                  (Close r w)
    | None => w
    end in
  let w2 := setState StateShutdown w1 in
  if Disk.nonempty (socketPath (inst w2))
  then os_Remove (socketPath (inst w2)) w2
  else w2.

(** [func (i *Instance) ForceStop() error]; it always returns [nil]. *)
Definition ForceStop (w : World) : World :=
  let w1 :=
    match process (inst w) with
    | Some p => log (ProcessKill (Pid p)) (log (Kill (- Pid p) SIGKILL) w)
    | None =>
        if 0 <? pid (inst w) then log (Kill (pid (inst w)) SIGKILL) w else w
    end in
  cleanup w1.

(** How [qmp.Execute] came back: with a result, or with an error (an
    error reply, a timeout, a failed write, a closed connection). *)
Inductive ExecOutcome : Type :=
| Returned (payload : string)
| Failed (err : string).

(** [func (i *Instance) Quit() error]: the world after the call and the
    error returned ([None] for [nil]). *)
Definition Quit (out : ExecOutcome) (w : World) : World * option string :=
  match qmp (inst w) with
  | None => (w, Some "not connected")
  | Some r =>
      let w1 := log (Execute r "quit") w in
      match out with
      | Failed _ => (w1, None)
      | Returned _ => (cleanup w1, None)
      end
  end.

(** The scan of one [-chardev] value, after [strings.Split(chardev, ",")]:
    the fields after the first set [socketPath] (the last [path=] wins)
    and [isMonitor]. *)
Definition scan_part (acc : bool * string) (part : string) : bool * string :=
  let '(isMonitor, socketPath) := acc in
  let socketPath' :=
    if GoStr.HasPrefix part "path=" then GoStr.drop 5 part else socketPath in
  let isMonitor' :=
    if GoStr.HasPrefix part "id=" then
      let id := GoStr.drop 3 part in
      if GoStr.Contains id "monitor" || GoStr.Contains id "qmp"
      then true else isMonitor
    else isMonitor in
  (isMonitor', socketPath').

Definition comma : ascii := ascii_of_nat 44.

Definition scan_chardev (chardev : string) : bool * string :=
  fold_left scan_part (tail (GoStr.Split chardev comma)) (false, EmptyString).

(** [func findSocketFromArgs(args []string) string]: the loop looks at
    [args[i]] and [args[i+1]] for every [i < len(args)-1]. *)
Fixpoint findSocketFromArgs (args : list string) : string :=
  match args with
  | a :: ((chardev :: _) as rest) =>
      if String.eqb a "-chardev" && GoStr.HasPrefix chardev "socket," then
        let '(isMonitor, socketPath) := scan_chardev chardev in
        if Disk.nonempty socketPath && isMonitor then socketPath
        else findSocketFromArgs rest
      else findSocketFromArgs rest
  | _ => EmptyString
  end.

(** The [-name] scan of [AttachByPIDContext]: the first [-name] decides
    (the loop breaks there), and it may leave the name as it is. *)
Fixpoint nameFromArgs (args : list string) (current : string) : string :=
  match args with
  | a :: ((nameArg :: _) as rest) =>
      if String.eqb a "-name" then
        if GoStr.HasPrefix nameArg "guest=" then
          match GoStr.Split (GoStr.drop 6 nameArg) comma with
          | first :: _ => first
          | [] => current
          end
        else if negb (GoStr.Contains nameArg "=") then nameArg
        else current
      else nameFromArgs rest current
  | _ => current
  end.

(** The instance [StartContext] and [StartVMContext] hand out: the
    struct literal, then [inst.qmp = qmp]. *)
Definition started (nm : string) (proc : Process) (path : string) (q : QMPRef)
  : Instance :=
  mkInstance nm 0 (Some proc) path (Some q) StatePrelaunch false.

(** The instance [AttachContext] builds before it asks for the status. *)
Definition attached (nm path : string) (q : QMPRef) : Instance :=
  mkInstance nm 0 None path (Some q) StateUnknown false.

Section Attach.
(** The environment of [AttachByPIDContext]: [runutil.ArgsOf],
    [AttachContext] and [os.FindProcess], each with its error case. *)
Variable ArgsOf : Z -> option (list string).
Variable AttachContext : string -> option Instance.
Variable FindProcess : Z -> option Process.

Inductive AttachError : Type :=
| NoArguments
| NoSocketInArguments
| AttachFailed.

Definition AttachByPIDContext (p : Z) : Instance + AttachError :=
  match ArgsOf p with
  | None => inr NoArguments
  | Some args =>
      let path := findSocketFromArgs args in
      if negb (Disk.nonempty path) then inr NoSocketInArguments
      else
        match AttachContext path with
        | None => inr AttachFailed
        | Some i =>
            let proc := match FindProcess p with
                        | Some h => Some h
                        | None => process i
                        end in
            inl (mkInstance (nameFromArgs args (name i)) p proc
                            (socketPath i) (qmp i) (state i) (onStateChange i))
        end
  end.
End Attach.

(** [os.FindProcess] on Unix systems always succeeds and returns a
    handle for the given pid, whether or not the process exists. *)
Definition unixFindProcess (p : Z) : option Process := Some {| Pid := p |}.

(** *** Vocabulary for the statements about [findSocketFromArgs] *)

(** The comma-separated fields of a chardev value after the first. *)
Definition fields (chardev : string) : list string :=
  tail (GoStr.Split chardev comma).

(** A field [id=...] whose value contains [monitor] or [qmp]. *)
Definition monitor_id (part : string) : bool :=
  GoStr.HasPrefix part "id="
  && (GoStr.Contains (GoStr.drop 3 part) "monitor"
      || GoStr.Contains (GoStr.drop 3 part) "qmp").

(** The value of the last [path=] field, if there is one. *)
Fixpoint last_path (parts : list string) : option string :=
  match parts with
  | [] => None
  | part :: parts' =>
      match last_path parts' with
      | Some v => Some v
      | None => if GoStr.HasPrefix part "path=" then Some (GoStr.drop 5 part) else None
      end
  end.

Definition path_value (chardev : string) : string :=
  default EmptyString (last_path (fields chardev)).

(** The values that follow a [-chardev] argument, in order. *)
Fixpoint chardev_values (args : list string) : list string :=
  match args with
  | a :: ((v :: _) as rest) =>
      if String.eqb a "-chardev" then v :: chardev_values rest
      else chardev_values rest
  | _ => []
  end.

(** The [path=] value of the first chardev value that [sel] accepts;
    the empty string when there is none. *)
Definition first_path (sel : string -> bool) (args : list string) : string :=
  match List.find sel (chardev_values args) with
  | Some v => path_value v
  | None => EmptyString
  end.

(** A chardev of the form [socket,...] whose id contains [monitor] or
    [qmp]. *)
Definition monitor_socket (v : string) : bool :=
  GoStr.HasPrefix v "socket," && existsb monitor_id (fields v).

(** The discovery as the specification words it: the [path=] value of
    the first monitor socket. *)
Definition spec_findSocket (args : list string) : string :=
  first_path monitor_socket args.

(** The discovery as the code performs it: monitor sockets without a
    path are passed over. *)
Definition monitor_socket_with_path (v : string) : bool :=
  monitor_socket v && Disk.nonempty (path_value v).

(** *** Vocabulary for the statements about the lifecycle *)

Definition is_callback (e : Effect) : bool :=
  match e with Callback _ _ => true | _ => false end.

(** The callbacks fired so far. *)
Definition callbacks (tr : list Effect) : list Effect := List.filter is_callback tr.

Definition is_signal (e : Effect) : bool :=
  match e with Kill _ _ | ProcessKill _ => true | _ => false end.

(** The signals sent so far. *)
Definition signals (tr : list Effect) : list Effect := List.filter is_signal tr.

(** The argument vector of the discovery scenario. *)
Definition charmonitor_argv : list string :=
  [ "qemu-system-x86_64";
    "-chardev"; "socket,id=charmonitor,path=/run/qemu/mon.sock,server=on,wait=off";
    "-mon"; "chardev=charmonitor,mode=control" ].

(** An argument vector whose first monitor socket has an empty path. *)
Definition pathless_first_argv : list string :=
  [ "qemu-system-x86_64";
    "-chardev"; "socket,id=qmp,path=";
    "-chardev"; "socket,id=monitor2,path=/b.sock" ].

(** An argument vector whose first monitor socket listens on TCP, and so
    has no path at all; a second one is a Unix socket. *)
Definition tcp_first_argv : list string :=
  [ "qemu-system-x86_64";
    "-chardev"; "socket,id=charmonitor,host=127.0.0.1,port=4444,server=on,wait=off";
    "-mon"; "chardev=charmonitor,mode=readline";
    "-chardev"; "socket,id=qmp,path=/run/qemu/qmp.sock,server=on,wait=off";
    "-mon"; "chardev=qmp,mode=control" ].

(** A world around an instance: its transport [0] is open on
    connection [7], and its socket file exists. *)
Definition world_of (i : Instance) : World :=
  mkWorld i {[ 0%nat := {| conn := Some 7%nat |} ]} {[ socketPath i ]} [].

(** A running instance spawned by [StartContext], with a callback set. *)
Definition spawned_vm : Instance :=
  mkInstance "vm" 0 (Some {| Pid := 4242 |}) "/run/vm.sock" (Some 0%nat)
             StateRunning true.

(** The instance [AttachByPIDContext 4242] returns on a Unix system for
    a process started with [charmonitor_argv]. *)
Definition attach_4242 : Instance + AttachError :=
  AttachByPIDContext
    (fun _ => Some charmonitor_argv)
    (fun path => Some (attached "mon" path 0%nat))
    unixFindProcess 4242.

End Inst.

(* ================================================================= *)
(** ** The allocator under a mix of [Alloc] and [Reserve] *)
(* ================================================================= *)

Module PCIOps.
Import PCI.

(** One call on the allocator. *)
Inductive Op : Type :=
| OAlloc
| OReserve (slot : Z).

(** A run of calls; the slots the [Alloc] calls returned, in order. *)
Fixpoint run (ops : list Op) (a : pciSlotAllocator)
  : Result (list Z * pciSlotAllocator) :=
  match ops with
  | [] => Ok ([], a)
  | OAlloc :: ops' =>
      match AllocSlot a with
      | Panic m => Panic m
      | Ok (s, a1) =>
          match run ops' a1 with
          | Panic m => Panic m
          | Ok (ss, a2) => Ok (s :: ss, a2)
          end
      end
  | OReserve slot :: ops' => run ops' (Reserve a slot)
  end.

End PCIOps.

(* ================================================================= *)
(** ** state.go: names of the states *)
(* ================================================================= *)

Module Status.
Import Inst.

(** [func (s State) String() string] on the declared constants. *)
Definition String_ (s : State) : string :=
  match s with
  | StateUnknown => "unknown"
  | StateRunning => "running"
  | StatePaused => "paused"
  | StateShutdown => "shutdown"
  | StateCrashed => "crashed"
  | StateSuspended => "suspended"
  | StatePrelaunch => "prelaunch"
  end.

(** [func parseQMPStatus(status string) State] *)
Definition parseQMPStatus (status : string) : State :=
  if String.eqb status "running" then StateRunning
  else if String.eqb status "paused" then StatePaused
  else if String.eqb status "shutdown" then StateShutdown
  else if String.eqb status "suspended" then StateSuspended
  else if String.eqb status "prelaunch" then StatePrelaunch
  else if String.eqb status "inmigrate" then StatePrelaunch
  else if String.eqb status "internal-error" || String.eqb status "io-error"
       then StateCrashed
  else StateUnknown.

(** The status strings that stand for a live machine. *)
Definition live_status : list string :=
  ["running"; "paused"; "suspended"; "prelaunch"; "inmigrate"].

End Status.

(* ================================================================= *)
(** ** The QMP transport: command ids and the dispatch of the read loop *)
(* ================================================================= *)

Module Transport.
Import Inst.

(** [cmdID := fmt.Sprintf("cmd-%d", q.cmdCounter.Add(1))]: the counter
    is an [atomic.Uint64]; [Add] returns the new value. *)
Definition nextID (counter : Z) : Z * string :=
  let n := (counter + 1) mod 2 ^ 64 in
  (n, "cmd-" +:+ GoStr.Itoa n).

(** The ids of [n] commands issued in a row. *)
Fixpoint ids (n : nat) (counter : Z) : list string :=
  match n with
  | O => []
  | S n' => let '(c, id) := nextID counter in id :: ids n' c
  end.

Record qmpError : Type := { Class : string; Desc : string }.

Record qmpTimestamp : Type := { Seconds : Z; Microseconds : Z }.

(** [type qmpResponse struct], as [json.Unmarshal] fills it; [Return] and
    [Data] are kept as the raw text. *)
Record qmpResponse : Type := {
  Return : string;
  Error : option qmpError;
  Event_ : string;
  Data : string;
  Timestamp : option qmpTimestamp;
  ID : string
}.

(** A [time.Time]: built by [time.Unix(sec, nsec)] or read from the clock. *)
Inductive Time : Type :=
| Unix (sec nsec : Z)
| Clock (now : Z).

(** [type Event struct] *)
Record Event : Type := {
  ev_Name : string;
  ev_Data : string;
  ev_Timestamp : Time
}.

(** What the read loop hands to the callbacks, in order. *)
Inductive Call : Type :=
| StateChange (s : State)     (* q.onStateChange(s) *)
| EventSeen (e : Event).      (* q.onEvent(e) *)

(** The part of [QMP] the read loop works on.  A channel is the list of
    what it holds, oldest first: the reply channels have room for one
    response, the event channel for a hundred. *)
Record Loop : Type := mkLoop {
  pending : gmap string (list qmpResponse);
  eventCh : list Event;
  onStateChange : bool;
  onEvent : bool;
  calls : list Call
}.

(** The state an event name stands for, in [handleEvent]. *)
Definition event_state (name : string) : option State :=
  if String.eqb name "SHUTDOWN" then Some StateShutdown
  else if String.eqb name "RESET" then Some StateRunning
  else if String.eqb name "STOP" then Some StatePaused
  else if String.eqb name "RESUME" then Some StateRunning
  else if String.eqb name "SUSPEND" then Some StateSuspended
  else if String.eqb name "WAKEUP" then Some StateRunning
  else None.

(** [func (q *QMP) handleEvent(event *Event)] *)
Definition handleEvent (e : Event) (q : Loop) : Loop :=
  if negb (onStateChange q) then q
  else match event_state (ev_Name e) with
       | Some s => mkLoop (pending q) (eventCh q) (onStateChange q) (onEvent q)
                          (calls q ++ [StateChange s])
       | None => q
       end.

(** The event the loop builds from a response; [now] is the clock. *)
Definition event_of (now : Z) (resp : qmpResponse) : Event :=
  {| ev_Name := Event_ resp;
     ev_Data := Data resp;
     ev_Timestamp :=
       match Timestamp resp with
       | Some t => Unix (Seconds t) (GoStr.wrap64 (Microseconds t * 1000))
       | None => Clock now
       end |}.

(** One turn of the loop of [eventLoop], after the line was decoded: a
    response with an id goes to its reply channel if there is one with
    room; otherwise a response with an event name is handled, queued if
    the event channel has room, and shown to the event callback. *)
Definition dispatch (now : Z) (resp : qmpResponse) (q : Loop) : Loop :=
  if Disk.nonempty (ID resp) then
    match pending q !! ID resp with
    | Some ch =>
        if (length ch <? 1)%nat
        then mkLoop (<[ID resp := ch ++ [resp]]> (pending q)) (eventCh q)
                    (onStateChange q) (onEvent q) (calls q)
        else q
    | None => q
    end
  else if Disk.nonempty (Event_ resp) then
    let e := event_of now resp in
    let q1 := handleEvent e q in
    let q2 := if (length (eventCh q1) <? 100)%nat
              then mkLoop (pending q1) (eventCh q1 ++ [e])
                          (onStateChange q1) (onEvent q1) (calls q1)
              else q1 in
    if onEvent q2
    then mkLoop (pending q2) (eventCh q2) (onStateChange q2) (onEvent q2)
                (calls q2 ++ [EventSeen e])
    else q2
  else q.

(** The loop over the decoded lines, each with the clock at its
    arrival. *)
Fixpoint dispatch_all (msgs : list (Z * qmpResponse)) (q : Loop) : Loop :=
  match msgs with
  | [] => q
  | (now, resp) :: msgs' => dispatch_all msgs' (dispatch now resp q)
  end.

(** The events among the decoded lines: those without id and with an
    event name. *)
Fixpoint events_of (msgs : list (Z * qmpResponse)) : list Event :=
  match msgs with
  | [] => []
  | (now, resp) :: msgs' =>
      if negb (Disk.nonempty (ID resp)) && Disk.nonempty (Event_ resp)
      then event_of now resp :: events_of msgs'
      else events_of msgs'
  end.

(** The state changes the loop reported. *)
Fixpoint reported (cs : list Call) : list State :=
  match cs with
  | [] => []
  | StateChange s :: cs' => s :: reported cs'
  | EventSeen _ :: cs' => reported cs'
  end.

(** The bridge [StartContext] and [AttachContext] install:
    [qmp.SetStateChangeCallback(func(s State) { inst.setState(s) })]. *)
Definition bridge (ss : list State) (w : World) : World :=
  fold_left (fun w s => setState s w) ss w.

(** The events the loop showed to the event callback. *)
Fixpoint seen (cs : list Call) : list Event :=
  match cs with
  | [] => []
  | EventSeen e :: cs' => e :: seen cs'
  | StateChange _ :: cs' => seen cs'
  end.

(** The decoded lines that carry the id [id]. *)
Definition replies (id : string) (msgs : list (Z * qmpResponse)) : list qmpResponse :=
  List.filter (fun r => String.eqb (ID r) id) (map snd msgs).

(** The states the events among the decoded lines stand for. *)
Definition states_of (msgs : list (Z * qmpResponse)) : list State :=
  omap (fun e => event_state (ev_Name e)) (events_of msgs).

(** The entries of [ss] that differ from their predecessor, [prev] being
    the predecessor of the first. *)
Fixpoint changes (prev : State) (ss : list State) : list State :=
  match ss with
  | [] => []
  | s :: ss' =>
      if bool_decide (prev <> s) then s :: changes s ss' else changes s ss'
  end.

End Transport.

(* ================================================================= *)
(** ** config.go and instance.go: [Config], [Validate], [buildArgs] *)
(* ================================================================= *)

Module Simple.
Import Disk Config Builder.

(** [type DriveConfig struct] *)
Record DriveConfig : Type := {
  dr_File : string;
  dr_Format : string;
  dr_Interface : string;
  dr_ReadOnly : bool;
  dr_Cache : string;
  dr_Serial : string
}.

(** [type NetDevConfig struct] *)
Record NetDevConfig : Type := {
  nd_Type : string;
  nd_ID : string;
  nd_Model : string;
  nd_MACAddr : string;
  nd_Bridge : string;
  nd_Script : string;
  nd_DownScript : string;
  nd_SocketPath : string
}.

(** [type SpiceConfig struct] *)
Record SpiceConfig : Type := {
  spc_UnixSocket : bool;
  spc_Password : string;
  spc_DisableTicketing : bool;
  spc_ImageCompression : string;
  spc_PlaybackCompression : bool
}.

(** [type Config struct] *)
Record Config : Type := {
  c_Name : string;
  c_Arch : string;
  c_QemuPath : string;
  c_SocketDir : string;
  c_Memory : Z;
  c_CPUs : Z;
  c_Machine : string;
  c_CPU : string;
  c_KVM : option bool;
  c_Drives : list DriveConfig;
  c_NetworkDevices : list NetDevConfig;
  c_VNC : string;
  c_Spice : option SpiceConfig;
  c_ExtraArgs : list string;
  c_NoDefaults : option bool;
  c_Daemonize : bool
}.

(** [func DefaultConfig() *Config] *)
Definition DefaultConfig : Config :=
  {| c_Name := EmptyString; c_Arch := EmptyString; c_QemuPath := EmptyString;
     c_SocketDir := EmptyString; c_Memory := 512; c_CPUs := 1;
     c_Machine := EmptyString; c_CPU := EmptyString; c_KVM := Some true;
     c_Drives := []; c_NetworkDevices := []; c_VNC := EmptyString;
     c_Spice := None; c_ExtraArgs := []; c_NoDefaults := Some true;
     c_Daemonize := false |}.

Inductive ValidateError : Type :=
| MemoryNotPositive      (* "memory must be positive" *)
| CPUsNotPositive.       (* "CPUs must be positive" *)

(** [func (c *Config) Validate() error] *)
Definition Validate (c : Config) : option ValidateError :=
  if c_Memory c <=? 0 then Some MemoryNotPositive
  else if c_CPUs c <=? 0 then Some CPUsNotPositive
  else None.

(** [func (cfg *VMConfig) ToConfig() *Config] *)
Definition ToConfig (cfg : VMConfig) : Config :=
  let memory := match Memory cfg with
                | Some m => mem_Size m
                | None => 512
                end in
  let '(cpus, cpu) :=
    match CPU cfg with
    | Some c =>
        let n := GoStr.wrap64 (GoStr.wrap64 (cpu_Sockets c * cpu_Cores c) * cpu_Threads c) in
        (if n =? 0 then 1 else n, cpu_Model c)
    | None => (1, EmptyString)
    end in
  let '(machine, kvm) :=
    match Machine cfg with
    | Some m => (mc_Type m, if String.eqb (mc_Accel m) "kvm" then Some true else None)
    | None => (EmptyString, None)
    end in
  {| c_Name := Name cfg; c_Arch := Arch cfg; c_QemuPath := QemuPath cfg;
     c_SocketDir := SocketDir cfg; c_Memory := memory; c_CPUs := cpus;
     c_Machine := machine; c_CPU := cpu; c_KVM := kvm;
     c_Drives := []; c_NetworkDevices := []; c_VNC := EmptyString;
     c_Spice := None; c_ExtraArgs := ExtraArgs cfg;
     c_NoDefaults := Some (NoDefaults cfg); c_Daemonize := false |}.

(** [p == nil || *p] *)
Definition nil_or_true (p : option bool) : bool :=
  match p with
  | None => true
  | Some b => b
  end.

(** [s += fmt.Sprintf(",key=%s", v)] when [v] is not empty. *)
Definition add_opt (key v : string) (s : string) : string :=
  if nonempty v then s +:+ "," +:+ key +:+ "=" +:+ v else s.

Definition add_flag (c : bool) (flag : string) (s : string) : string :=
  if c then s +:+ flag else s.

(** The head of the command line: everything before the monitor. *)
Definition headArgs (cfg : Config) (name : string) : list string :=
  let machine :=
    if nonempty (c_Machine cfg) then c_Machine cfg
    else if x86_default (c_Arch cfg) then "q35" else EmptyString in
  let cpu :=
    if negb (nonempty (c_CPU cfg)) && nil_or_true (c_KVM cfg) then "host"
    else c_CPU cfg in
  ["-name"; "guest=" +:+ name +:+ ",debug-threads=on"]
  ++ ["-display"; "none"]
  ++ (if nil_or_true (c_NoDefaults cfg) then ["-no-user-config"; "-nodefaults"] else [])
  ++ (if nonempty machine
      then ["-machine";
            if nil_or_true (c_KVM cfg) then machine +:+ ",accel=kvm" else machine]
      else [])
  ++ (if nonempty cpu then ["-cpu"; cpu] else [])
  ++ ["-m"; GoStr.Itoa (c_Memory cfg)]
  ++ (if 1 <? c_CPUs cfg then ["-smp"; GoStr.Itoa (c_CPUs cfg)] else []).

Definition monitorArgs (socketPath : string) : list string :=
  ["-chardev"; "socket,id=qmp,path=" +:+ socketPath +:+ ",server=on,wait=off";
   "-mon"; "chardev=qmp,id=monitor,mode=control"].

Definition driveArg (idx : Z) (drive : DriveConfig) : string :=
  let s0 := "file=" +:+ dr_File drive in
  let s1 := add_opt "format" (dr_Format drive) s0 in
  let s2 := add_opt "cache" (dr_Cache drive) s1 in
  let s3 := add_flag (dr_ReadOnly drive) ",readonly=on" s2 in
  let iface := if nonempty (dr_Interface drive) then dr_Interface drive else "virtio" in
  s3 +:+ ",if=" +:+ iface +:+ ",id=drive" +:+ GoStr.Itoa idx.

Fixpoint driveArgs (idx : Z) (drives : list DriveConfig) : list string :=
  match drives with
  | [] => []
  | d :: ds => ["-drive"; driveArg idx d] ++ driveArgs (idx + 1) ds
  end.

Definition netArgs1 (idx : Z) (net : NetDevConfig) : list string :=
  let netType := if nonempty (nd_Type net) then nd_Type net else "user" in
  let id := if nonempty (nd_ID net) then nd_ID net else "net" +:+ GoStr.Itoa idx in
  let netdev :=
    add_opt "downscript" (nd_DownScript net)
      (add_opt "script" (nd_Script net)
        (add_opt "br" (nd_Bridge net)
          (add_opt "path" (nd_SocketPath net)
            (netType +:+ ",id=" +:+ id)))) in
  let model := if nonempty (nd_Model net) then nd_Model net else "virtio-net-pci" in
  let device := add_opt "mac" (nd_MACAddr net) (model +:+ ",netdev=" +:+ id) in
  ["-netdev"; netdev; "-device"; device].

Fixpoint netArgs (idx : Z) (nets : list NetDevConfig) : list string :=
  match nets with
  | [] => []
  | n :: ns => netArgs1 idx n ++ netArgs (idx + 1) ns
  end.

Definition spiceArgs (sp : option SpiceConfig) : list string :=
  match sp with
  | None => []
  | Some sp =>
      let s0 := if spc_UnixSocket sp then "unix=on" else EmptyString in
      let s1 := add_opt "password" (spc_Password sp) s0 in
      let s2 := add_flag (spc_DisableTicketing sp) ",disable-ticketing=on" s1 in
      let s3 := add_opt "image-compression" (spc_ImageCompression sp) s2 in
      let s4 := add_flag (spc_PlaybackCompression sp) ",playback-compression=on" s3 in
      if nonempty s4 then ["-spice"; s4] else []
  end.

(** [func buildArgs(cfg *Config, name, socketPath string) []string] *)
Definition buildArgs (cfg : Config) (name socketPath : string) : list string :=
  headArgs cfg name
  ++ monitorArgs socketPath
  ++ driveArgs 0 (c_Drives cfg)
  ++ netArgs 0 (c_NetworkDevices cfg)
  ++ (if nonempty (c_VNC cfg) then ["-vnc"; c_VNC cfg] else [])
  ++ spiceArgs (c_Spice cfg)
  ++ c_ExtraArgs cfg.

(** Whether a comma occurs in [s]. *)
Fixpoint has_comma (s : string) : bool :=
  match s with
  | EmptyString => false
  | String c s' => Ascii.eqb c Inst.comma || has_comma s'
  end.

(** The part of [s] before its first comma. *)
Fixpoint before_comma (s : string) : string :=
  match s with
  | EmptyString => EmptyString
  | String c s' => if Ascii.eqb c Inst.comma then EmptyString else String c (before_comma s')
  end.

End Simple.

(* ================================================================= *)
(** ** instance.go: [PID], [isProcessAlive], [StopContext] *)
(* ================================================================= *)

Module Stop.
Import Inst Transport.

(** [func (i *Instance) PID() int] *)
Definition PID (i : Instance) : Z :=
  match process i with
  | Some p => Pid p
  | None => pid i
  end.

(** [func (i *Instance) isProcessAlive() bool]: [answer] tells whether
    the probe [syscall.Kill(pid, 0)] finds the process. *)
Definition isProcessAlive (answer : bool) (w : World) : bool * World :=
  match process (inst w) with
  | Some p => (answer, log (Kill (Pid p) 0) w)
  | None =>
      if 0 <? pid (inst w) then (answer, log (Kill (pid (inst w)) 0) w)
      else (false, w)
  end.

(** One turn of the waiting loop of [StopContext], as the [select] and
    the environment decide it: the context is done, or the ticker fires.
    With a tick come the state changes the read loop reported since the
    last look, the answer of the liveness probe, and the answer of the
    second probe made after the half-second wait. *)
Inductive Poll : Type :=
| CtxDone
| Tick (arrived : list State) (alive : bool) (aliveAfterWait : bool).

Inductive StopError : Type :=
| PowerdownFailed (e : string)   (* "system_powerdown failed: ..." *)
| Cancelled                      (* ctx.Err() *)
| TimedOut.                      (* "graceful shutdown timed out after ..." *)

(** The loop [for time.Now().Before(deadline)]: one entry of [polls] per
    turn taken before the deadline. *)
Fixpoint stop_loop (polls : list Poll) (w : World) : World * option StopError :=
  match polls with
  | [] => (ForceStop w, Some TimedOut)
  | CtxDone :: _ => (ForceStop w, Some Cancelled)
  | Tick arrived alive aliveAfterWait :: polls' =>
      let w1 := bridge arrived w in
      let '(a, w2) := isProcessAlive alive w1 in
      if negb a then (cleanup w2, None)
      else if bool_decide (State_ w2 = StateShutdown) then
        let '(a', w3) := isProcessAlive aliveAfterWait w2 in
        if negb a' then (cleanup w3, None)
        else stop_loop polls' w3
      else stop_loop polls' w2
  end.

(** [func (i *Instance) StopContext(ctx, timeout) error] *)
Definition StopContext (out : ExecOutcome) (polls : list Poll) (w : World)
  : World * option StopError :=
  match qmp (inst w) with
  | None => (ForceStop w, None)
  | Some r =>
      let w1 := log (Execute r "system_powerdown") w in
      match out with
      | Failed e => (ForceStop w1, Some (PowerdownFailed e))
      | Returned _ => stop_loop polls w1
      end
  end.

(** The effects a call added to the trace. *)
Definition added (before after : World) : list Effect :=
  skipn (length (trace before)) (trace after).

(** A signal that kills: [SIGKILL] by [syscall.Kill], or [Process.Kill]. *)
Definition is_kill (e : Effect) : bool :=
  match e with
  | Kill _ sig => sig =? SIGKILL
  | ProcessKill _ => true
  | _ => false
  end.

(** [w] is [w0] after steps that touch nothing but the state of the
    instance and the log, and send no killing signal. *)
Definition no_kill_step (w0 w : World) : Prop :=
  name (inst w) = name (inst w0) /\ pid (inst w) = pid (inst w0)
  /\ process (inst w) = process (inst w0)
  /\ socketPath (inst w) = socketPath (inst w0)
  /\ qmp (inst w) = qmp (inst w0)
  /\ Inst.onStateChange (inst w) = Inst.onStateChange (inst w0)
  /\ transports w = transports w0 /\ files w = files w0
  /\ exists l, trace w = trace w0 ++ l /\ Forall (fun e => is_kill e = false) l.

(** An instance as [AttachContext] leaves it: no process handle and no
    pid. *)
Definition without_pid (i : Instance) : Prop :=
  process i = None /\ pid i <= 0.

(** The loop [for i.isProcessAlive() { time.Sleep(...) }] of [Wait]:
    [probes] holds the answers the liveness probes get, in order, as far
    as they are known; the result is [None] when they run out while the
    loop is still going. *)
Fixpoint wait_loop (probes : list bool) (w : World) : option World :=
  match probes with
  | [] => None
  | answer :: probes' =>
      let '(a, w1) := isProcessAlive answer w in
      if a then wait_loop probes' w1 else Some w1
  end.

(** [func (i *Instance) Wait() error].  With a process handle the call
    sits in [i.process.Wait()] until the process is gone and returns its
    error [waitErr] after the cleanup; without one it polls. *)
Definition Wait (waitErr : option string) (probes : list bool) (w : World)
  : option (World * option string) :=
  match process (inst w) with
  | Some _ => Some (cleanup w, waitErr)
  | None =>
      match wait_loop probes w with
      | Some w1 => Some (cleanup w1, None)
      | None => None
      end
  end.

End Stop.

(* ================================================================= *)
(** ** network.go: the network back-ends *)
(* ================================================================= *)

Module NetBackends.
Import Disk Config Net.

Record UserNetBackend : Type := {
  un_Hostfwd : list string;
  un_Net : string;
  un_Host : string;
  un_DNS : string;
  un_DHCPStart : string;
  un_Restrict : bool
}.

Record TapNetBackend : Type := {
  tap_Ifname : string;
  tap_Bridge : string;
  tap_Script : string;
  tap_DownScript : string;
  tap_VHost : bool;
  tap_Queues : Z;
  tap_FD : Z
}.

Record SocketNetBackend : Type := {
  sock_Path : string;
  sock_Server : bool;
  sock_Reconnect : Z
}.

Record StreamNetBackend : Type := {
  st_Path : string;
  st_Host : string;
  st_Port : Z;
  st_Server : bool;
  st_Reconnect : Z
}.

Record VDENetBackend : Type := {
  vde_Sock : string;
  vde_Port : Z;
  vde_Group : string;
  vde_Mode : string
}.

Record BridgeNetBackend : Type := {
  br_Bridge : string;
  br_Helper : string
}.

(** The options that follow [<type>,id=<id>] in each back-end. *)
Definition user_opts (u : UserNetBackend) : list string :=
  part_str "net=" (un_Net u)
  ++ part_str "host=" (un_Host u)
  ++ part_str "dns=" (un_DNS u)
  ++ part_str "dhcpstart=" (un_DHCPStart u)
  ++ part_flag (un_Restrict u) "restrict=on"
  ++ map (fun fwd => "hostfwd=" +:+ fwd) (un_Hostfwd u).

Definition tap_opts (t : TapNetBackend) : list string :=
  part_str "ifname=" (tap_Ifname t)
  ++ part_str "br=" (tap_Bridge t)
  ++ part_str "script=" (tap_Script t)
  ++ part_str "downscript=" (tap_DownScript t)
  ++ part_flag (tap_VHost t) "vhost=on"
  ++ (if 1 <? tap_Queues t then ["queues=" +:+ GoStr.Itoa (tap_Queues t)] else [])
  ++ part_pos "fd" (tap_FD t).

Definition socket_opts (s : SocketNetBackend) : list string :=
  if nonempty (sock_Path s) then
    if sock_Server s then ["listen=" +:+ sock_Path s] else ["connect=" +:+ sock_Path s]
  else [].

Definition stream_opts (s : StreamNetBackend) : list string :=
  [if st_Server s then "server=on" else "server=off"]
  ++ (if nonempty (st_Path s) then ["addr.type=unix"; "addr.path=" +:+ st_Path s]
      else if nonempty (st_Host s) then
        ["addr.type=inet"; "addr.host=" +:+ st_Host s] ++ part_pos "addr.port" (st_Port s)
      else [])
  ++ (if (0 <? st_Reconnect s) && negb (st_Server s)
      then ["reconnect=" +:+ GoStr.Itoa (st_Reconnect s)] else []).

Definition vde_opts (v : VDENetBackend) : list string :=
  part_str "sock=" (vde_Sock v)
  ++ part_pos "port" (vde_Port v)
  ++ part_str "group=" (vde_Group v)
  ++ part_str "mode=" (vde_Mode v).

Definition bridge_opts (b : BridgeNetBackend) : list string :=
  part_str "br=" (br_Bridge b)
  ++ part_str "helper=" (br_Helper b).

(** Every [BuildNetdevArgs] of the file has this form. *)
Definition netdev (ty : string) (opts : list string) (id : string) : list string :=
  ["-netdev"; GoStr.Join ([ty; "id=" +:+ id] ++ opts) ","].

#[export] Instance UserNet : NetworkBackend UserNetBackend :=
  {| NetType := fun _ => "user";
     BuildNetdevArgs := fun u id => netdev "user" (user_opts u) id |}.
#[export] Instance TapNet : NetworkBackend TapNetBackend :=
  {| NetType := fun _ => "tap";
     BuildNetdevArgs := fun t id => netdev "tap" (tap_opts t) id |}.
#[export] Instance SocketNet : NetworkBackend SocketNetBackend :=
  {| NetType := fun _ => "socket";
     BuildNetdevArgs := fun s id => netdev "socket" (socket_opts s) id |}.
#[export] Instance StreamNet : NetworkBackend StreamNetBackend :=
  {| NetType := fun _ => "stream";
     BuildNetdevArgs := fun s id => netdev "stream" (stream_opts s) id |}.
#[export] Instance VDENet : NetworkBackend VDENetBackend :=
  {| NetType := fun _ => "vde";
     BuildNetdevArgs := fun v id => netdev "vde" (vde_opts v) id |}.
#[export] Instance BridgeNet : NetworkBackend BridgeNetBackend :=
  {| NetType := fun _ => "bridge";
     BuildNetdevArgs := fun b id => netdev "bridge" (bridge_opts b) id |}.

(** The back-ends of the file, as interface values. *)
Inductive KnownNet : Type :=
| KUser (u : UserNetBackend)
| KTap (t : TapNetBackend)
| KSocket (s : SocketNetBackend)
| KStream (s : StreamNetBackend)
| KVDE (v : VDENetBackend)
| KBridge (b : BridgeNetBackend).

Definition pack_net (k : KnownNet) : AnyNetBackend :=
  match k with
  | KUser u => PackNet _ UserNet u
  | KTap t => PackNet _ TapNet t
  | KSocket s => PackNet _ SocketNet s
  | KStream s => PackNet _ StreamNet s
  | KVDE v => PackNet _ VDENet v
  | KBridge b => PackNet _ BridgeNet b
  end.

Definition net_name (k : KnownNet) : string :=
  match k with
  | KUser _ => "user"
  | KTap _ => "tap"
  | KSocket _ => "socket"
  | KStream _ => "stream"
  | KVDE _ => "vde"
  | KBridge _ => "bridge"
  end.

(** [cfg.ID], or ["net0"] when it is empty. *)
Definition net_id (cfg : NetworkConfig) : string :=
  if nonempty (net_ID cfg) then net_ID cfg else "net0".

(** [cfg.Model], or ["virtio-net-pci"] when it is empty. *)
Definition net_model (cfg : NetworkConfig) : string :=
  if nonempty (net_Model cfg) then net_Model cfg else "virtio-net-pci".

End NetBackends.

(* ================================================================= *)
(** ** display.go: passing a client connection to QEMU *)
(* ================================================================= *)

Module Display.
Import Inst.

(** What [AddVNCClient] and [AddSpiceClient] do, in order. *)
Inductive Step : Type :=
| GetFd (fdname : string) (fd : Z)       (* ExecuteWithFd("getfd", {fdname}, fd) *)
| AddClient (protocol fdname : string) (skipauth : bool)
                                         (* Execute("add_client", ...) *)
| CloseFd (fd : Z).                      (* closeFd(fd), deferred *)

Inductive ClientError : Type :=
| NotConnected
| NoFd (e : string)          (* connToFd failed *)
| PassFailed (e : string)    (* "failed to pass fd: ..." *)
| AddFailed (e : string).    (* "failed to add client: ..." *)

(** [fdName := fmt.Sprintf("%s-client-%d", protocol, time.Now().UnixNano())] *)
Definition fdName (protocol : string) (now : Z) : string :=
  protocol +:+ "-client-" +:+ GoStr.Itoa now.

(** [func (i *Instance) addClientFd(qmp, protocol, fd, skipAuth) error];
    [getfd] and [add] are how the two commands come back. *)
Definition addClientFd (protocol : string) (fd : Z) (skipAuth : bool) (now : Z)
    (getfd add : ExecOutcome) : list Step * option ClientError :=
  let name := fdName protocol now in
  match getfd with
  | Failed e => ([GetFd name fd], Some (PassFailed e))
  | Returned _ =>
      match add with
      | Failed e => ([GetFd name fd; AddClient protocol name skipAuth], Some (AddFailed e))
      | Returned _ => ([GetFd name fd; AddClient protocol name skipAuth], None)
      end
  end.

(** [AddVNCClient] and [AddSpiceClient], for [protocol] ["vnc"] and
    ["spice"]: [connected] is [i.qmp != nil], [dup] is what [connToFd]
    returns. *)
Definition AddDisplayClient (protocol : string) (connected : bool) (dup : Z + string)
    (skipAuth : bool) (now : Z) (getfd add : ExecOutcome)
  : list Step * option ClientError :=
  if negb connected then ([], Some NotConnected)
  else match dup with
       | inr e => ([], Some (NoFd e))
       | inl fd =>
           let '(steps, err) := addClientFd protocol fd skipAuth now getfd add in
           (steps ++ [CloseFd fd], err)
       end.

End Display.

(* ================================================================= *)
(** ** locate.go: finding the emulator *)
(* ================================================================= *)

Module Locate.
Import Disk.

(** [var archToQemu = map[string]string{...}] *)
Definition archToQemu : list (string * string) :=
  [ ("amd64", "x86_64"); ("386", "i386"); ("arm64", "aarch64"); ("arm", "arm");
    ("riscv64", "riscv64"); ("ppc64", "ppc64"); ("ppc64le", "ppc64");
    ("mips", "mips"); ("mips64", "mips64"); ("s390x", "s390x") ].

Fixpoint lookup_arch (arch : string) (table : list (string * string)) : option string :=
  match table with
  | [] => None
  | (k, v) :: table' => if String.eqb arch k then Some v else lookup_arch arch table'
  end.

(** [func QemuArchName(goarch string) (string, bool)] *)
Definition QemuArchName (goarch : string) : option string :=
  lookup_arch goarch archToQemu.

(** [var qemuSearchPaths] *)
Definition qemuSearchPaths : list string :=
  [ "/pkg/main/app-emulation.qemu.core/bin"; "/usr/bin"; "/usr/local/bin" ].

Inductive LocateError : Type :=
| UnsupportedArch (arch : string)
| QemuNotFound.

Section FileSystem.
(** The host: [runtime.GOARCH]; whether [os.Stat] finds something that is
    not a directory; [exec.LookPath]; [filepath.Join]. *)
Variable GOARCH : string.
Variable isFile : string -> bool.
Variable LookPath : string -> option string.
Variable Join : string -> string -> string.

(** The first directory of the list that holds the binary. *)
Fixpoint search (dirs : list string) (binaryName : string) : option string :=
  match dirs with
  | [] => None
  | dir :: dirs' =>
      if isFile (Join dir binaryName) then Some (Join dir binaryName)
      else search dirs' binaryName
  end.

(** [func LocateQemu(arch string, customPath string) (string, error)] *)
Definition LocateQemu (arch customPath : string) : string + LocateError :=
  let arch := if nonempty arch then arch else GOARCH in
  match lookup_arch arch archToQemu with
  | None => inr (UnsupportedArch arch)
  | Some qemuArch =>
      let binaryName := "qemu-system-" +:+ qemuArch in
      if nonempty customPath && isFile customPath then inl customPath
      else if nonempty customPath && isFile (Join customPath binaryName)
      then inl (Join customPath binaryName)
      else match LookPath binaryName with
           | Some path => inl path
           | None =>
               match search qemuSearchPaths binaryName with
               | Some path => inl path
               | None => inr QemuNotFound
               end
           end
  end.

(** The places where [LocateQemu] would accept the binary. *)
Definition candidate (customPath binaryName path : string) : Prop :=
  (customPath <> EmptyString /\ isFile customPath = true /\ path = customPath)
  \/ (customPath <> EmptyString /\ isFile (Join customPath binaryName) = true
      /\ path = Join customPath binaryName)
  \/ LookPath binaryName = Some path
  \/ (exists dir, In dir qemuSearchPaths /\ isFile (Join dir binaryName) = true
                  /\ path = Join dir binaryName).

End FileSystem.

End Locate.

(* ================================================================= *)
(** ** builder.go: the helpers that extend a [VMConfig] *)
(* ================================================================= *)

Module Helpers.
Import Disk Config Builder.

(** [func (cfg *VMConfig) WithGuestAgent(socketPath string) *VMConfig] *)
Definition qga_chardev (socketPath : string) : ChardevConfig :=
  {| cd_ID := "qga0"; cd_Backend := "socket"; cd_Path_ := socketPath;
     cd_Server := true; cd_Wait := false; cd_Host := EmptyString; cd_Port := 0;
     cd_Reconnect := 0; cd_Name := EmptyString |}.

Definition qga_port : VirtioSerialPortConfig :=
  {| vp_Chardev := "qga0"; vp_Name := "org.qemu.guest_agent.0";
     vp_Type := "virtserialport" |}.

(** [cfg.VirtioSerial.Ports = append(cfg.VirtioSerial.Ports, port)], after
    [cfg.VirtioSerial] was set to an empty configuration if it was nil. *)
Definition add_port (port : VirtioSerialPortConfig) (vs : option VirtioSerialConfig)
  : option VirtioSerialConfig :=
  match vs with
  | None => Some {| vs_MaxPorts := 0; vs_Ports := [port] |}
  | Some v => Some {| vs_MaxPorts := vs_MaxPorts v; vs_Ports := vs_Ports v ++ [port] |}
  end.

Definition with_chardev_port (cd : ChardevConfig) (port : VirtioSerialPortConfig)
    (cfg : VMConfig) : VMConfig :=
  {| Name := Name cfg; Arch := Arch cfg; QemuPath := QemuPath cfg;
     SocketDir := SocketDir cfg; Machine := Machine cfg; CPU := CPU cfg;
     Memory := Memory cfg; EFI := EFI cfg; Boot := Boot cfg; Disks := Disks cfg;
     CDROMs := CDROMs cfg; Networks := Networks cfg; Display := Display cfg;
     Audio := Audio cfg; Serials := Serials cfg;
     Chardevs := Chardevs cfg ++ [Some cd];
     VirtioSerial := add_port port (VirtioSerial cfg);
     USB := USB cfg; USBDevices := USBDevices cfg; Balloon := Balloon cfg;
     RTC := RTC cfg; Secrets := Secrets cfg; NoDefaults := NoDefaults cfg;
     ExtraArgs := ExtraArgs cfg |}.

Definition WithGuestAgent (socketPath : string) (cfg : VMConfig) : VMConfig :=
  with_chardev_port (qga_chardev socketPath) qga_port cfg.

(** [func (cfg *VMConfig) WithSpiceAgent() *VMConfig] *)
Definition vdagent_chardev : ChardevConfig :=
  {| cd_ID := "vdagent0"; cd_Backend := "spicevmc"; cd_Path_ := EmptyString;
     cd_Server := false; cd_Wait := false; cd_Host := EmptyString; cd_Port := 0;
     cd_Reconnect := 0; cd_Name := "vdagent" |}.

Definition vdagent_port : VirtioSerialPortConfig :=
  {| vp_Chardev := "vdagent0"; vp_Name := "com.redhat.spice.0";
     vp_Type := "virtserialport" |}.

Definition WithSpiceAgent (cfg : VMConfig) : VMConfig :=
  with_chardev_port vdagent_chardev vdagent_port cfg.

(** A step that emits a list with property [P]: from a builder whose
    allocator has nothing taken above its next candidate it returns,
    leaves the allocator in such a state, leaves [config] and [isQ35]
    alone, and appends to [args] a list of which [P] holds. *)
Definition emits (P : list string -> Prop) {A} (m : M A) : Prop :=
  forall b, PCI.fresh_above (pciAlloc b) ->
    exists x b' l, m b = Ok (x, b')
                   /\ PCI.fresh_above (pciAlloc b')
                   /\ config b' = config b
                   /\ isQ35 b' = isQ35 b
                   /\ args b' = args b ++ l
                   /\ P l.

(** The socket scan passes over [l]: in front of an argument that does
    not start with [socket,] it changes nothing. *)
Definition passes (l : list string) : Prop :=
  forall y rest, GoStr.HasPrefix y "socket," = false ->
    Inst.findSocketFromArgs (l ++ y :: rest) = Inst.findSocketFromArgs (y :: rest).

(** The scan passes over [l], and [l] does not start with a value that
    could follow a [-chardev] as a socket. *)
Definition quiet (l : list string) : Prop :=
  passes l /\ GoStr.HasPrefix (hd EmptyString l) "socket," = false.

(** What [Build] writes first. *)
Definition name_args (name : string) : list string :=
  if nonempty name then ["-name"; "guest=" +:+ name +:+ ",debug-threads=on"] else [].

(** Any property of the emitted list. *)
Definition anything (l : list string) : Prop := True.

(** The device line of a virtio-serial port, as [buildVirtioSerial]
    writes it. *)
Definition port_line (port : VirtioSerialPortConfig) : list string :=
  let portType := if nonempty (vp_Type port) then vp_Type port else "virtserialport" in
  ["-device";
   GoStr.Join ([portType; "bus=virtio-serial0.0"]
               ++ part_str "chardev=" (vp_Chardev port)
               ++ part_str "name=" (vp_Name port)) ","].

(** The configuration with the VNC password replaced, when it has a VNC
    part. *)
Definition with_vnc_password (p : string) (c : VMConfig) : VMConfig :=
  match Display c with
  | Some d =>
      match dsp_VNC d with
      | Some v =>
          {| Name := Name c; Arch := Arch c; QemuPath := QemuPath c;
             SocketDir := SocketDir c; Machine := Machine c; CPU := CPU c;
             Memory := Memory c; EFI := EFI c; Boot := Boot c; Disks := Disks c;
             CDROMs := CDROMs c; Networks := Networks c;
             Display :=
               Some {| dsp_Type := dsp_Type d;
                       dsp_VNC :=
                         Some {| vnc_Listen := vnc_Listen v; vnc_Password := p;
                                 vnc_PasswordSecret := vnc_PasswordSecret v;
                                 vnc_Lossy := vnc_Lossy v;
                                 vnc_AudioDev := vnc_AudioDev v;
                                 vnc_Websocket := vnc_Websocket v |};
                       dsp_Spice := dsp_Spice d; dsp_Video := dsp_Video d |};
             Audio := Audio c; Serials := Serials c; Chardevs := Chardevs c;
             VirtioSerial := VirtioSerial c; USB := USB c;
             USBDevices := USBDevices c; Balloon := Balloon c; RTC := RTC c;
             Secrets := Secrets c; NoDefaults := NoDefaults c;
             ExtraArgs := ExtraArgs c |}
      | None => c
      end
  | None => c
  end.

(** Two runs of a step on builders that differ at most in their
    configurations, [c1] for the first and [c2] for the second, go the
    same way: both panic, or both return, with the same value, the same
    arguments and the same allocator. *)
Definition alike (c1 c2 : VMConfig) (b1 b2 : VMBuilder) : Prop :=
  config b1 = c1 /\ config b2 = c2
  /\ pciAlloc b1 = pciAlloc b2 /\ args b1 = args b2 /\ isQ35 b1 = isQ35 b2.

Definition agree (c1 c2 : VMConfig) {A} (m1 m2 : M A) : Prop :=
  forall b1 b2, alike c1 c2 b1 b2 ->
    match m1 b1, m2 b2 with
    | Ok (x1, b1'), Ok (x2, b2') => x1 = x2 /\ alike c1 c2 b1' b2'
    | Panic e1, Panic e2 => e1 = e2
    | _, _ => False
    end.

(** The baseline machine with a VNC display protected by a password. *)
Definition vnc_vm (password : string) : VMConfig :=
  with_vnc_password password
    {| Name := "vnc-vm"; Arch := EmptyString; QemuPath := EmptyString;
       SocketDir := EmptyString; Machine := None; CPU := None; Memory := None;
       EFI := None; Boot := None; Disks := []; CDROMs := []; Networks := [];
       Display :=
         Some {| dsp_Type := "vnc";
                 dsp_VNC := Some {| vnc_Listen := ":1"; vnc_Password := EmptyString;
                                    vnc_PasswordSecret := EmptyString;
                                    vnc_Lossy := false; vnc_AudioDev := EmptyString;
                                    vnc_Websocket := 0 |};
                 dsp_Spice := None; dsp_Video := None |};
       Audio := None; Serials := []; Chardevs := []; VirtioSerial := None;
       USB := None; USBDevices := []; Balloon := None; RTC := None;
       Secrets := []; NoDefaults := true; ExtraArgs := [] |}.

End Helpers.

(* ================================================================= *)
(** ** disk.go: the throttle layer *)
(* ================================================================= *)

Module Throttled.
Import Json Disk.

(** The node below the throttle filter: the iSCSI node, or the format
    node of the other back-ends. *)
Definition top_node (be : AnyDiskBackend) (id : string) : string :=
  if String.eqb (AnyType be) "iscsi" then id +:+ "-iscsi" else id +:+ "-format".

(** A throttle group of 10 MB/s and 1000 operations a second. *)
Definition slow_group : ThrottleConfig :=
  {| Group := "slow"; BPS := 10485760; BPSRead := 0; BPSWrite := 0;
     IOPS := 1000; IOPSRead := 0; IOPSWrite := 0; BPSMax := 0; IOPSMax := 0;
     BurstLength := 0 |}.

(** The qcow2 disk of the builder test, throttled. *)
Definition slow_disk : DiskConfig :=
  {| ID := "disk0"; Backend := Some (pack plainQuote (KFile qcow_file));
     Interface := "virtio"; Cache := EmptyString; Discard := EmptyString;
     ReadOnly := false; BootIndex := 0; Throttle := Some slow_group;
     Serial := EmptyString |}.

End Throttled.

(* ################################################################# *)
(** * Properties *)
(* ################################################################# *)

(* ================================================================= *)
(** ** Strings *)
(* ================================================================= *)

Module StrFacts.
Import Disk.

Example hex_31 : GoStr.Hex 31 = "1f".
Proof. reflexivity. Qed.

Example itoa_2048 : GoStr.Itoa 2048 = "2048".
Proof. reflexivity. Qed.

Example itoa_negative : GoStr.Itoa (-7) = "-7".
Proof. reflexivity. Qed.

Example split_keeps_empty_fields :
  GoStr.Split "socket,id=qmp,,x" ","%char = ["socket"; "id=qmp"; EmptyString; "x"].
Proof. reflexivity. Qed.

Example split_without_separator : GoStr.Split "socket" ","%char = ["socket"].
Proof. reflexivity. Qed.

Example join_commas : GoStr.Join ["q35"; "accel=kvm"] "," = "q35,accel=kvm".
Proof. reflexivity. Qed.

Lemma nonempty_true s : s <> EmptyString <-> nonempty s = true.
Proof.
  unfold nonempty. rewrite negb_true_iff. symmetry. apply String.eqb_neq.
Qed.

Lemma append_cons (x : ascii) (a b : string) :
  String x a +:+ b = String x (a +:+ b).
Proof. reflexivity. Qed.

Lemma append_assoc (a b c : string) : (a +:+ b) +:+ c = a +:+ (b +:+ c).
Proof.
  induction a as [|x a IH]; [reflexivity|].
  rewrite !append_cons, IH. reflexivity.
Qed.

Lemma append_nil_r (a : string) : a +:+ EmptyString = a.
Proof.
  induction a as [|x a IH]; [reflexivity|].
  rewrite append_cons, IH. reflexivity.
Qed.

Lemma HasPrefix_app (p s : string) : GoStr.HasPrefix (p +:+ s) p = true.
Proof.
  induction p as [|x p IH]; [destruct s; reflexivity|].
  rewrite append_cons. simpl. rewrite Ascii.eqb_refl. exact IH.
Qed.

Lemma Contains_of_prefix (s sub : string) :
  GoStr.HasPrefix s sub = true -> GoStr.Contains s sub = true.
Proof. intros H. destruct s; simpl in *; rewrite H; reflexivity. Qed.

Lemma Contains_app (a b c : string) : GoStr.Contains (a +:+ b +:+ c) b = true.
Proof.
  induction a as [|x a IH].
  - change (GoStr.Contains (b +:+ c) b = true).
    apply Contains_of_prefix, HasPrefix_app.
  - rewrite append_cons. simpl. rewrite IH.
    match goal with |- (if ?t then _ else _) = _ => destruct t end; reflexivity.
Qed.

End StrFacts.

(* ================================================================= *)
(** ** The PCI slot allocator *)
(* ================================================================= *)

Module PCIFacts.
Import PCI.

(** The allocator test of the repository: 0x3, then 0x4; with slot 5
    reserved, the third call skips to 0x6. *)
Example alloc_first_slots :
  exists a, AllocN 3 (newPCISlotAllocator true) = Ok (["0x3"; "0x4"; "0x5"], a).
Proof. eexists. vm_compute. reflexivity. Qed.

Example alloc_skips_reserved :
  exists a, AllocN 3 (Reserve (newPCISlotAllocator true) 5)
            = Ok (["0x3"; "0x4"; "0x6"], a).
Proof. eexists. vm_compute. reflexivity. Qed.

Lemma is_used_insert u k j :
  is_used (<[k := true]> u) j = if decide (k = j) then true else is_used u j.
Proof.
  unfold is_used. rewrite lookup_insert. destruct (decide (k = j)); reflexivity.
Qed.

Lemma new_fresh isQ35 : fresh_above (newPCISlotAllocator isQ35).
Proof.
  intros k Hk. destruct isQ35; simpl in *;
    rewrite ?is_used_insert;
    repeat (destruct (decide _); [lia|]); reflexivity.
Qed.

(** The fuel of [Alloc] never cuts the loop short: with [skip_fuel] or
    more, the outcome does not depend on the amount. *)
Lemma skip_used_enough_fuel u : forall f1 f2 n,
  (skip_fuel n <= f1)%nat -> (skip_fuel n <= f2)%nat ->
  skip_used f1 u n = skip_used f2 u n.
Proof.
  unfold skip_fuel.
  induction f1 as [|f1 IH]; intros f2 n H1 H2;
    destruct f2 as [|f2]; cbn [skip_used];
    destruct (is_used u n); try reflexivity;
    destruct (31 <? n + 1) eqn:E; try reflexivity;
    apply Z.ltb_ge in E; try lia.
  apply IH; lia.
Qed.

Lemma skip_used_free fuel u n : is_used u n = false -> skip_used fuel u n = Ok n.
Proof. intros H. destruct fuel; simpl; rewrite H; reflexivity. Qed.

(** On such an allocator the skip loop does not run: [Alloc] hands out
    [nextSlot] itself, whatever its value. *)
Lemma AllocSlot_fresh a :
  fresh_above a ->
  AllocSlot a
  = Ok (nextSlot a, mkAlloc (nextSlot a + 1) (<[nextSlot a := true]> (used a)) (bus a)).
Proof.
  intros H. unfold AllocSlot. rewrite skip_used_free; [reflexivity|].
  apply H. lia.
Qed.

Lemma fresh_after a :
  fresh_above a ->
  fresh_above (mkAlloc (nextSlot a + 1) (<[nextSlot a := true]> (used a)) (bus a)).
Proof.
  intros H k Hk. simpl in *. rewrite is_used_insert.
  destruct (decide _); [lia|]. apply H. lia.
Qed.

Lemma Alloc_fresh a :
  fresh_above a ->
  exists addr a', Alloc a = Ok (addr, a') /\ fresh_above a' /\ bus a' = bus a.
Proof.
  intros H. unfold Alloc. rewrite (AllocSlot_fresh a H).
  eexists _, _. split; [reflexivity|]. split; [apply fresh_after, H | reflexivity].
Qed.

(** [n] calls in a row return [nextSlot, nextSlot+1, ...]. *)
Lemma AllocSlots_fresh n : forall a,
  fresh_above a ->
  exists a', AllocSlots n a = Ok (map (fun i => nextSlot a + Z.of_nat i) (seq 0 n), a')
             /\ fresh_above a'.
Proof.
  induction n as [|n IH]; intros a H; simpl.
  - eexists. split; [reflexivity | exact H].
  - rewrite (AllocSlot_fresh a H).
    destruct (IH _ (fresh_after a H)) as (a' & -> & Hf). simpl.
    eexists. split; [|exact Hf]. f_equal. f_equal.
    f_equal; [f_equal; lia|].
    rewrite <- seq_shift, map_map. apply map_ext. intros i. lia.
Qed.

(** What holds of every run on a Q35 allocator: the slots are pairwise
    distinct and none is a reserved one. *)
Lemma q35_slots_distinct n ss a' :
  AllocSlots n (newPCISlotAllocator true) = Ok (ss, a') ->
  NoDup ss /\ Forall (fun s => 3 <= s) ss.
Proof.
  destruct (AllocSlots_fresh n _ (new_fresh true)) as (a'' & E & _).
  rewrite E. intros [= <- <-]. simpl. split.
  - apply NoDup_fmap_2; [intros i j; lia | apply NoDup_seq].
  - apply Forall_forall. intros s Hs.
    apply list_elem_of_In, in_map_iff in Hs. destruct Hs as (i & <- & _). lia.
Qed.

(** Up to twenty-nine calls stay on the bus: slots 3 to 31. *)
Lemma q35_slots_in_range n ss a' :
  (n <= 29)%nat ->
  AllocSlots n (newPCISlotAllocator true) = Ok (ss, a') ->
  Forall (fun s => 3 <= s <= 31) ss.
Proof.
  intros Hn.
  destruct (AllocSlots_fresh n _ (new_fresh true)) as (a'' & E & _).
  rewrite E. intros [= <- <-]. simpl.
  apply Forall_forall. intros s Hs.
  apply list_elem_of_In, in_map_iff in Hs. destruct Hs as (i & <- & Hi).
  apply in_seq in Hi. lia.
Qed.

(** C1.  Thirty [Alloc] calls on a new Q35 allocator, with no [Reserve]
    in between, all return: the thirtieth returns ["0x20"], slot 32,
    which is outside [3, 31].  The bound [nextSlot > 0x1f] is tested
    only inside the loop that skips used slots, and that loop never
    runs here. *)
Theorem C1_thirtieth_alloc_leaves_the_bus :
  exists ss a',
    AllocN 30 (newPCISlotAllocator true) = Ok (ss, a')
    /\ ss !! 29%nat = Some "0x20"
    /\ exists slots a'',
         AllocSlots 30 (newPCISlotAllocator true) = Ok (slots, a'')
         /\ slots !! 29%nat = Some 32
         /\ ~ Forall (fun s => 3 <= s <= 31) slots.
Proof.
  destruct (AllocN 30 (newPCISlotAllocator true)) as [[ss a']|m] eqn:E;
    [|vm_compute in E; discriminate].
  exists ss, a'. split; [reflexivity|].
  split; [vm_compute in E; injection E as <- _; reflexivity|].
  destruct (AllocSlots_fresh 30 _ (new_fresh true)) as (a'' & E2 & _).
  eexists _, a''. split; [exact E2|]. split; [reflexivity|].
  intros HF. rewrite Forall_lookup in HF.
  specialize (HF 29%nat 32 eq_refl). simpl in HF. lia.
Qed.

End PCIFacts.

(* ================================================================= *)
(** ** The argument composer *)
(* ================================================================= *)

Module BuilderFacts.
Import StrFacts PCI PCIFacts Json Disk Net Config Builder.

Lemma steady_ret {A} (x : A) : steady (ret x).
Proof. intros b H. exists x, b, []. rewrite app_nil_r. auto. Qed.

Lemma steady_emit l : steady (emit l).
Proof. intros b H. eexists tt, _, l. simpl. auto. Qed.

Lemma steady_bus : steady bus.
Proof. intros b H. eexists _, b, []. rewrite app_nil_r. unfold bus. auto. Qed.

Lemma steady_cfg : steady cfg.
Proof. intros b H. eexists _, b, []. rewrite app_nil_r. unfold cfg. auto. Qed.

Lemma steady_q35 : steady q35.
Proof. intros b H. eexists _, b, []. rewrite app_nil_r. unfold q35. auto. Qed.

Lemma steady_alloc : steady alloc.
Proof.
  intros b H. destruct (Alloc_fresh _ H) as (addr & a' & E & Hf & _).
  unfold alloc. rewrite E. eexists addr, _, []. simpl. rewrite app_nil_r. auto.
Qed.

Lemma steady_bind {A B} (m : M A) (f : A -> M B) :
  steady m -> (forall x, steady (f x)) -> steady (bind m f).
Proof.
  intros Hm Hf b H.
  destruct (Hm b H) as (x & b1 & l1 & E1 & F1 & C1 & A1).
  destruct (Hf x b1 F1) as (y & b2 & l2 & E2 & F2 & C2 & A2).
  exists y, b2, (l1 ++ l2). unfold bind. rewrite E1.
  split; [exact E2|]. split; [exact F2|]. split; [congruence|].
  rewrite A2, A1, app_assoc. reflexivity.
Qed.

Lemma steady_forM {A} (l : list A) (f : A -> M unit) :
  (forall x, steady (f x)) -> steady (forM_ l f).
Proof.
  intros Hf. induction l as [|x l IH]; simpl.
  - apply steady_ret.
  - apply steady_bind; [apply Hf | intros _; exact IH].
Qed.

Lemma steady_forI {A} (l : list A) (f : Z -> A -> M unit) :
  (forall i x, steady (f i x)) -> forall i, steady (forI_ i l f).
Proof.
  intros Hf. induction l as [|x l IH]; intros i; simpl.
  - apply steady_ret.
  - apply steady_bind; [apply Hf | intros _; apply IH].
Qed.

Lemma steady_with_alloc f :
  (forall a, fresh_above a ->
     exists l oa, f (Some a) = Ok (l, oa) /\ fresh_above (default a oa)) ->
  steady (with_alloc f).
Proof.
  intros Hf b H. destruct (Hf _ H) as (l & oa & E & F).
  unfold with_alloc. rewrite E. eexists tt, _, l. simpl. auto.
Qed.

Lemma buildDiskArgs_returns quote d a :
  fresh_above a ->
  exists l oa, buildDiskArgs quote d (Some a) = Ok (l, oa)
               /\ fresh_above (default a oa).
Proof.
  intros H. unfold buildDiskArgs.
  destruct d as [d|]; [|eexists _, _; split; [reflexivity | exact H]].
  destruct (Backend d) as [be|]; [|eexists _, _; split; [reflexivity | exact H]].
  destruct (throttled d);
    (destruct (_ || _);
     [ destruct (Alloc_fresh _ H) as (addr & a' & -> & Hf & _);
       eexists _, _; split; [reflexivity | exact Hf]
     | eexists _, _; split; [reflexivity | exact H] ]).
Qed.

Lemma buildNetworkArgs_returns n a :
  fresh_above a ->
  exists l oa, buildNetworkArgs n (Some a) = Ok (l, oa)
               /\ fresh_above (default a oa).
Proof.
  intros H. unfold buildNetworkArgs.
  destruct n as [n|]; [|eexists _, _; split; [reflexivity | exact H]].
  destruct (net_Backend n) as [be|]; [|eexists _, _; split; [reflexivity | exact H]].
  destruct (pci_model _).
  - destruct (Alloc_fresh _ H) as (addr & a' & -> & Hf & _).
    eexists _, _; split; [reflexivity | exact Hf].
  - eexists _, _; split; [reflexivity | exact H].
Qed.

(** A slice without [nil] is a slice of entries. *)
Lemma no_nil_map {A} (l : list (option A)) :
  no_nil l = true -> exists l', l = map Some l'.
Proof.
  induction l as [|[x|] l IH]; cbn [no_nil forallb]; intros H.
  - exists []. reflexivity.
  - destruct (IH H) as [l' ->]. exists (x :: l'). reflexivity.
  - discriminate H.
Qed.

Lemma forI_map {A B} (g : A -> B) (f : Z -> B -> M unit) (l : list A) :
  forall i, forI_ i (map g l) f = forI_ i l (fun i x => f i (g x)).
Proof.
  induction l as [|x l IH]; intros i; cbn [map forI_]; [reflexivity|].
  rewrite IH. reflexivity.
Qed.

Create HintDb steady discriminated.
#[local] Hint Resolve steady_ret steady_emit steady_bus steady_cfg steady_q35
  steady_alloc : steady.

(** Walks through a step: binds, then the tests on the configuration. *)
Ltac steady_step :=
  repeat first
    [ solve [auto with steady]
    | apply steady_bind; [|intros]
    | apply steady_forM; intros
    | apply steady_forI; intros
    | match goal with
      | |- steady (match ?x with _ => _ end) => destruct x
      end ].

Section Steps.
Variable quote : string -> string.

Lemma steady_buildMachine : steady buildMachine.
Proof. unfold buildMachine. steady_step. Qed.

Lemma steady_buildEFI : steady (buildEFI quote).
Proof. unfold buildEFI. steady_step. Qed.

Lemma steady_buildCPU : steady buildCPU.
Proof. unfold buildCPU. steady_step. Qed.

Lemma steady_buildMemory : steady buildMemory.
Proof. unfold buildMemory. steady_step. Qed.

Lemma steady_buildRTC : steady buildRTC.
Proof. unfold buildRTC. steady_step. Qed.

Lemma steady_buildBoot : steady buildBoot.
Proof. unfold buildBoot. steady_step. Qed.

Lemma steady_buildSecrets : steady buildSecrets.
Proof. unfold buildSecrets. steady_step. Qed.

Lemma steady_buildVideoDevice v : steady (buildVideoDevice v).
Proof. unfold buildVideoDevice. steady_step. Qed.

Lemma steady_buildDisplay : steady buildDisplay.
Proof.
  pose proof steady_buildVideoDevice.
  unfold buildDisplay. steady_step.
Qed.

Lemma steady_buildAudio : steady buildAudio.
Proof. unfold buildAudio. steady_step. Qed.

Lemma steady_buildControlSocket p : steady (buildControlSocket p).
Proof. unfold buildControlSocket. steady_step. Qed.

Lemma steady_buildSATAController : steady buildSATAController.
Proof. unfold buildSATAController. steady_step. Qed.

Lemma steady_buildDisks : steady (buildDisks quote).
Proof.
  unfold buildDisks. steady_step.
  apply steady_with_alloc. intros a. apply buildDiskArgs_returns.
Qed.

Lemma steady_buildCDROMs : steady buildCDROMs.
Proof. unfold buildCDROMs. steady_step. Qed.

Lemma steady_buildNetworks : steady buildNetworks.
Proof.
  unfold buildNetworks. steady_step.
  apply steady_with_alloc. intros a. apply buildNetworkArgs_returns.
Qed.

Lemma steady_buildVirtioSerial : steady buildVirtioSerial.
Proof. unfold buildVirtioSerial, virtio_port. steady_step. Qed.

(** The loop of [buildSerials] over entries none of which is [nil]. *)
Lemma steady_serial_ports (l : list SerialConfig) i :
  steady (forI_ i (map Some l) serial_port).
Proof. rewrite forI_map. unfold serial_port. steady_step. Qed.

Lemma buildSerials_returns b :
  fresh_above (pciAlloc b) -> no_nil (Serials (config b)) = true ->
  exists x b' l, buildSerials b = Ok (x, b')
                 /\ fresh_above (pciAlloc b')
                 /\ config b' = config b
                 /\ args b' = args b ++ l.
Proof.
  intros H Hn. destruct (no_nil_map _ Hn) as [l' E].
  unfold buildSerials. unfold bind at 1, cfg at 1. rewrite E.
  exact (steady_serial_ports l' 0 b H).
Qed.

Lemma steady_buildChardevs : steady buildChardevs.
Proof. unfold buildChardevs. steady_step. Qed.

(** The device loop of [buildUSB] over entries none of which is [nil]. *)
Lemma steady_usb_devices (l : list USBDeviceConfig) i :
  steady (forI_ i (map Some l) usb_device).
Proof. rewrite forI_map. unfold usb_device. steady_step. Qed.

Lemma buildUSB_returns b :
  fresh_above (pciAlloc b) -> no_nil (USBDevices (config b)) = true ->
  exists x b' l, buildUSB b = Ok (x, b')
                 /\ fresh_above (pciAlloc b')
                 /\ config b' = config b
                 /\ args b' = args b ++ l.
Proof.
  intros H Hn. destruct (no_nil_map _ Hn) as [l' E].
  assert (Hl : steady (forI_ 0 (USBDevices (config b)) usb_device)).
  { rewrite E. apply steady_usb_devices. }
  unfold buildUSB. unfold bind at 1, cfg at 1.
  revert Hl. generalize (forI_ 0 (USBDevices (config b)) usb_device).
  intros loop Hl.
  match goal with
  | |- exists x b' l, ?m b = _ /\ _ => assert (Hs : steady m)
  end.
  { destruct (USB (config b)), (USBDevices (config b)); steady_step. }
  exact (Hs b H).
Qed.

Lemma steady_buildBalloon : steady buildBalloon.
Proof. unfold buildBalloon. steady_step. Qed.

Lemma steady_buildMiscDevices : steady buildMiscDevices.
Proof. unfold buildMiscDevices. steady_step. Qed.

#[local] Hint Resolve steady_buildMachine steady_buildEFI steady_buildCPU
  steady_buildMemory steady_buildRTC steady_buildBoot steady_buildSecrets
  steady_buildDisplay steady_buildAudio steady_buildControlSocket
  steady_buildSATAController steady_buildDisks steady_buildCDROMs
  steady_buildNetworks steady_buildVirtioSerial steady_buildChardevs
  steady_buildBalloon steady_buildMiscDevices : steady.

Lemma buildHead_returns name b :
  fresh_above (pciAlloc b) ->
  exists b1, buildHead quote name b = Ok (tt, b1)
             /\ fresh_above (pciAlloc b1)
             /\ config b1 = config b.
Proof.
  intros H. unfold buildHead.
  match goal with
  | |- context [bind reset_args ?k] => assert (Hs : steady (k tt))
  end.
  { cbv beta. steady_step. }
  destruct (Hs (mkBuilder (config b) (pciAlloc b) [] (isQ35 b)) H)
    as ([] & b1 & l & E & F & C & _).
  exists b1. split; [exact E|]. split; [exact F | exact C].
Qed.

(** The tail of [Build] returns when no entry of [Serials] and
    [USBDevices] is [nil], and ends with the extra arguments. *)
Lemma buildTail_returns b :
  fresh_above (pciAlloc b) -> nil_free (config b) = true ->
  exists b' l,
    buildTail quote b = Ok (tt, b')
    /\ args b' = args b ++ l ++ ExtraArgs (config b).
Proof.
  intros H Hn. apply andb_true_iff in Hn as [Hs Hu]. unfold buildTail.
  destruct (steady_buildSATAController b H) as ([] & b1 & l1 & E1 & F1 & C1 & A1).
  destruct (steady_buildDisks b1 F1) as ([] & b2 & l2 & E2 & F2 & C2 & A2).
  destruct (steady_buildCDROMs b2 F2) as ([] & b3 & l3 & E3 & F3 & C3 & A3).
  destruct (steady_buildNetworks b3 F3) as ([] & b4 & l4 & E4 & F4 & C4 & A4).
  destruct (steady_buildVirtioSerial b4 F4) as ([] & b5 & l5 & E5 & F5 & C5 & A5).
  destruct (buildSerials_returns b5 F5) as ([] & b6 & l6 & E6 & F6 & C6 & A6);
    [rewrite C5, C4, C3, C2, C1; exact Hs|].
  destruct (steady_buildChardevs b6 F6) as ([] & b7 & l7 & E7 & F7 & C7 & A7).
  destruct (buildUSB_returns b7 F7) as ([] & b8 & l8 & E8 & F8 & C8 & A8);
    [rewrite C7, C6, C5, C4, C3, C2, C1; exact Hu|].
  destruct (steady_buildBalloon b8 F8) as ([] & b9 & l9 & E9 & F9 & C9 & A9).
  destruct (steady_buildMiscDevices b9 F9) as ([] & b10 & l10 & E10 & F10 & C10 & A10).
  eexists _, (l1 ++ l2 ++ l3 ++ l4 ++ l5 ++ l6 ++ l7 ++ l8 ++ l9 ++ l10).
  unfold bind at 1. rewrite E1. unfold bind at 1. rewrite E2.
  unfold bind at 1. rewrite E3. unfold bind at 1. rewrite E4.
  unfold bind at 1. rewrite E5. unfold bind at 1. rewrite E6.
  unfold bind at 1. rewrite E7. unfold bind at 1. rewrite E8.
  unfold bind at 1. rewrite E9. unfold bind at 1. rewrite E10.
  unfold bind, cfg, emit. split; [reflexivity|]. cbn [args].
  rewrite A10, A9, A8, A7, A6, A5, A4, A3, A2, A1.
  rewrite C10, C9, C8, C7, C6, C5, C4, C3, C2, C1.
  rewrite <- !app_assoc. reflexivity.
Qed.

(** [Build] returns on every builder whose allocator is in order and
    whose configuration has no [nil] entry to dereference, and with a
    socket path the monitor pair sits between what comes before the
    control socket and what comes after. *)
Lemma Build_shape b name socketPath :
  fresh_above (pciAlloc b) -> nil_free (config b) = true ->
  exists pre post,
    Build quote b name socketPath
    = Ok (pre ++ (if nonempty socketPath then monitor_pair socketPath else [])
              ++ post).
Proof.
  intros H Hn.
  destruct (buildHead_returns name b H) as (b1 & E1 & F1 & C1).
  destruct (steady_buildControlSocket socketPath b1 F1)
    as ([] & b2 & l2 & E2 & F2 & C2 & A2).
  destruct (buildTail_returns b2 F2) as (b3 & l3 & E3 & A3);
    [rewrite C2, C1; exact Hn|].
  exists (args b1), (l3 ++ ExtraArgs (config b2)).
  unfold Build, BuildM, bind. rewrite E1, E2, E3. f_equal.
  rewrite A3.
  assert (args b2
          = args b1 ++ (if nonempty socketPath
                        then monitor_pair socketPath else [])) as ->.
  { revert E2. unfold buildControlSocket.
    destruct (nonempty socketPath); simpl; intros [= <-]; simpl.
    - rewrite <- app_assoc. reflexivity.
    - rewrite app_nil_r. reflexivity. }
  rewrite <- app_assoc. reflexivity.
Qed.

End Steps.

(** The whole argument list of the baseline. *)
Lemma test_vm_args quote :
  Build quote (NewVMBuilder (Some test_vm)) (Name test_vm) "/tmp/t.sock"
  = Ok [ "-name"; "guest=test-vm,debug-threads=on";
         "-no-user-config"; "-nodefaults";
         "-machine"; "q35,accel=kvm";
         "-cpu"; "host"; "-m"; "2048";
         "-smp"; "4,sockets=1,cores=2,threads=2";
         "-rtc"; "base=utc,driftfix=slew";
         "-display"; "none";
         "-chardev"; "socket,id=qmp,path=/tmp/t.sock,server=on,wait=off";
         "-mon"; "chardev=qmp,id=monitor,mode=control";
         "-object"; "rng-random,id=rng0,filename=/dev/urandom";
         "-device"; "virtio-rng-pci,rng=rng0,id=rng-dev0,bus=pcie.0,addr=0x3" ].
Proof. vm_compute. reflexivity. Qed.

(** C4.  For the baseline configuration and socket [/tmp/t.sock],
    [Build] returns an argument list in which the nine options of the
    scenario occur in the order given (other options stand between
    some of them). *)
Theorem C4_baseline_argument_order : forall quote,
  exists l,
    Build quote (NewVMBuilder (Some test_vm)) (Name test_vm) "/tmp/t.sock" = Ok l
    /\ sublist
         [ "-name"; "guest=test-vm,debug-threads=on";
           "-no-user-config";
           "-nodefaults";
           "-machine"; "q35,accel=kvm";
           "-cpu"; "host";
           "-m"; "2048";
           "-smp"; "4,sockets=1,cores=2,threads=2";
           "-chardev"; "socket,id=qmp,path=/tmp/t.sock,server=on,wait=off";
           "-mon"; "chardev=qmp,id=monitor,mode=control" ]
         l.
Proof.
  intros quote. eexists. split; [apply test_vm_args|].
  repeat first [ apply sublist_nil | apply sublist_skip | apply sublist_cons ].
Qed.

(** The allocator's thirtieth slot is within reach of [Build]: with
    twenty-nine disks on the bus, the entropy device that every machine
    gets is placed at address [0x20]. *)
Example crowded_vm_rng_address :
  exists l,
    Build plainQuote (NewVMBuilder (Some crowded_vm)) "crowded" "/tmp/c.sock" = Ok l
    /\ last l = Some "virtio-rng-pci,rng=rng0,id=rng-dev0,bus=pcie.0,addr=0x20".
Proof. eexists. split; vm_compute; reflexivity. Qed.




End BuilderFacts.

(* ================================================================= *)
(** ** Disks: the two-layer block device form *)
(* ================================================================= *)

Module DiskFacts.
Import StrFacts PCI PCIFacts Json Disk.

(** Reading a Go map after an assignment. *)
Lemma mget_mset_eq k v m : mget k (mset k v m) = Some v.
Proof.
  induction m as [|[k' v'] m IH]; simpl.
  - rewrite String.eqb_refl. reflexivity.
  - destruct (String.eqb k k') eqn:E; simpl; rewrite ?String.eqb_refl, ?E; auto.
Qed.

Lemma mget_mset_ne k k' v m : k <> k' -> mget k (mset k' v m) = mget k m.
Proof.
  intros Hne. induction m as [|[k2 v2] m IH]; simpl.
  - apply String.eqb_neq in Hne. rewrite Hne. reflexivity.
  - destruct (String.eqb k' k2) eqn:E; simpl.
    + apply String.eqb_eq in E. subst k2.
      apply String.eqb_neq in Hne. rewrite Hne. reflexivity.
    + destruct (String.eqb k k2); [reflexivity | exact IH].
Qed.

Lemma mget_mset_if_ne k k' c v m : k <> k' -> mget k (mset_if c k' v m) = mget k m.
Proof. intros H. destruct c; simpl; [apply mget_mset_ne, H | reflexivity]. Qed.

Lemma add_boot_serial_suffix cfg d : exists s, add_boot_serial cfg d = d +:+ s.
Proof.
  unfold add_boot_serial.
  destruct (0 <? BootIndex cfg), (nonempty (Serial cfg)).
  - eexists. rewrite !append_assoc. reflexivity.
  - eexists. reflexivity.
  - eexists. reflexivity.
  - exists EmptyString. rewrite append_nil_r. reflexivity.
Qed.

Lemma device_line_suffix cfg (t n i s : string) :
  exists suffix,
    add_boot_serial cfg ((t +:+ ",drive=" +:+ n +:+ ",id=" +:+ i +:+ "-device") +:+ s)
    = t +:+ ",drive=" +:+ n +:+ ",id=" +:+ i +:+ "-device" +:+ suffix.
Proof.
  destruct (add_boot_serial_suffix cfg
              ((t +:+ ",drive=" +:+ n +:+ ",id=" +:+ i +:+ "-device") +:+ s)) as (x & ->).
  exists (s +:+ x). rewrite !append_assoc. reflexivity.
Qed.

(** What [buildDiskArgs] returns: an optional throttle group, the
    back-end's own block devices, an optional throttle layer, and the
    device line; without throttle, the device line names the node the
    back-end type decides. *)
Lemma buildDiskArgs_shape quote d be oa :
  Backend d = Some be ->
  alloc_ok oa ->
  exists grp thr dev oa',
    buildDiskArgs quote (Some d) oa
    = Ok (grp ++ AnyBuildBlockdevArgs be (disk_id d) ++ thr ++ ["-device"; dev], oa')
    /\ (throttled d = false ->
        grp = [] /\ thr = []
        /\ exists devType suffix,
             dev = devType +:+ ",drive="
                   +:+ (if String.eqb (AnyType be) "iscsi"
                        then disk_id d +:+ "-iscsi" else disk_id d +:+ "-format")
                   +:+ ",id=" +:+ disk_id d +:+ "-device" +:+ suffix).
Proof.
  intros Hbe Hoa. unfold buildDiskArgs. rewrite Hbe.
  set (id := disk_id d).
  set (iface := if nonempty (Interface d) then Interface d else "virtio").
  set (node0 := if String.eqb (AnyType be) "iscsi" then id +:+ "-iscsi" else id +:+ "-format").
  cbv zeta.
  destruct (throttled d) eqn:T.
  - (* throttled: the shape only *)
    destruct oa as [a|];
      [destruct (String.eqb iface "virtio" || String.eqb iface "nvme");
       [destruct (Alloc_fresh a (Hoa a eq_refl)) as (addr & a' & -> & _)|]|];
      eexists (BuildThrottleGroupArgs (Throttle d)),
              (BuildThrottleBlockdevArgs quote (Throttle d) (id +:+ "-throttle") node0),
              _, _;
      (split; [rewrite <- !app_assoc; reflexivity | discriminate]).
  - destruct oa as [a|];
      [destruct (String.eqb iface "virtio" || String.eqb iface "nvme");
       [destruct (Alloc_fresh a (Hoa a eq_refl)) as (addr & a' & -> & _)|]|].
    + destruct (device_line_suffix d (deviceType_of iface) node0 id
                  (",bus=" +:+ Bus a +:+ ",addr=" +:+ addr)) as (sfx & E).
      eexists [], [], _, _. split; [reflexivity|]. intros _.
      split; [reflexivity|]. split; [reflexivity|].
      exists (deviceType_of iface), sfx. exact E.
    + destruct (add_boot_serial_suffix d
                  (deviceType_of iface +:+ ",drive=" +:+ node0 +:+ ",id=" +:+ id +:+ "-device"))
        as (sfx & E).
      eexists [], [], _, _. split; [reflexivity|]. intros _.
      split; [reflexivity|]. split; [reflexivity|].
      exists (deviceType_of iface), sfx. rewrite E, !append_assoc. reflexivity.
    + destruct (add_boot_serial_suffix d
                  (deviceType_of iface +:+ ",drive=" +:+ node0 +:+ ",id=" +:+ id +:+ "-device"))
        as (sfx & E).
      eexists [], [], _, _. split; [reflexivity|]. intros _.
      split; [reflexivity|]. split; [reflexivity|].
      exists (deviceType_of iface), sfx. rewrite E, !append_assoc. reflexivity.
Qed.

Lemma emits_node_in quote grp bd thr dev o :
  (exists pre post, bd = pre ++ ["-blockdev"; Marshal quote o] ++ post) ->
  emits_node quote (grp ++ bd ++ thr ++ ["-device"; dev]) o.
Proof.
  intros (pre & post & ->).
  exists (grp ++ pre), (post ++ thr ++ ["-device"; dev]).
  rewrite <- !app_assoc. reflexivity.
Qed.

Lemma field_node_name_file f id :
  field "node-name" (file_fileOpts f id) = Some (JStr (id +:+ "-file")).
Proof. unfold file_fileOpts. destruct (file_AutoReadOnly f); reflexivity. Qed.

Lemma field_driver_file f id :
  field "driver" (file_fileOpts f id) = Some (JStr "file").
Proof. unfold file_fileOpts. destruct (file_AutoReadOnly f); reflexivity. Qed.

Ltac first_layer_field :=
  cbn [field];
  repeat first [ rewrite mget_mset_eq; reflexivity
               | rewrite mget_mset_ne by discriminate
               | rewrite mget_mset_if_ne by discriminate ].

Lemma field_nbd n id :
  field "node-name" (nbd_nbdOpts n id) = Some (JStr (id +:+ "-nbd"))
  /\ field "driver" (nbd_nbdOpts n id) = Some (JStr "nbd").
Proof.
  unfold nbd_nbdOpts. destruct (nbd_server n); split; first_layer_field.
Qed.

Lemma field_rbd r id :
  field "node-name" (rbd_rbdOpts r id) = Some (JStr (id +:+ "-rbd"))
  /\ field "driver" (rbd_rbdOpts r id) = Some (JStr "rbd").
Proof. unfold rbd_rbdOpts. split; first_layer_field. Qed.

Lemma field_iscsi i id :
  field "node-name" (iscsi_iscsiOpts i id) = Some (JStr (id +:+ "-iscsi"))
  /\ field "driver" (iscsi_iscsiOpts i id) = Some (JStr "iscsi").
Proof. unfold iscsi_iscsiOpts. split; first_layer_field. Qed.

(** Keys come out in byte order, as [json.Marshal] writes a map. *)
Example marshal_format_layer :
  Marshal plainQuote (file_formatOpts qcow_file "disk0")
  = "{" +:+ plainQuote "driver" +:+ ":" +:+ plainQuote "qcow2"
    +:+ "," +:+ plainQuote "file" +:+ ":" +:+ plainQuote "disk0-file"
    +:+ "," +:+ plainQuote "node-name" +:+ ":" +:+ plainQuote "disk0-format"
    +:+ "}".
Proof. reflexivity. Qed.

(** C5, as stated, fails for the iSCSI back-end: the only block device
    emitted is the back-end node, there is no format layer, and the
    device line names [d0-iscsi], not [d0-format]. *)
Lemma C5_iscsi_has_no_format_layer :
  exists args oa,
    buildDiskArgs plainQuote (Some iscsi_disk) (Some (newPCISlotAllocator true))
    = Ok (args, oa)
    /\ length (filter (fun s => bool_decide (s = "-blockdev")) args) = 1%nat
    /\ last args
       = Some "virtio-blk-pci,drive=d0-iscsi,id=d0-device,bus=pcie.0,addr=0x3"
    /\ ~ device_refs args "d0-format" "d0".
Proof.
  eexists _, _. split; [vm_compute; reflexivity|].
  split; [reflexivity|]. split; [reflexivity|].
  intros (pre & devType & suffix & E).
  apply (f_equal last) in E.
  rewrite last_app in E. cbn [last] in E.
  injection E as E.
  pose proof (Contains_app devType ",drive=d0-format,id=d0-device" suffix) as C.
  change (devType +:+ ",drive=d0-format,id=d0-device" +:+ suffix)
    with (devType +:+ ",drive=" +:+ "d0-format" +:+ ",id=" +:+ "d0" +:+ "-device"
          +:+ suffix) in C.
  rewrite <- E in C. vm_compute in C. discriminate C.
Qed.

(** C5, amended.  For every disk whose back-end is file, nbd, rbd or
    iscsi, [buildDiskArgs] returns arguments that contain the back-end
    block device, named [<id>-<backend>].  For file, nbd and rbd they
    also contain a format block device named [<id>-format], whose [file]
    is the back-end node and whose driver is the configured format of a
    file back-end and [raw] otherwise; without a throttle layer the
    device line has [drive=<id>-format].  For iscsi there is no format
    layer: without a throttle layer the arguments are that one block
    device and a device line with [drive=<id>-iscsi]. *)
Theorem C5_block_device_layers :
  forall quote (d : DiskConfig) (k : KnownBackend) (oa : option pciSlotAllocator),
    Backend d = Some (pack quote k) ->
    alloc_ok oa ->
    exists args oa',
      buildDiskArgs quote (Some d) oa = Ok (args, oa')
      /\ (exists o, emits_node quote args o
                    /\ field "node-name" o
                       = Some (JStr (disk_id d +:+ "-" +:+ backend_name k))
                    /\ field "driver" o = Some (JStr (backend_name k)))
      /\ match k with
         | KISCSI i =>
             throttled d = false ->
             device_refs args (disk_id d +:+ "-iscsi") (disk_id d)
             /\ exists dev,
                  args = ["-blockdev"; Marshal quote (iscsi_iscsiOpts i (disk_id d));
                          "-device"; dev]
         | _ =>
             (exists o, emits_node quote args o
                        /\ field "node-name" o = Some (JStr (disk_id d +:+ "-format"))
                        /\ field "file" o
                           = Some (JStr (disk_id d +:+ "-" +:+ backend_name k))
                        /\ field "driver" o = Some (JStr (format_of k)))
             /\ (throttled d = false ->
                 device_refs args (disk_id d +:+ "-format") (disk_id d))
         end.
Proof.
  intros quote d k oa Hbe Hoa.
  destruct (buildDiskArgs_shape quote d _ oa Hbe Hoa)
    as (grp & thr & dev & oa' & E & Hdev).
  eexists _, oa'. split; [exact E|].
  set (id := disk_id d) in *.
  assert (Href : forall node,
             (if String.eqb (AnyType (pack quote k)) "iscsi"
              then id +:+ "-iscsi" else id +:+ "-format") = node ->
             throttled d = false ->
             device_refs (grp ++ AnyBuildBlockdevArgs (pack quote k) id
                              ++ thr ++ ["-device"; dev]) node id).
  { intros node <- T. destruct (Hdev T) as (-> & -> & devType & sfx & ->).
    exists (AnyBuildBlockdevArgs (pack quote k) id), devType, sfx.
    rewrite app_nil_l, app_nil_l. reflexivity. }
  destruct k as [f|n|r|i]; cbn [pack backend_name format_of] in *.
  - split; [|split].
    + exists (file_fileOpts f id). split; [|split].
      * apply emits_node_in. exists [], ["-blockdev"; Marshal quote (file_formatOpts f id)].
        reflexivity.
      * apply field_node_name_file.
      * apply field_driver_file.
    + exists (file_formatOpts f id). split; [|split; [|split]]; try reflexivity.
      apply emits_node_in. exists ["-blockdev"; Marshal quote (file_fileOpts f id)], [].
      reflexivity.
    + apply Href. reflexivity.
  - split; [|split].
    + exists (nbd_nbdOpts n id). split; [|apply field_nbd].
      apply emits_node_in. eexists [], [_; _]. reflexivity.
    + exists (raw_formatOpts (id +:+ "-nbd") (id +:+ "-format")).
      split; [|split; [|split]]; try reflexivity.
      apply emits_node_in. eexists [_; _], []. reflexivity.
    + apply Href. reflexivity.
  - split; [|split].
    + exists (rbd_rbdOpts r id). split; [|apply field_rbd].
      apply emits_node_in. eexists [], [_; _]. reflexivity.
    + exists (raw_formatOpts (id +:+ "-rbd") (id +:+ "-format")).
      split; [|split; [|split]]; try reflexivity.
      apply emits_node_in. eexists [_; _], []. reflexivity.
    + apply Href. reflexivity.
  - split.
    + exists (iscsi_iscsiOpts i id). split; [|apply field_iscsi].
      apply emits_node_in. eexists [], []. reflexivity.
    + intros T. split; [apply Href; [reflexivity | exact T]|].
      destruct (Hdev T) as (-> & -> & _). exists dev. reflexivity.
Qed.

(** The qcow2 disk of the builder test on a new Q35 allocator. *)
Lemma C5_block_device_layers_witness :
  exists args oa',
    buildDiskArgs plainQuote (Some qcow_disk) (Some (newPCISlotAllocator true))
    = Ok (args, oa')
    /\ (exists o, emits_node plainQuote args o
                  /\ field "node-name" o = Some (JStr "disk0-file")
                  /\ field "driver" o = Some (JStr "file"))
    /\ (exists o, emits_node plainQuote args o
                  /\ field "node-name" o = Some (JStr "disk0-format")
                  /\ field "file" o = Some (JStr "disk0-file")
                  /\ field "driver" o = Some (JStr "qcow2"))
       /\ (false = false -> device_refs args "disk0-format" "disk0").
Proof.
  refine (C5_block_device_layers plainQuote qcow_disk (KFile qcow_file)
            (Some (newPCISlotAllocator true)) _ _).
  - reflexivity.
  - intros a [= <-]. exact (new_fresh true).
Defined.

End DiskFacts.

(* ================================================================= *)
(** ** The greeting read *)
(* ================================================================= *)

Module QmpFacts.
Import StrFacts Qmp.

(** The loop stops at the first newline: what it gathered is what
    arrived up to there, and the connection is left just behind it. *)
Lemma readLine_stops_at_newline pre : forall rest buf,
  quiet pre = true ->
  readLine (pre ++ RData newline :: rest) buf
  = (inl (buf +:+ incoming pre +:+ nl), rest).
Proof.
  induction pre as [|r pre IH]; intros rest buf Hq.
  - reflexivity.
  - destruct r as [c| |e]; simpl in Hq; [| |discriminate].
    + apply andb_true_iff in Hq. destruct Hq as [Hc Hq].
      apply negb_true_iff in Hc.
      simpl. rewrite Hc, (IH rest _ Hq).
      rewrite append_assoc. reflexivity.
    + simpl. apply IH, Hq.
Qed.

Lemma ReadBytes_first_line line : forall more,
  has_newline line = false ->
  ReadBytes (line +:+ String newline more) = Some (line +:+ nl, more).
Proof.
  induction line as [|c line IH]; intros more H.
  - reflexivity.
  - simpl in H. apply orb_false_iff in H. destruct H as [Hc H].
    rewrite !append_cons. simpl. rewrite Hc, (IH more H). reflexivity.
Qed.

(** C3.  Let the connection deliver a first line (bytes without newline,
    possibly between empty reads, then a newline) and then anything.
    [readGreeting] gathers exactly that line and leaves the connection
    exactly behind the newline: no later byte is consumed.  So when a
    reply line follows the greeting at once, the first [ReadBytes] of the
    event loop returns that reply line in full. *)
Theorem C3_greeting_reads_exactly_one_line :
  forall (decodes : string -> bool) (pre rest : Conn) (reply more : string),
    quiet pre = true ->
    has_newline reply = false ->
    incoming rest = reply +:+ String newline more ->
    let conn := pre ++ RData newline :: rest in
    readLine conn EmptyString = (inl (incoming pre +:+ nl), rest)
    /\ snd (readGreeting decodes conn) = rest
    /\ (decodes (incoming pre +:+ nl) = true ->
        readGreeting decodes conn = (None, rest)
        /\ firstLoopRead decodes conn = Some (Some (reply +:+ nl, more))).
Proof.
  intros decodes pre rest reply more Hq Hr Hin conn.
  assert (E : readLine conn EmptyString = (inl (incoming pre +:+ nl), rest)).
  { unfold conn. rewrite (readLine_stops_at_newline pre rest EmptyString Hq).
    reflexivity. }
  split; [exact E|]. unfold firstLoopRead, readGreeting. rewrite E.
  split; [destruct (decodes _); reflexivity|].
  intros ->. split; [reflexivity|].
  rewrite Hin, (ReadBytes_first_line reply more Hr). reflexivity.
Qed.

(** Greeting and reply arriving back to back. *)
Lemma C3_greeting_reads_exactly_one_line_witness :
  readGreeting (fun _ => true)
    (arriving greeting_line ++ RData newline :: arriving (reply_line +:+ nl))
  = (None, arriving (reply_line +:+ nl))
  /\ firstLoopRead (fun _ => true)
       (arriving greeting_line ++ RData newline :: arriving (reply_line +:+ nl))
     = Some (Some (reply_line +:+ nl, EmptyString)).
Proof.
  refine (proj2 (proj2
    (C3_greeting_reads_exactly_one_line (fun _ => true)
       (arriving greeting_line) (arriving (reply_line +:+ nl))
       reply_line EmptyString _ _ _)) _); reflexivity.
Defined.

End QmpFacts.

(* ================================================================= *)
(** ** The instance lifecycle *)
(* ================================================================= *)

Module InstFacts.
Import Disk Inst.

(** C10.  After [setState s] the state reads [s].  The callback runs in
    that call exactly when [s] differs from the state held before and a
    callback is set; it is then called once, with [s], and a [State()]
    read made while it runs returns [s], the field being written
    before.  Nothing else in the world changes. *)
Theorem C10_setState_then_callback :
  forall (s : State) (w : World),
    State_ (setState s w) = s
    /\ trace (setState s w)
       = trace w ++ (if bool_decide (State_ w <> s) && onStateChange (inst w)
                     then [Callback s s] else [])
    /\ ((exists seen, In (Callback s seen) (skipn (length (trace w)) (trace (setState s w))))
        <-> (State_ w <> s /\ onStateChange (inst w) = true))
    /\ transports (setState s w) = transports w
    /\ files (setState s w) = files w.
Proof.
  intros s w. unfold setState, State_. cbn [inst with_inst state onStateChange].
  destruct (bool_decide (state (inst w) <> s)) eqn:D;
    destruct (onStateChange (inst w)) eqn:C; cbn [andb];
    (split; [reflexivity|]); (split; [try reflexivity; symmetry; apply app_nil_r|]);
    (split; [|split; reflexivity]);
    cbn [trace log with_inst]; rewrite ?skipn_app, ?skipn_all, ?Nat.sub_diag; simpl.
  - split; [|eauto].
    intros _. apply bool_decide_eq_true in D. auto.
  - split; [intros (? & []) | intros (_ & ?); discriminate].
  - split; [intros (? & []) |].
    apply bool_decide_eq_false in D. intros (? & _). contradiction.
  - split; [intros (? & []) | intros (_ & ?); discriminate].
Qed.

(** A running instance with a callback is told to shut down. *)
Lemma C10_setState_then_callback_witness :
  State_ (setState StateShutdown (world_of spawned_vm)) = StateShutdown
  /\ trace (setState StateShutdown (world_of spawned_vm))
     = [Callback StateShutdown StateShutdown].
Proof.
  split.
  - exact (proj1 (C10_setState_then_callback StateShutdown (world_of spawned_vm))).
  - exact (proj1 (proj2 (C10_setState_then_callback StateShutdown (world_of spawned_vm)))).
Defined.

(** The instance after [cleanup]: no transport, state [Shutdown], the
    other fields as they were. *)
Ltac cleanup_cases w :=
  destruct w as [[nm p pr path q st cb] tr fs t];
  unfold cleanup, os_Remove, setState, Close, State_, with_inst, log;
  cbn [inst qmp state onStateChange socketPath transports files trace];
  destruct q as [r|];
  [ destruct (tr !! r) as [[[c|]]|] | ];
  cbn [inst qmp state onStateChange socketPath transports files trace];
  destruct (bool_decide (st <> StateShutdown) && cb);
  cbn [inst qmp state onStateChange socketPath transports files trace];
  destruct (nonempty path).

Lemma cleanup_inst w :
  inst (cleanup w)
  = mkInstance (name (inst w)) (pid (inst w)) (process (inst w))
               (socketPath (inst w)) None StateShutdown (onStateChange (inst w)).
Proof. cleanup_cases w; reflexivity. Qed.

(** The files after [cleanup]: the socket file is gone. *)
Lemma cleanup_files w :
  files (cleanup w)
  = if nonempty (socketPath (inst w))
    then files w ∖ {[ socketPath (inst w) ]} else files w.
Proof. cleanup_cases w; reflexivity. Qed.

(** [cleanup] on an instance without transport that is already shut
    down: at most the removal of the socket file is repeated. *)
Lemma cleanup_when_clean w :
  qmp (inst w) = None ->
  state (inst w) = StateShutdown ->
  cleanup w = if nonempty (socketPath (inst w))
              then os_Remove (socketPath (inst w)) w else w.
Proof.
  intros Hq Hs. unfold cleanup. rewrite Hq.
  assert (E : setState StateShutdown w = w).
  { unfold setState. rewrite Hs.
    rewrite bool_decide_eq_false_2 by (intros H; apply H; reflexivity).
    cbn [andb]. unfold with_inst. destruct w as [[nm p pr path q st cb] tr fs t].
    cbn in *. subst. reflexivity. }
  rewrite E. reflexivity.
Qed.

(** C9.  [cleanup] twice is [cleanup] once: after the first call the
    transport field is nil, the state is [Shutdown] and the socket file
    is absent; the second call leaves the instance, the transports and
    the files as they are and fires no callback.  (It repeats
    [os.Remove] on the socket path, which finds nothing to remove.) *)
Theorem C9_cleanup_idempotent :
  forall (w : World),
    let w1 := cleanup w in
    let w2 := cleanup w1 in
    qmp (inst w1) = None
    /\ State_ w1 = StateShutdown
    /\ (socketPath (inst w1) <> EmptyString -> socketPath (inst w1) ∉ files w1)
    /\ inst w2 = inst w1
    /\ transports w2 = transports w1
    /\ files w2 = files w1
    /\ callbacks (trace w2) = callbacks (trace w1)
    /\ (trace w2 = trace w1 \/ trace w2 = trace w1 ++ [Remove (socketPath (inst w1))]).
Proof.
  intros w w1 w2.
  assert (Hq : qmp (inst w1) = None) by (unfold w1; rewrite cleanup_inst; reflexivity).
  assert (Hs : state (inst w1) = StateShutdown)
    by (unfold w1; rewrite cleanup_inst; reflexivity).
  assert (Hp : socketPath (inst w1) = socketPath (inst w))
    by (unfold w1; rewrite cleanup_inst; reflexivity).
  assert (Hf : socketPath (inst w1) <> EmptyString -> socketPath (inst w1) ∉ files w1).
  { intros Hne. unfold w1 at 2. rewrite cleanup_files, <- Hp.
    apply StrFacts.nonempty_true in Hne. rewrite Hne.
    intros H. apply elem_of_difference in H. destruct H as [_ H].
    apply H, elem_of_singleton. reflexivity. }
  split; [exact Hq|]. split; [exact Hs|]. split; [exact Hf|].
  unfold w2. rewrite (cleanup_when_clean w1 Hq Hs).
  destruct (nonempty (socketPath (inst w1))) eqn:N.
  - unfold os_Remove, log. cbn [inst transports files trace].
    split; [reflexivity|]. split; [reflexivity|]. split.
    + apply StrFacts.nonempty_true in N. specialize (Hf N).
      apply set_eq. intros x. rewrite elem_of_difference, elem_of_singleton.
      split; [intros [H _]; exact H|].
      intros H. split; [exact H|]. intros ->. contradiction.
    + split; [|right; reflexivity].
      unfold callbacks. rewrite List.filter_app. simpl. apply app_nil_r.
  - repeat split; try reflexivity. left. reflexivity.
Qed.

(** Two cleanups of a running, spawned instance. *)
Lemma C9_cleanup_idempotent_witness :
  inst (cleanup (cleanup (world_of spawned_vm))) = inst (cleanup (world_of spawned_vm))
  /\ callbacks (trace (cleanup (cleanup (world_of spawned_vm))))
     = callbacks (trace (cleanup (world_of spawned_vm)))
  /\ (socketPath (inst (cleanup (world_of spawned_vm))) <> EmptyString ->
      socketPath (inst (cleanup (world_of spawned_vm)))
      ∉ files (cleanup (world_of spawned_vm))).
Proof.
  pose proof (C9_cleanup_idempotent (world_of spawned_vm)) as H.
  cbv zeta in H.
  destruct H as (_ & _ & Hf & Hi & _ & _ & Hc & _).
  exact (conj Hi (conj Hc Hf)).
Defined.

(** [cleanup] only adds to the trace: what was sent before stays first. *)
Lemma cleanup_extends_trace w : exists l, trace (cleanup w) = trace w ++ l.
Proof.
  cleanup_cases w; rewrite <- ?app_assoc; eexists; try reflexivity;
    symmetry; apply app_nil_r.
Qed.

(** With a transport, [Quit] sends [quit] and returns [nil], whatever
    comes back. *)
Lemma Quit_returns_nil out w r :
  qmp (inst w) = Some r ->
  snd (Quit out w) = None
  /\ exists l, trace (fst (Quit out w)) = trace w ++ Execute r "quit" :: l.
Proof.
  intros Hq. unfold Quit. rewrite Hq. destruct out as [payload|err]; cbn [fst snd].
  - split; [reflexivity|].
    destruct (cleanup_extends_trace (log (Execute r "quit") w)) as (l & ->).
    exists l. cbn [log trace]. rewrite <- app_assoc. reflexivity.
  - split; [reflexivity|]. exists []. reflexivity.
Qed.

(** When [quit] is answered, [cleanup] follows. *)
Lemma Quit_answered_cleans_up payload w r :
  qmp (inst w) = Some r ->
  Quit (Returned payload) w = (cleanup (log (Execute r "quit") w), None).
Proof. intros Hq. unfold Quit. rewrite Hq. reflexivity. Qed.

(** C6.  On a spawned, running instance whose [quit] comes back with an
    error (the connection closed before the reply), [Quit] returns [nil]
    and stops there: the transport field still points to the transport,
    its connection is not closed, the state is still [Running], the
    socket file is still on disk.  Only the answered path reaches
    [cleanup]. *)
Theorem C6_quit_error_path_skips_cleanup :
  let w := world_of spawned_vm in
  let w' := fst (Quit (Failed "QMP connection closed") w) in
  snd (Quit (Failed "QMP connection closed") w) = None
  /\ trace w' = [Execute 0%nat "quit"]
  /\ qmp (inst w') = Some 0%nat
  /\ transports w' !! 0%nat = Some {| conn := Some 7%nat |}
  /\ State_ w' = StateRunning
  /\ "/run/vm.sock" ∈ files w'
  /\ w' <> cleanup w'.
Proof.
  cbv zeta. unfold Quit, world_of, spawned_vm.
  cbn [inst qmp fst snd log trace transports files State_ state socketPath app].
  split; [reflexivity|]. split; [reflexivity|]. split; [reflexivity|].
  split; [reflexivity|]. split; [reflexivity|]. split.
  - apply elem_of_singleton. reflexivity.
  - intros E. apply (f_equal (fun x => qmp (inst x))) in E.
    rewrite cleanup_inst in E. discriminate E.
Qed.

(** What [AttachByPIDContext] stores for the process. *)
Lemma AttachByPID_process ArgsOf AttachContext FindProcess p i :
  AttachByPIDContext ArgsOf AttachContext FindProcess p = inl i ->
  pid i = p
  /\ (forall h, FindProcess p = Some h -> process i = Some h)
  /\ (FindProcess p = None ->
      exists args i0, ArgsOf p = Some args
                      /\ AttachContext (findSocketFromArgs args) = Some i0
                      /\ process i = process i0).
Proof.
  unfold AttachByPIDContext. destruct (ArgsOf p) as [args|]; [|discriminate].
  destruct (negb _); [discriminate|].
  destruct (AttachContext _) as [i0|] eqn:Ea; [|discriminate].
  intros [= <-]. cbn [pid process]. split; [reflexivity|]. split.
  - intros h ->. reflexivity.
  - intros ->. eauto.
Qed.

(** C2, as stated, fails for an attached instance: the instance that
    [AttachByPIDContext 4242] returns on a Unix system carries a process
    handle, and [ForceStop] signals the group [-4242] before the
    process. *)
Lemma C2_attached_instance_gets_group_signal :
  exists i,
    attach_4242 = inl i
    /\ process i = Some {| Pid := 4242 |}
    /\ signals (trace (ForceStop (world_of i)))
       = [Kill (-4242) SIGKILL; ProcessKill 4242]
    /\ signals (trace (ForceStop (world_of i))) <> [Kill 4242 SIGKILL].
Proof.
  eexists. split; [vm_compute; reflexivity|].
  split; [reflexivity|]. split; [vm_compute; reflexivity|].
  vm_compute. discriminate.
Qed.

(** C2, amended.  [ForceStop] chooses by the process handle, not by how
    the instance came to be.  With a handle it sends SIGKILL to the
    process group ([-Pid]) and kills the process: that is every spawned
    instance, and every instance attached by pid for which the handle
    lookup succeeded.  Without a handle and with a positive pid it sends
    SIGKILL to the pid alone; otherwise it sends nothing.  In each case
    [cleanup] follows the signals. *)
Theorem C2_force_stop_by_process_handle :
  forall (w : World),
    (forall h, process (inst w) = Some h ->
       ForceStop w = cleanup (log (ProcessKill (Pid h)) (log (Kill (- Pid h) SIGKILL) w)))
    /\ (process (inst w) = None -> 0 < pid (inst w) ->
        ForceStop w = cleanup (log (Kill (pid (inst w)) SIGKILL) w))
    /\ (process (inst w) = None -> pid (inst w) <= 0 -> ForceStop w = cleanup w)
    /\ (forall nm proc path q, inst w = started nm proc path q ->
        exists l, trace (ForceStop w)
                  = trace w ++ [Kill (- Pid proc) SIGKILL; ProcessKill (Pid proc)] ++ l)
    /\ (forall ArgsOf AttachContext FindProcess p h,
        AttachByPIDContext ArgsOf AttachContext FindProcess p = inl (inst w) ->
        FindProcess p = Some h ->
        exists l, trace (ForceStop w)
                  = trace w ++ [Kill (- Pid h) SIGKILL; ProcessKill (Pid h)] ++ l).
Proof.
  intros w.
  assert (A : forall h, process (inst w) = Some h ->
            ForceStop w
            = cleanup (log (ProcessKill (Pid h)) (log (Kill (- Pid h) SIGKILL) w))).
  { intros h Hh. unfold ForceStop. rewrite Hh. reflexivity. }
  assert (T : forall h, process (inst w) = Some h ->
            exists l, trace (ForceStop w)
                      = trace w ++ [Kill (- Pid h) SIGKILL; ProcessKill (Pid h)] ++ l).
  { intros h Hh. rewrite (A h Hh).
    destruct (cleanup_extends_trace
                (log (ProcessKill (Pid h)) (log (Kill (- Pid h) SIGKILL) w))) as (l & ->).
    exists l. cbn [log trace]. rewrite <- !app_assoc. reflexivity. }
  split; [exact A|]. split; [|split; [|split]].
  - intros Hn Hp. unfold ForceStop. rewrite Hn.
    apply Z.ltb_lt in Hp. rewrite Hp. reflexivity.
  - intros Hn Hp. unfold ForceStop. rewrite Hn.
    apply Z.ltb_ge in Hp. rewrite Hp. reflexivity.
  - intros nm proc path q E. apply T. rewrite E. reflexivity.
  - intros ArgsOf AttachContext FindProcess p h E Hf. apply T.
    destruct (AttachByPID_process _ _ _ _ _ E) as (_ & Hh & _). exact (Hh h Hf).
Qed.

(** A spawned instance, and one attached by socket (no handle, no pid). *)
Lemma C2_force_stop_by_process_handle_witness :
  ForceStop (world_of spawned_vm)
  = cleanup (log (ProcessKill 4242) (log (Kill (-4242) SIGKILL) (world_of spawned_vm)))
  /\ ForceStop (world_of (attached "mon" "/run/qemu/mon.sock" 0%nat))
     = cleanup (world_of (attached "mon" "/run/qemu/mon.sock" 0%nat)).
Proof.
  split.
  - exact (proj1 (C2_force_stop_by_process_handle (world_of spawned_vm))
             {| Pid := 4242 |} eq_refl).
  - refine (proj1 (proj2 (proj2 (C2_force_stop_by_process_handle
             (world_of (attached "mon" "/run/qemu/mon.sock" 0%nat))))) eq_refl _).
    cbn. discriminate.
Defined.

(** The inner loop of [findSocketFromArgs], read as a whole: the flag
    is raised by any monitor id, the path is the last [path=] value. *)
Lemma scan_parts_spec parts : forall m p,
  fold_left scan_part parts (m, p)
  = (m || existsb monitor_id parts, default p (last_path parts)).
Proof.
  induction parts as [|part parts IH]; intros m p; cbn [fold_left existsb last_path].
  - rewrite orb_false_r. reflexivity.
  - unfold scan_part at 2. rewrite IH. unfold monitor_id at 2. f_equal.
    + set (c := GoStr.Contains (GoStr.drop 3 part) "monitor"
                || GoStr.Contains (GoStr.drop 3 part) "qmp").
      destruct (GoStr.HasPrefix part "id="), c, m, (existsb monitor_id parts);
        reflexivity.
    + destruct (GoStr.HasPrefix part "path="), (last_path parts); reflexivity.
Qed.

Lemma scan_chardev_spec v :
  scan_chardev v = (existsb monitor_id (fields v), path_value v).
Proof. unfold scan_chardev, path_value, fields. apply scan_parts_spec. Qed.

(** The outer loop: the first accepted chardev value decides. *)
Lemma findSocketFromArgs_first args :
  findSocketFromArgs args = first_path monitor_socket_with_path args.
Proof.
  induction args as [|a rest IH]; [reflexivity|].
  destruct rest as [|v rest]; [reflexivity|].
  change (findSocketFromArgs (a :: v :: rest))
    with (if String.eqb a "-chardev" && GoStr.HasPrefix v "socket," then
            let '(isMonitor, socketPath) := scan_chardev v in
            if nonempty socketPath && isMonitor then socketPath
            else findSocketFromArgs (v :: rest)
          else findSocketFromArgs (v :: rest)).
  rewrite scan_chardev_spec, IH. unfold first_path.
  change (chardev_values (a :: v :: rest))
    with (if String.eqb a "-chardev" then v :: chardev_values (v :: rest)
          else chardev_values (v :: rest)).
  destruct (String.eqb a "-chardev"); cbn [andb]; [|reflexivity].
  cbn [List.find].
  assert (Hm : monitor_socket_with_path v
               = GoStr.HasPrefix v "socket," && existsb monitor_id (fields v)
                 && nonempty (path_value v)) by reflexivity.
  rewrite Hm.
  destruct (GoStr.HasPrefix v "socket,"); cbn [andb]; [|reflexivity].
  destruct (existsb monitor_id (fields v)), (nonempty (path_value v));
    reflexivity.
Qed.

(** The values [chardev_values] lists are those at [i+1] for an index
    [i] that holds [-chardev]. *)
Lemma chardev_values_index args v :
  In v (chardev_values args)
  <-> exists i : nat, args !! i = Some "-chardev" /\ args !! S i = Some v.
Proof.
  induction args as [|a rest IH]; [split; [intros [] | intros (i & H & _); destruct i; discriminate]|].
  destruct rest as [|v' rest].
  - split; [intros []|]. intros (i & _ & H). destruct i; discriminate.
  - change (chardev_values (a :: v' :: rest))
      with (if String.eqb a "-chardev" then v' :: chardev_values (v' :: rest)
            else chardev_values (v' :: rest)).
    destruct (String.eqb a "-chardev") eqn:Ea.
    + apply String.eqb_eq in Ea. subst a. split.
      * intros [<- | H]; [exists 0%nat; split; reflexivity|].
        apply IH in H. destruct H as (i & H1 & H2). exists (S i). auto.
      * intros (i & H1 & H2). destruct i as [|i].
        -- left. cbn in H2. congruence.
        -- right. apply IH. exists i. auto.
    + apply String.eqb_neq in Ea. rewrite IH. split.
      * intros (i & H1 & H2). exists (S i). auto.
      * intros (i & H1 & H2). destruct i as [|i]; [cbn in H1; congruence|].
        exists i. auto.
Qed.

Lemma find_none_of_all_false {A} (sel : A -> bool) l :
  (forall x, In x l -> sel x = false) -> List.find sel l = None.
Proof.
  induction l as [|x l IH]; intros H; [reflexivity|].
  cbn [List.find]. rewrite (H x (or_introl eq_refl)).
  apply IH. intros y Hy. apply H. right. exact Hy.
Qed.

(** C8, as stated, fails when the first monitor socket carries an empty
    path or none (a TCP monitor): the specification's reading stops at
    that chardev, the code passes it over and returns the path of a later
    one. *)
Lemma C8_pathless_first_monitor_is_skipped :
  findSocketFromArgs pathless_first_argv = "/b.sock"
  /\ spec_findSocket pathless_first_argv = EmptyString
  /\ findSocketFromArgs pathless_first_argv <> spec_findSocket pathless_first_argv
  /\ findSocketFromArgs tcp_first_argv = "/run/qemu/qmp.sock"
  /\ List.find monitor_socket (chardev_values tcp_first_argv)
     = Some "socket,id=charmonitor,host=127.0.0.1,port=4444,server=on,wait=off"
  /\ spec_findSocket tcp_first_argv = EmptyString.
Proof.
  split; [reflexivity|]. split; [reflexivity|].
  split; [vm_compute; discriminate|].
  split; [reflexivity|]. split; reflexivity.
Qed.

(** C8, amended.  [findSocketFromArgs] returns the [path=] value of the
    first [-chardev] value of the form [socket,...] whose [id=] contains
    [monitor] or [qmp] and whose [path=] value is not empty; a monitor
    socket without a path is passed over.  Whenever the first monitor
    socket has a path, that is the path the specification names.  The
    argv with chardev id [charmonitor] yields [/run/qemu/mon.sock]; an
    argv without monitor socket yields the empty string, and
    [AttachByPIDContext] then fails. *)
Theorem C8_socket_discovery :
  forall (args : list string),
    findSocketFromArgs args = first_path monitor_socket_with_path args
    /\ (spec_findSocket args <> EmptyString ->
        findSocketFromArgs args = spec_findSocket args)
    /\ findSocketFromArgs charmonitor_argv = "/run/qemu/mon.sock"
    /\ ((forall v, In v (chardev_values args) -> monitor_socket v = false) ->
        findSocketFromArgs args = EmptyString)
    /\ (findSocketFromArgs args = EmptyString ->
        forall ArgsOf AttachContext FindProcess p,
          ArgsOf p = Some args ->
          AttachByPIDContext ArgsOf AttachContext FindProcess p
          = inr NoSocketInArguments).
Proof.
  intros args. split; [apply findSocketFromArgs_first|].
  split; [|split; [reflexivity|split]].
  - rewrite findSocketFromArgs_first. unfold spec_findSocket, first_path.
    induction (chardev_values args) as [|v l IH]; [reflexivity|].
    cbn [List.find]. unfold monitor_socket_with_path at 1.
    destruct (monitor_socket v); cbn [andb]; [|exact IH].
    intros Hne. apply StrFacts.nonempty_true in Hne. rewrite Hne. reflexivity.
  - intros H. rewrite findSocketFromArgs_first. unfold first_path.
    rewrite find_none_of_all_false; [reflexivity|].
    intros v Hv. unfold monitor_socket_with_path. rewrite (H v Hv). reflexivity.
  - intros E ArgsOf AttachContext FindProcess p Ha.
    unfold AttachByPIDContext. rewrite Ha, E. reflexivity.
Qed.

(** An argv without any chardev. *)
Lemma C8_socket_discovery_witness :
  findSocketFromArgs ["qemu-system-x86_64"; "-m"; "512"] = EmptyString
  /\ AttachByPIDContext (fun _ => Some ["qemu-system-x86_64"; "-m"; "512"])
       (fun path => Some (attached "mon" path 0%nat)) unixFindProcess 4242
     = inr NoSocketInArguments.
Proof.
  pose proof (C8_socket_discovery ["qemu-system-x86_64"; "-m"; "512"])
    as (_ & _ & _ & Hnone & Hfail).
  assert (E : findSocketFromArgs ["qemu-system-x86_64"; "-m"; "512"] = EmptyString).
  { apply Hnone. intros v []. }
  split; [exact E|].
  exact (Hfail E (fun _ => Some ["qemu-system-x86_64"; "-m"; "512"])
           (fun path => Some (attached "mon" path 0%nat)) unixFindProcess 4242 eq_refl).
Defined.

End InstFacts.

(* ================================================================= *)
(** ** The allocator under [Alloc] and [Reserve] *)
(* ================================================================= *)

Module PCIOpsFacts.
Import PCI PCIFacts PCIOps.

(** The skip loop stops at the first free slot at or above its start. *)
Lemma skip_used_first_free u : forall fuel n s,
  skip_used fuel u n = Ok s ->
  n <= s /\ is_used u s = false
  /\ (forall k, n <= k < s -> is_used u k = true)
  /\ (s <= 31 \/ s = n).
Proof.
  induction fuel as [|fuel IH]; intros n s; cbn [skip_used];
    destruct (is_used u n) eqn:En.
  - destruct (31 <? n + 1); discriminate.
  - intros [= <-]. repeat split; try lia; auto.
  - destruct (31 <? n + 1) eqn:E; [discriminate|]. apply Z.ltb_ge in E.
    intros H. apply IH in H. destruct H as (H1 & H2 & H3 & H4).
    split; [lia|]. split; [exact H2|]. split.
    + intros k Hk. destruct (decide (k = n)) as [->|Hne]; [exact En|].
      apply H3. lia.
    + left. destruct H4; lia.
  - intros [= <-]. repeat split; try lia; auto.
Qed.

(** The skip loop panics exactly when every slot from its start to
    [0x1f] is taken, the start included. *)
Lemma skip_used_panics u : forall fuel n,
  (skip_fuel n <= fuel)%nat ->
  (exists m, skip_used fuel u n = Panic m)
  <-> is_used u n = true /\ forall k, n <= k <= 31 -> is_used u k = true.
Proof.
  unfold skip_fuel.
  induction fuel as [|fuel IH]; intros n Hf; cbn [skip_used];
    destruct (is_used u n) eqn:En.
  - destruct (31 <? n + 1) eqn:E.
    + apply Z.ltb_lt in E. split; [|eauto]. intros _. split; [reflexivity|].
      intros k Hk. assert (k = n) as -> by lia. exact En.
    + apply Z.ltb_ge in E. lia.
  - split; [intros [m Hm]; discriminate | intros [H _]; discriminate].
  - destruct (31 <? n + 1) eqn:E.
    + apply Z.ltb_lt in E. split; [|eauto]. intros _. split; [reflexivity|].
      intros k Hk. assert (k = n) as -> by lia. exact En.
    + apply Z.ltb_ge in E. rewrite IH by lia. split.
      * intros [H1 H2]. split; [reflexivity|]. intros k Hk.
        destruct (decide (k = n)) as [->|Hne]; [exact En|]. apply H2. lia.
      * intros [_ H2]. split; [apply H2; lia|]. intros k Hk. apply H2. lia.
  - split; [intros [m Hm]; discriminate | intros [H _]; discriminate].
Qed.

(** What [Alloc] does to the map: the slot it returns was free and is
    now taken. *)
Lemma AllocSlot_inv a s a' :
  AllocSlot a = Ok (s, a') ->
  is_used (used a) s = false /\ used a' = <[s := true]> (used a).
Proof.
  unfold AllocSlot.
  destruct (skip_used _ _ _) as [slot|m] eqn:E; [|discriminate].
  intros [= <- <-]. apply skip_used_first_free in E. cbn [used]. tauto.
Qed.

(** X1.  When [Alloc] returns, it returns the lowest slot at or above
    [nextSlot] that was not taken, marks exactly that slot and moves
    [nextSlot] just past it; the slot is on the bus (at most [0x1f])
    unless it is [nextSlot] itself. *)
Theorem Alloc_returns_lowest_free_slot a s a' :
  AllocSlot a = Ok (s, a') ->
  nextSlot a <= s
  /\ is_used (used a) s = false
  /\ (forall k, nextSlot a <= k < s -> is_used (used a) k = true)
  /\ (s <= 31 \/ s = nextSlot a)
  /\ a' = mkAlloc (s + 1) (<[s := true]> (used a)) (bus a).
Proof.
  unfold AllocSlot.
  destruct (skip_used _ _ _) as [slot|m] eqn:E; [|discriminate].
  intros [= <- <-].
  apply skip_used_first_free in E. destruct E as (H1 & H2 & H3 & H4).
  repeat split; auto.
Qed.

Lemma Alloc_returns_lowest_free_slot_witness :
  let a := Reserve (Reserve (newPCISlotAllocator true) 3) 4 in
  exists a', AllocSlot a = Ok (5, a') /\ nextSlot a <= 5 /\ is_used (used a) 5 = false.
Proof.
  intros a. eexists.
  assert (E : AllocSlot a = Ok (5, mkAlloc 6 (<[5 := true]> (used a)) (bus a)))
    by (vm_compute; reflexivity).
  split; [exact E|].
  destruct (Alloc_returns_lowest_free_slot a 5 _ E) as (H1 & H2 & _).
  split; assumption.
Defined.

(** X2.  [Alloc] panics exactly when the slot at [nextSlot] and every
    slot from there to [0x1f] are taken.  In particular it never panics
    while the slot at [nextSlot] is free, wherever [nextSlot] points. *)
Theorem Alloc_panics_iff_bus_is_full a :
  (exists m, Alloc a = Panic m)
  <-> is_used (used a) (nextSlot a) = true
      /\ forall k, nextSlot a <= k <= 31 -> is_used (used a) k = true.
Proof.
  rewrite <- (skip_used_panics (used a) (skip_fuel (nextSlot a)) (nextSlot a)) by lia.
  unfold Alloc, AllocSlot.
  destruct (skip_used _ _ _) as [slot|m]; split; intros [m' H];
    try discriminate; eauto.
Qed.

(** No slot taken at the start of a run is handed out in it. *)
Lemma run_avoids_used : forall ops a ss a',
  run ops a = Ok (ss, a') ->
  forall s, s ∈ ss -> is_used (used a) s = false.
Proof.
  induction ops as [|[|r] ops IH]; intros a ss a'; cbn [run].
  - intros [= <- <-] s Hs. inversion Hs.
  - destruct (AllocSlot a) as [[s a1]|m] eqn:E; [|discriminate].
    destruct (run ops a1) as [[ss2 a2]|m] eqn:E2; [|discriminate].
    intros [= <- <-] x Hx.
    destruct (AllocSlot_inv _ _ _ E) as [Hfree Hu].
    apply elem_of_cons in Hx. destruct Hx as [->|Hx]; [exact Hfree|].
    apply (IH _ _ _ E2) in Hx. rewrite Hu, is_used_insert in Hx.
    destruct (decide _); [discriminate | exact Hx].
  - intros H x Hx. apply (IH _ _ _ H) in Hx. cbn [Reserve used] in Hx.
    rewrite is_used_insert in Hx. destruct (decide _); [discriminate | exact Hx].
Qed.

(** X3.  Over any run of [Alloc] and [Reserve] calls, from any allocator:
    no slot is handed out twice, and no slot that was taken at the start
    is handed out. *)
Theorem allocated_slots_are_distinct : forall ops a ss a',
  run ops a = Ok (ss, a') ->
  NoDup ss /\ forall s, s ∈ ss -> is_used (used a) s = false.
Proof.
  intros ops a ss a' H. split; [|exact (run_avoids_used _ _ _ _ H)].
  revert a ss a' H.
  induction ops as [|[|r] ops IH]; intros a ss a'; cbn [run].
  - intros [= <- <-]. constructor.
  - destruct (AllocSlot a) as [[s a1]|m] eqn:E; [|discriminate].
    destruct (run ops a1) as [[ss2 a2]|m] eqn:E2; [|discriminate].
    intros [= <- <-].
    destruct (AllocSlot_inv _ _ _ E) as [_ Hu].
    constructor; [|exact (IH _ _ _ E2)].
    intros Hin. apply (run_avoids_used _ _ _ _ E2) in Hin.
    rewrite Hu, is_used_insert in Hin.
    destruct (decide _); [discriminate | congruence].
  - apply IH.
Qed.

Lemma allocated_slots_are_distinct_witness :
  exists ss a',
    run [OAlloc; OReserve 5; OAlloc; OAlloc] (newPCISlotAllocator false) = Ok (ss, a')
    /\ NoDup ss /\ forall s, s ∈ ss -> is_used (used (newPCISlotAllocator false)) s = false.
Proof.
  destruct (run [OAlloc; OReserve 5; OAlloc; OAlloc] (newPCISlotAllocator false))
    as [[ss a']|m] eqn:E; [|vm_compute in E; discriminate].
  exists ss, a'. split; [reflexivity|].
  exact (allocated_slots_are_distinct _ _ _ _ E).
Defined.

(** X4.  [Reserve] protects a slot: whatever the allocator held, no
    [Alloc] in a run that follows [Reserve slot] returns [slot]. *)
Theorem reserved_slot_is_never_allocated ops slot a ss a' :
  run ops (Reserve a slot) = Ok (ss, a') ->
  slot ∉ ss.
Proof.
  intros H Hin. apply (run_avoids_used _ _ _ _ H) in Hin.
  cbn [Reserve used] in Hin. rewrite is_used_insert in Hin.
  destruct (decide _); [discriminate | congruence].
Qed.

Lemma reserved_slot_is_never_allocated_witness :
  exists ss a',
    run [OAlloc; OAlloc; OAlloc] (Reserve (newPCISlotAllocator true) 4) = Ok (ss, a')
    /\ 4 ∉ ss.
Proof.
  destruct (run [OAlloc; OAlloc; OAlloc] (Reserve (newPCISlotAllocator true) 4))
    as [[ss a']|m] eqn:E; [|vm_compute in E; discriminate].
  exists ss, a'. split; [reflexivity|].
  exact (reserved_slot_is_never_allocated _ _ _ _ _ E).
Defined.

End PCIOpsFacts.

(* ================================================================= *)
(** ** The names of the states *)
(* ================================================================= *)

Module StatusFacts.
Import Inst Status.

(** Parsing the name of a state gives the state back, except for
    [StateCrashed]: QEMU reports a crash as [internal-error] or
    [io-error], and the name [crashed] is read as an unknown status. *)
Lemma parse_inverts_String_except_crashed (s : State) :
  parseQMPStatus (String_ s) = s <-> s <> StateCrashed.
Proof. destruct s; vm_compute; split; congruence. Qed.

(** X5.  A status reported by QEMU is taken for a live machine exactly
    when it is one of [running], [paused], [suspended], [prelaunch] and
    [inmigrate]; every other text, known or not, counts as not alive. *)
Theorem alive_exactly_for_live_status (status : string) :
  IsAlive (parseQMPStatus status) = true <-> In status live_status.
Proof.
  unfold parseQMPStatus, live_status.
  repeat match goal with
  | |- context [String.eqb status ?k] =>
      destruct (String.eqb_spec status k) as [->|?]
  end; simpl;
  (split;
   [ intros H; try discriminate H; auto 10
   | intros H; try reflexivity; exfalso;
     repeat (destruct H as [H|H]; [first [discriminate H | congruence]|]);
     destruct H ]).
Qed.

End StatusFacts.

(* ================================================================= *)
(** ** The QMP transport: ids, replies, events, state changes *)
(* ================================================================= *)

Module TransportFacts.
Import StrFacts Inst Transport Stop.

Lemma append_inj_l (p a b : string) : p +:+ a = p +:+ b -> a = b.
Proof.
  induction p as [|x p IH]; [exact id|].
  rewrite !append_cons. intros [= H]. exact (IH H).
Qed.

Lemma to_int_proper (z : Z) :
  Z.to_int z <> Decimal.Pos Decimal.Nil /\ Z.to_int z <> Decimal.Neg Decimal.Nil.
Proof.
  destruct z as [|p|p]; simpl; split; try discriminate;
    intros [= H]; exact (DecimalPos.Unsigned.to_uint_nonnil p H).
Qed.

(** [strconv.Itoa] is injective. *)
Lemma Itoa_inj (a b : Z) : GoStr.Itoa a = GoStr.Itoa b -> a = b.
Proof.
  unfold GoStr.Itoa. intros H.
  apply (f_equal DecimalString.NilZero.int_of_string) in H.
  destruct (to_int_proper a) as [Ha1 Ha2], (to_int_proper b) as [Hb1 Hb2].
  rewrite !DecimalString.NilZero.isi in H by assumption.
  injection H as H. exact (DecimalZ.to_int_inj _ _ H).
Qed.

(** The ids in closed form: the counter runs through the residues. *)
Lemma ids_closed_form : forall n c,
  ids n c
  = map (fun k => "cmd-" +:+ GoStr.Itoa ((c + Z.of_nat k) mod 2 ^ 64)) (seq 1 n).
Proof.
  induction n as [|n IH]; intros c; [reflexivity|].
  cbn [ids nextID seq map]. f_equal.
  rewrite IH, <- (seq_shift n 1), map_map. apply map_ext. intros k.
  do 2 f_equal. rewrite Zplus_mod_idemp_l. f_equal. lia.
Qed.

(** X6.  The ids of up to 2^64 commands issued in a row on one
    transport are pairwise different, from any value of the counter
    (the counter wraps, the ids do not collide before a full turn). *)
Theorem command_ids_are_distinct (n : nat) (c : Z) :
  Z.of_nat n <= 2 ^ 64 -> NoDup (ids n c).
Proof.
  intros Hn. rewrite ids_closed_form.
  apply (NoDup_fmap_2_strong _ (seq 1 n)); [|apply NoDup_seq].
  intros x y Hx Hy H.
  apply list_elem_of_In, in_seq in Hx. apply list_elem_of_In, in_seq in Hy.
  apply append_inj_l, Itoa_inj in H.
  assert (Hm : 0 < 2 ^ 64) by lia.
  set (M := 2 ^ 64) in *.
  pose proof (Z.div_mod (c + Z.of_nat x) M ltac:(lia)) as Dx.
  pose proof (Z.div_mod (c + Z.of_nat y) M ltac:(lia)) as Dy.
  rewrite H in Dx.
  assert (Hd : Z.of_nat x - Z.of_nat y
               = M * ((c + Z.of_nat x) / M - (c + Z.of_nat y) / M)) by lia.
  assert ((c + Z.of_nat x) / M - (c + Z.of_nat y) / M = 0) by nia.
  lia.
Qed.

Lemma command_ids_are_distinct_witness :
  Z.of_nat 3 <= 2 ^ 64 /\ NoDup (ids 3 (2 ^ 64 - 2)).
Proof.
  assert (H : Z.of_nat 3 <= 2 ^ 64) by (vm_compute; discriminate).
  split; [exact H | exact (command_ids_are_distinct 3 (2 ^ 64 - 2) H)].
Defined.

Lemma handleEvent_keeps e q :
  pending (handleEvent e q) = pending q
  /\ eventCh (handleEvent e q) = eventCh q
  /\ onStateChange (handleEvent e q) = onStateChange q
  /\ onEvent (handleEvent e q) = onEvent q
  /\ seen (calls (handleEvent e q)) = seen (calls q)
  /\ reported (calls (handleEvent e q))
     = reported (calls q)
       ++ (if onStateChange q then from_option (fun s => [s]) [] (event_state (ev_Name e))
           else []).
Proof.
  unfold handleEvent. destruct (onStateChange q) eqn:E; simpl;
    [|rewrite app_nil_r; auto 10].
  destruct (event_state _); simpl; rewrite ?app_nil_r, ?E; auto 10.
  repeat split; auto.
  - induction (calls q) as [|[|] cs IH]; simpl; congruence.
  - induction (calls q) as [|[|] cs IH]; simpl; congruence.
Qed.

Lemma seen_snoc cs e : seen (cs ++ [EventSeen e]) = seen cs ++ [e].
Proof. induction cs as [|[|] cs IH]; simpl; congruence. Qed.

Lemma reported_snoc cs e : reported (cs ++ [EventSeen e]) = reported cs.
Proof. induction cs as [|[|] cs IH]; simpl; congruence. Qed.

(** What one turn of the loop does to each part of the transport. *)
Lemma dispatch_event now resp q :
  Disk.nonempty (ID resp) = false -> Disk.nonempty (Event_ resp) = true ->
  let e := event_of now resp in
  pending (dispatch now resp q) = pending q
  /\ eventCh (dispatch now resp q)
     = (if (length (eventCh q) <? 100)%nat then eventCh q ++ [e] else eventCh q)
  /\ onStateChange (dispatch now resp q) = onStateChange q
  /\ onEvent (dispatch now resp q) = onEvent q
  /\ seen (calls (dispatch now resp q))
     = seen (calls q) ++ (if onEvent q then [e] else [])
  /\ reported (calls (dispatch now resp q))
     = reported (calls q)
       ++ (if onStateChange q then from_option (fun s => [s]) [] (event_state (ev_Name e))
           else []).
Proof.
  intros Hid Hev e. unfold dispatch. rewrite Hid, Hev. fold e.
  destruct (handleEvent_keeps e q) as (H1 & H2 & H3 & H4 & H5 & H6).
  rewrite H2.
  destruct (length (eventCh q) <? 100)%nat; cbn [pending eventCh onStateChange onEvent calls];
    rewrite H4; destruct (onEvent q);
    cbn [pending eventCh onStateChange onEvent calls];
    rewrite ?seen_snoc, ?reported_snoc, ?app_nil_r, ?H5; auto 10.
Qed.

Lemma dispatch_other now resp q :
  Disk.nonempty (ID resp) = true
  \/ (Disk.nonempty (ID resp) = false /\ Disk.nonempty (Event_ resp) = false) ->
  eventCh (dispatch now resp q) = eventCh q
  /\ onStateChange (dispatch now resp q) = onStateChange q
  /\ onEvent (dispatch now resp q) = onEvent q
  /\ calls (dispatch now resp q) = calls q.
Proof.
  unfold dispatch. intros [->|[-> ->]]; [|auto].
  destruct (pending q !! ID resp); [|auto].
  destruct (length _ <? 1)%nat; auto.
Qed.

(** X7.  With nobody reading from it, the event channel holds the first
    hundred events that arrived; every later event is dropped from the
    channel, never an earlier one, and the loop does not block. *)
Theorem event_channel_keeps_first_hundred : forall ms q,
  (length (eventCh q) <= 100)%nat ->
  eventCh (dispatch_all ms q) = take 100 (eventCh q ++ events_of ms).
Proof.
  induction ms as [|[now resp] ms IH]; intros q Hq; cbn [dispatch_all events_of].
  - rewrite app_nil_r, firstn_all2 by lia. reflexivity.
  - destruct (Disk.nonempty (ID resp)) eqn:Hid; cbn [negb andb].
    + destruct (dispatch_other now resp q (or_introl Hid)) as (H & _).
      rewrite IH by (rewrite H; exact Hq). rewrite H. reflexivity.
    + destruct (Disk.nonempty (Event_ resp)) eqn:Hev.
      * destruct (dispatch_event now resp q Hid Hev) as (_ & H & _).
        destruct (length (eventCh q) <? 100)%nat eqn:E.
        -- apply Nat.ltb_lt in E.
           rewrite IH by (rewrite H, length_app; simpl; lia).
           rewrite H, <- app_assoc. reflexivity.
        -- apply Nat.ltb_ge in E.
           rewrite IH by (rewrite H; exact Hq).
           rewrite H, !take_app_le by lia. reflexivity.
      * destruct (dispatch_other now resp q (or_intror (conj Hid Hev))) as (H & _).
        rewrite IH by (rewrite H; exact Hq). rewrite H. reflexivity.
Qed.

Lemma event_channel_keeps_first_hundred_witness :
  let q := mkLoop ∅ [] true true [] in
  let stop := {| Return := EmptyString; Error := None; Event_ := "STOP";
                 Data := EmptyString; Timestamp := None; ID := EmptyString |} in
  (length (eventCh q) <= 100)%nat
  /\ eventCh (dispatch_all (replicate 101 (7, stop)) q)
     = take 100 (eventCh q ++ events_of (replicate 101 (7, stop))).
Proof.
  intros q stop.
  assert (H : (length (eventCh q) <= 100)%nat) by (simpl; lia).
  split; [exact H|].
  exact (event_channel_keeps_first_hundred (replicate 101 (7, stop)) q H).
Defined.

(** X8.  Once an event callback is set, it is shown every event that
    arrives, in order, including those that no longer fit into the
    event channel. *)
Theorem every_event_reaches_the_callback : forall ms q,
  onEvent q = true ->
  seen (calls (dispatch_all ms q)) = seen (calls q) ++ events_of ms.
Proof.
  induction ms as [|[now resp] ms IH]; intros q Hq; cbn [dispatch_all events_of].
  - rewrite app_nil_r. reflexivity.
  - destruct (Disk.nonempty (ID resp)) eqn:Hid; cbn [negb andb].
    + destruct (dispatch_other now resp q (or_introl Hid)) as (_ & _ & H & Hc).
      rewrite IH by congruence. rewrite Hc. reflexivity.
    + destruct (Disk.nonempty (Event_ resp)) eqn:Hev.
      * destruct (dispatch_event now resp q Hid Hev) as (_ & _ & _ & H & Hc & _).
        rewrite IH by congruence. rewrite Hc, Hq, <- app_assoc. reflexivity.
      * destruct (dispatch_other now resp q (or_intror (conj Hid Hev)))
          as (_ & _ & H & Hc).
        rewrite IH by congruence. rewrite Hc. reflexivity.
Qed.

Lemma every_event_reaches_the_callback_witness :
  let q := mkLoop ∅ [] true true [] in
  let stop := {| Return := EmptyString; Error := None; Event_ := "STOP";
                 Data := EmptyString; Timestamp := None; ID := EmptyString |} in
  onEvent q = true
  /\ length (seen (calls (dispatch_all (replicate 101 (7, stop)) q))) = 101%nat.
Proof.
  intros q stop. split; [reflexivity|].
  rewrite (every_event_reaches_the_callback (replicate 101 (7, stop)) q eq_refl).
  vm_compute. reflexivity.
Defined.

(** The state changes the loop reports are those of the events with a
    name [handleEvent] knows, in order of arrival. *)
Lemma reported_states : forall ms q,
  onStateChange q = true ->
  reported (calls (dispatch_all ms q)) = reported (calls q) ++ states_of ms.
Proof.
  unfold states_of.
  induction ms as [|[now resp] ms IH]; intros q Hq; cbn [dispatch_all events_of].
  - simpl. rewrite app_nil_r. reflexivity.
  - destruct (Disk.nonempty (ID resp)) eqn:Hid; cbn [negb andb].
    + destruct (dispatch_other now resp q (or_introl Hid)) as (_ & H & _ & Hc).
      rewrite IH by congruence. rewrite Hc. reflexivity.
    + destruct (Disk.nonempty (Event_ resp)) eqn:Hev.
      * destruct (dispatch_event now resp q Hid Hev) as (_ & _ & H & _ & _ & Hc).
        rewrite IH by congruence. rewrite Hc, Hq, <- app_assoc. f_equal.
        cbn [omap list_omap]. destruct (event_state _); reflexivity.
      * destruct (dispatch_other now resp q (or_intror (conj Hid Hev)))
          as (_ & H & _ & Hc).
        rewrite IH by congruence. rewrite Hc. reflexivity.
Qed.

Lemma dispatch_pending now resp q id :
  id <> EmptyString ->
  pending (dispatch now resp q) !! id
  = (fun ch => if String.eqb (ID resp) id && (length ch <? 1)%nat
               then ch ++ [resp] else ch) <$> (pending q !! id).
Proof.
  intros Hid. unfold dispatch.
  destruct (Disk.nonempty (ID resp)) eqn:E.
  - destruct (String.eqb_spec (ID resp) id) as [->|Hne].
    + destruct (pending q !! id) as [ch|] eqn:P; cbn [fmap option_fmap option_map andb];
        [|exact P].
      destruct (length ch <? 1)%nat; cbn [pending]; [|exact P].
      apply lookup_insert_eq.
    + cbn [andb].
      destruct (pending q !! ID resp) as [ch|]; [|destruct (pending q !! id); reflexivity].
      destruct (length ch <? 1)%nat; cbn [pending];
        [|destruct (pending q !! id); reflexivity].
      rewrite lookup_insert_ne by exact Hne.
      destruct (pending q !! id); reflexivity.
  - assert (ID resp = EmptyString) as Hr.
    { unfold Disk.nonempty in E. apply negb_false_iff, String.eqb_eq in E. exact E. }
    assert (String.eqb (ID resp) id = false) as ->
      by (apply String.eqb_neq; congruence).
    cbn [andb].
    destruct (Disk.nonempty (Event_ resp)) eqn:Hev.
    + destruct (dispatch_event now resp q E Hev) as (H & _).
      unfold dispatch in H. rewrite E, Hev in H. rewrite H.
      destruct (pending q !! id); reflexivity.
    + destruct (pending q !! id); reflexivity.
Qed.

(** X9.  Replies are routed by id, and the first reply wins: after any
    run of the loop, and until the waiting command takes it out, the
    reply channel of a pending command holds the first response that
    carried its id and nothing else; later responses with the same id
    are dropped, responses with other ids and events do not touch it,
    and a response to an id that is not pending creates no entry. *)
Theorem first_reply_wins : forall ms q id,
  id <> EmptyString ->
  (forall ch, pending q !! id = Some ch -> (length ch <= 1)%nat) ->
  pending (dispatch_all ms q) !! id
  = (fun ch => take 1 (ch ++ replies id ms)) <$> (pending q !! id).
Proof.
  unfold replies.
  induction ms as [|[now resp] ms IH]; intros q id Hid Hq; cbn [dispatch_all map List.filter snd].
  - destruct (pending q !! id) as [ch|] eqn:P; cbn [fmap option_fmap option_map]; [|reflexivity].
    rewrite app_nil_r, firstn_all2; [reflexivity|]. exact (Hq ch eq_refl).
  - pose proof (dispatch_pending now resp q id Hid) as D.
    rewrite IH; [|exact Hid|].
    + rewrite D. destruct (pending q !! id) as [ch|] eqn:P; cbn [fmap option_fmap option_map]; [|reflexivity].
      specialize (Hq ch eq_refl). f_equal.
      destruct (String.eqb (ID resp) id); cbn [andb].
      * destruct (length ch <? 1)%nat eqn:L.
        -- rewrite <- app_assoc. reflexivity.
        -- apply Nat.ltb_ge in L. rewrite !take_app_le by lia. reflexivity.
      * reflexivity.
    + intros ch' H. rewrite D in H.
      destruct (pending q !! id) as [ch|] eqn:P; cbn [fmap option_fmap option_map] in H; [|discriminate].
      specialize (Hq ch eq_refl). injection H as <-.
      destruct (_ && _) eqn:B; [|exact Hq].
      apply andb_true_iff in B. destruct B as [_ B]. apply Nat.ltb_lt in B.
      rewrite length_app. simpl. lia.
Qed.

Lemma first_reply_wins_witness :
  let reply v := {| Return := v; Error := None; Event_ := EmptyString;
                    Data := EmptyString; Timestamp := None; ID := "cmd-1" |} in
  let q := mkLoop {[ "cmd-1" := [] ]} [] false false [] in
  pending (dispatch_all [(0, reply "first"); (1, reply "second")] q) !! "cmd-1"
  = Some [reply "first"].
Proof.
  intros reply q.
  rewrite (first_reply_wins [(0, reply "first"); (1, reply "second")] q "cmd-1").
  - reflexivity.
  - discriminate.
  - intros ch H. vm_compute in H. injection H as <-. simpl. lia.
Defined.

Lemma setState_facts s w :
  State_ (setState s w) = s
  /\ Inst.onStateChange (inst (setState s w)) = Inst.onStateChange (inst w)
  /\ trace (setState s w)
     = trace w ++ (if bool_decide (State_ w <> s) && Inst.onStateChange (inst w)
                   then [Callback s s] else []).
Proof.
  destruct w as [[n p pr sp q st cb] tr fs t]. unfold setState, State_, with_inst, log.
  cbn [inst state Inst.onStateChange trace].
  destruct (bool_decide (st <> s)), cb; cbn [andb inst state Inst.onStateChange trace];
    rewrite ?app_nil_r; auto.
Qed.

Lemma default_last {A} (d x : A) (l : list A) :
  default d (last (x :: l)) = default x (last l).
Proof.
  destruct l as [|y l]; [reflexivity|]. rewrite last_cons.
  destruct (last (y :: l)) eqn:L; [reflexivity|].
  apply last_None in L. discriminate.
Qed.

Lemma bridge_facts : forall ss w,
  Inst.onStateChange (inst w) = true ->
  State_ (bridge ss w) = default (State_ w) (last ss)
  /\ trace (bridge ss w)
     = trace w ++ map (fun s => Callback s s) (changes (State_ w) ss).
Proof.
  unfold bridge.
  induction ss as [|s ss IH]; intros w Hw; cbn [fold_left changes map].
  - rewrite app_nil_r. auto.
  - destruct (setState_facts s w) as (H1 & H2 & H3).
    destruct (IH (setState s w)) as [I1 I2]; [congruence|].
    split.
    + rewrite I1, H1, default_last. reflexivity.
    + rewrite I2, H1, H3, Hw, andb_true_r.
      destruct (bool_decide _); cbn [map]; rewrite <- app_assoc; reflexivity.
Qed.

(** X10.  With the bridge of [StartContext] and [AttachContext] in
    place and a callback set on the instance, a run of state changes
    reported by the read loop leaves the instance in the last reported
    state, and the callback is called exactly for the entries that
    differ from the state just before, each time with the new state and
    with [State()] already showing it; nothing else is done. *)
Theorem bridge_notifies_changes_only ss w :
  Inst.onStateChange (inst w) = true ->
  State_ (bridge ss w) = default (State_ w) (last ss)
  /\ added w (bridge ss w) = map (fun s => Callback s s) (changes (State_ w) ss).
Proof.
  intros Hw. destruct (bridge_facts ss w Hw) as [H1 H2].
  split; [exact H1|]. unfold added. rewrite H2. apply drop_app_length.
Qed.

Lemma bridge_notifies_changes_only_witness :
  let w := world_of spawned_vm in
  Inst.onStateChange (inst w) = true
  /\ added w (bridge [StateRunning; StatePaused; StatePaused; StateRunning] w)
     = [Callback StatePaused StatePaused; Callback StateRunning StateRunning].
Proof.
  intros w. split; [reflexivity|].
  exact (proj2 (bridge_notifies_changes_only
                  [StateRunning; StatePaused; StatePaused; StateRunning] w eq_refl)).
Defined.

(** X11.  From the wire to the instance: when the state-change callback
    of the transport is the bridge to the instance, the instance ends in
    the state of the last event whose name the loop knows ([SHUTDOWN],
    [RESET], [STOP], [RESUME], [SUSPEND], [WAKEUP]); events with other
    names and command replies leave the state alone. *)
Theorem state_follows_last_known_event ms q w :
  onStateChange q = true -> calls q = [] ->
  State_ (bridge (reported (calls (dispatch_all ms q))) w)
  = default (State_ w) (last (states_of ms)).
Proof.
  intros Hq Hc. rewrite (reported_states ms q Hq), Hc. cbn [reported app].
  generalize (states_of ms). intros ss. revert w. unfold bridge.
  induction ss as [|s ss IH]; intros w; [reflexivity|].
  cbn [fold_left]. rewrite IH.
  destruct (setState_facts s w) as (H1 & _). rewrite H1, default_last. reflexivity.
Qed.

Lemma state_follows_last_known_event_witness :
  let ev n := {| Return := EmptyString; Error := None; Event_ := n;
                 Data := EmptyString; Timestamp := None; ID := EmptyString |} in
  let q := mkLoop ∅ [] true false [] in
  State_ (bridge (reported (calls (dispatch_all
            [(0, ev "STOP"); (1, ev "SHUTDOWN"); (2, ev "DEVICE_DELETED")] q)))
          (world_of spawned_vm))
  = StateShutdown.
Proof.
  intros ev q.
  rewrite (state_follows_last_known_event
             [(0, ev "STOP"); (1, ev "SHUTDOWN"); (2, ev "DEVICE_DELETED")] q
             (world_of spawned_vm) eq_refl eq_refl).
  reflexivity.
Defined.

End TransportFacts.

(* ================================================================= *)
(** ** [Start]: the command line and its way back *)
(* ================================================================= *)

Module SimpleFacts.
Import StrFacts Disk Config Builder Inst Simple.

Lemma has_comma_app (a b : string) :
  has_comma (a +:+ b) = has_comma a || has_comma b.
Proof.
  induction a as [|x a IH]; [reflexivity|].
  rewrite append_cons. simpl. rewrite IH, orb_assoc. reflexivity.
Qed.

(** A field without comma is split off as it is. *)
Lemma Split_field (s t : string) :
  has_comma s = false ->
  GoStr.Split (s +:+ String comma t) comma = s :: GoStr.Split t comma.
Proof.
  induction s as [|x s IH]; intros H.
  - change (EmptyString +:+ String comma t) with (String comma t).
    cbn [GoStr.Split]. rewrite Ascii.eqb_refl. reflexivity.
  - rewrite append_cons. simpl in H. apply orb_false_iff in H. destruct H as [Hx Hs].
    cbn [GoStr.Split]. rewrite Hx, (IH Hs). reflexivity.
Qed.

Lemma Split_last_field (s : string) :
  has_comma s = false -> GoStr.Split s comma = [s].
Proof.
  induction s as [|x s IH]; intros H; [reflexivity|].
  simpl in H. apply orb_false_iff in H. destruct H as [Hx Hs].
  cbn [GoStr.Split]. rewrite Hx, (IH Hs). reflexivity.
Qed.

(** The first field of a split is what stands before the first comma. *)
Lemma Split_head (s : string) :
  exists rest, GoStr.Split s comma = before_comma s :: rest.
Proof.
  induction s as [|x s [rest IH]]; [exists []; reflexivity|].
  cbn [GoStr.Split before_comma]. destruct (Ascii.eqb x comma); [eauto|].
  rewrite IH. eauto.
Qed.

Lemma before_comma_app (s t : string) :
  before_comma (s +:+ String comma t) = before_comma s.
Proof.
  induction s as [|x s IH].
  - change (EmptyString +:+ String comma t) with (String comma t).
    cbn [before_comma]. rewrite Ascii.eqb_refl. reflexivity.
  - rewrite append_cons. cbn [before_comma]. rewrite IH. reflexivity.
Qed.

Lemma before_comma_id (s : string) : has_comma s = false -> before_comma s = s.
Proof.
  induction s as [|x s IH]; intros H; [reflexivity|].
  simpl in H. apply orb_false_iff in H. destruct H as [Hx Hs].
  cbn [before_comma]. rewrite Hx, (IH Hs). reflexivity.
Qed.

(** The scan of the chardev value that [buildArgs] and
    [buildControlSocket] write. *)
Lemma scan_monitor_chardev (path : string) :
  has_comma path = false ->
  scan_chardev ("socket,id=qmp,path=" +:+ path +:+ ",server=on,wait=off")
  = (true, path).
Proof.
  intros H. unfold scan_chardev.
  change ("socket,id=qmp,path=" +:+ path +:+ ",server=on,wait=off")
    with ("socket" +:+ String comma
            ("id=qmp" +:+ String comma
               (("path=" +:+ path) +:+ String comma
                  ("server=on" +:+ String comma "wait=off")))).
  rewrite (Split_field "socket") by reflexivity.
  rewrite (Split_field "id=qmp") by reflexivity.
  rewrite (Split_field ("path=" +:+ path))
    by (rewrite has_comma_app, H; reflexivity).
  rewrite (Split_field "server=on") by reflexivity.
  rewrite (Split_last_field "wait=off") by reflexivity.
  cbn [tail fold_left]. unfold scan_part at 4.
  change (GoStr.HasPrefix "id=qmp" "path=") with false.
  change (GoStr.HasPrefix "id=qmp" "id=") with true.
  change (GoStr.Contains (GoStr.drop 3 "id=qmp") "monitor"
          || GoStr.Contains (GoStr.drop 3 "id=qmp") "qmp") with true.
  cbv iota beta. unfold scan_part at 3.
  rewrite (HasPrefix_app "path=" path).
  change (GoStr.HasPrefix ("path=" +:+ path) "id=") with false.
  change (GoStr.drop 5 ("path=" +:+ path)) with path.
  cbv iota beta. reflexivity.
Qed.

Lemma find_at_monitor (path : string) (rest : list string) :
  path <> EmptyString -> has_comma path = false ->
  findSocketFromArgs
    ("-chardev" :: ("socket,id=qmp,path=" +:+ path +:+ ",server=on,wait=off") :: rest)
  = path.
Proof.
  intros Hne Hc. cbn [findSocketFromArgs].
  change (String.eqb "-chardev" "-chardev") with true.
  change (GoStr.HasPrefix ("socket,id=qmp,path=" +:+ path +:+ ",server=on,wait=off")
            "socket,") with true.
  cbn [andb]. rewrite (scan_monitor_chardev path Hc).
  apply nonempty_true in Hne. rewrite Hne. reflexivity.
Qed.

(** The scan passes over an argument that is not [-chardev], and over
    one whose successor does not start with [socket,]. *)
Lemma find_skip_flag a b rest :
  String.eqb a "-chardev" = false ->
  findSocketFromArgs (a :: b :: rest) = findSocketFromArgs (b :: rest).
Proof. intros H. cbn [findSocketFromArgs]. rewrite H. reflexivity. Qed.

Lemma find_skip_value a b rest :
  GoStr.HasPrefix b "socket," = false ->
  findSocketFromArgs (a :: b :: rest) = findSocketFromArgs (b :: rest).
Proof.
  intros H. cbn [findSocketFromArgs]. rewrite H, andb_false_r. reflexivity.
Qed.

Ltac find_skip :=
  repeat first [ rewrite find_skip_value by reflexivity
               | rewrite find_skip_flag by reflexivity ].

(** The scan passes over everything [buildArgs] writes before the
    monitor. *)
Lemma head_is_passed cfg name argv0 v rest :
  findSocketFromArgs (argv0 :: headArgs cfg name ++ "-chardev" :: v :: rest)
  = findSocketFromArgs ("-chardev" :: v :: rest).
Proof.
  unfold headArgs.
  destruct (nil_or_true (c_NoDefaults cfg));
  destruct (nonempty (if nonempty (c_Machine cfg) then _ else _));
  destruct (nonempty (if negb (nonempty (c_CPU cfg)) && _ then _ else _));
  destruct (1 <? c_CPUs cfg);
  cbn [app]; find_skip; reflexivity.
Qed.

(** X12.  A machine started by [Start] can be found again from its
    command line: for every configuration and name, [findSocketFromArgs]
    applied to the arguments [buildArgs] wrote (after the program name)
    returns the socket path they were built with, provided the path is
    not empty and holds no comma. *)
Theorem buildArgs_socket_is_found cfg name path argv0 :
  path <> EmptyString -> has_comma path = false ->
  findSocketFromArgs (argv0 :: buildArgs cfg name path) = path.
Proof.
  intros Hne Hc. unfold buildArgs, monitorArgs. cbn [app].
  rewrite head_is_passed. apply find_at_monitor; assumption.
Qed.

Lemma buildArgs_socket_is_found_witness :
  findSocketFromArgs
    ("/usr/bin/qemu-system-x86_64" :: buildArgs DefaultConfig "vm" "/run/qemu/vm.sock")
  = "/run/qemu/vm.sock".
Proof.
  apply (buildArgs_socket_is_found DefaultConfig "vm" "/run/qemu/vm.sock");
    [discriminate | reflexivity].
Defined.

(** The name is read back up to its first comma. *)
Lemma buildArgs_name_recovered cfg name path argv0 current :
  argv0 <> "-name" ->
  nameFromArgs (argv0 :: buildArgs cfg name path) current = before_comma name.
Proof.
  intros H0. unfold buildArgs, headArgs. cbn [app nameFromArgs].
  apply String.eqb_neq in H0. rewrite H0.
  change (String.eqb "-name" "-name") with true. cbv iota.
  rewrite (HasPrefix_app "guest=" (name +:+ ",debug-threads=on")).
  change (GoStr.drop 6 ("guest=" +:+ name +:+ ",debug-threads=on"))
    with (name +:+ String comma "debug-threads=on").
  destruct (Split_head (name +:+ String comma "debug-threads=on")) as [rest ->].
  apply before_comma_app.
Qed.

(** Why the path must hold no comma: the scan splits the chardev value
    at every comma and reads the path up to the next one. *)
Example comma_in_socket_path_is_cut :
  findSocketFromArgs ("qemu" :: buildArgs DefaultConfig "vm" "/run/a,b.sock") = "/run/a".
Proof. reflexivity. Qed.

(** X13.  Attaching by pid to a machine started by [Start] reaches the
    machine, under three provisos: the socket path is not empty, it
    holds no comma, and the program name (the first word of the command
    line) is not [-name].  Then, when the process shows the program name
    followed by the arguments [buildArgs] wrote and the attachment to
    that socket path succeeds, [AttachByPIDContext] attaches to the
    socket path the arguments were built with, and the instance it
    returns carries the pid and, as its name, the name given to
    [buildArgs] up to its first comma.  (With a comma in the path the
    scan stops at the comma and the attachment goes elsewhere.) *)
Theorem attach_by_pid_reaches_started_machine
    (ArgsOf : Z -> option (list string)) (AttachContext : string -> option Instance)
    (FindProcess : Z -> option Process)
    (p : Z) (cfg : Config) (name path argv0 : string) (i : Instance) :
  path <> EmptyString -> has_comma path = false -> argv0 <> "-name" ->
  ArgsOf p = Some (argv0 :: buildArgs cfg name path) ->
  AttachContext path = Some i ->
  exists i',
    AttachByPIDContext ArgsOf AttachContext FindProcess p = inl i'
    /\ Inst.name i' = before_comma name
    /\ pid i' = p
    /\ socketPath i' = socketPath i
    /\ qmp i' = qmp i.
Proof.
  intros Hne Hc H0 Ha Hat. unfold AttachByPIDContext. rewrite Ha.
  assert (findSocketFromArgs (argv0 :: buildArgs cfg name path) = path) as ->.
  { unfold buildArgs, monitorArgs. cbn [app].
    rewrite head_is_passed. apply find_at_monitor; assumption. }
  apply nonempty_true in Hne. rewrite Hne. cbn [negb]. rewrite Hat.
  eexists. split; [reflexivity|]. cbn [Inst.name pid socketPath qmp].
  split; [|auto]. apply buildArgs_name_recovered, H0.
Qed.

Lemma attach_by_pid_reaches_started_machine_witness :
  exists i',
    AttachByPIDContext
      (fun _ => Some ("qemu-system-x86_64" :: buildArgs DefaultConfig "web" "/run/web.sock"))
      (fun path => Some (attached "web" path 0%nat))
      unixFindProcess 4242
    = inl i'
    /\ Inst.name i' = "web" /\ pid i' = 4242.
Proof.
  destruct (attach_by_pid_reaches_started_machine
              (fun _ => Some ("qemu-system-x86_64"
                              :: buildArgs DefaultConfig "web" "/run/web.sock"))
              (fun path => Some (attached "web" path 0%nat))
              unixFindProcess 4242 DefaultConfig "web" "/run/web.sock"
              "qemu-system-x86_64" (attached "web" "/run/web.sock" 0%nat))
    as (i' & E & Hn & Hp & _);
    [discriminate | reflexivity | discriminate | reflexivity | reflexivity |].
  exists i'. split; [exact E|]. split; [exact Hn | exact Hp].
Defined.

Lemma Validate_spec (c : Config) :
  Validate c = None <-> 0 < c_Memory c /\ 0 < c_CPUs c.
Proof.
  unfold Validate.
  destruct (Z.leb_spec (c_Memory c) 0); [split; [discriminate | lia]|].
  destruct (Z.leb_spec (c_CPUs c) 0); [split; [discriminate | lia]|].
  split; [lia | reflexivity].
Qed.

Lemma ToConfig_sizes (cfg : VMConfig) :
  c_Memory (ToConfig cfg)
  = match Memory cfg with Some m => mem_Size m | None => 512 end
  /\ c_CPUs (ToConfig cfg)
     = match CPU cfg with
       | Some c =>
           let n := GoStr.wrap64 (GoStr.wrap64 (cpu_Sockets c * cpu_Cores c)
                                  * cpu_Threads c) in
           if n =? 0 then 1 else n
       | None => 1
       end.
Proof.
  unfold ToConfig.
  destruct (Memory cfg), (CPU cfg), (Machine cfg); split; reflexivity.
Qed.

(** X14.  [ToConfig] gives a configuration that [Validate] accepts
    exactly when the memory size, if one is given, is positive and the
    product of the CPU topology, if one is given, is not negative: a
    topology of zero is turned into one CPU, a missing memory part into
    512 MiB, but a memory size of zero or less is passed on and
    rejected. *)
Theorem ToConfig_is_valid_iff (cfg : VMConfig) :
  Validate (ToConfig cfg) = None
  <-> match Memory cfg with Some m => 0 < mem_Size m | None => True end
      /\ match CPU cfg with
         | Some c => 0 <= GoStr.wrap64 (GoStr.wrap64 (cpu_Sockets c * cpu_Cores c)
                                        * cpu_Threads c)
         | None => True
         end.
Proof.
  rewrite Validate_spec. destruct (ToConfig_sizes cfg) as [-> ->].
  assert (Hm : 0 < match Memory cfg with Some m => mem_Size m | None => 512 end
               <-> match Memory cfg with Some m => 0 < mem_Size m | None => True end)
    by (destruct (Memory cfg); [reflexivity | split; [auto | reflexivity]]).
  rewrite Hm. apply and_iff_compat_l.
  destruct (CPU cfg) as [c|]; [|split; [auto | reflexivity]].
  cbv zeta.
  generalize (GoStr.wrap64 (GoStr.wrap64 (cpu_Sockets c * cpu_Cores c) * cpu_Threads c)).
  intros n. destruct (Z.eqb_spec n 0); lia.
Qed.

(** X15.  [ToConfig] cannot turn KVM off: the simple configuration it
    returns makes [buildArgs] ask for the KVM accelerator whenever a
    machine type is written, whatever accelerator the [VMConfig] names
    ([tcg] included), and for the [host] CPU when no model is given. *)
Theorem ToConfig_always_asks_for_kvm (cfg : VMConfig) (m : MachineConfig)
    (name socketPath : string) :
  Machine cfg = Some m ->
  mc_Type m <> EmptyString ->
  exists pre post,
    buildArgs (ToConfig cfg) name socketPath
    = pre ++ ["-machine"; mc_Type m +:+ ",accel=kvm"] ++ post.
Proof.
  intros Hm Hne. apply nonempty_true in Hne.
  unfold buildArgs, headArgs.
  assert (c_Machine (ToConfig cfg) = mc_Type m) as ->
    by (unfold ToConfig; rewrite Hm; destruct (CPU cfg); reflexivity).
  assert (nil_or_true (c_KVM (ToConfig cfg)) = true) as ->
    by (unfold ToConfig; rewrite Hm; destruct (CPU cfg);
        cbn [c_KVM]; destruct (String.eqb _ _); reflexivity).
  rewrite Hne, Hne.
  match goal with
  | |- exists pre post, (?a ++ ?b ++ ?c ++ ?m ++ ?r1) ++ ?r2 = _ =>
      exists (a ++ b ++ c), (r1 ++ r2)
  end.
  rewrite <- !app_assoc. reflexivity.
Qed.

Lemma ToConfig_always_asks_for_kvm_witness :
  let tcg := {| mc_Type := "pc"; mc_Accel := "tcg"; mc_USB := None;
                mc_DumpGuestCore := None; mc_Pflash0 := EmptyString;
                mc_Pflash1 := EmptyString |} in
  let cfg := {| Name := "vm"; Arch := EmptyString; QemuPath := EmptyString;
     SocketDir := EmptyString; Machine := Some tcg; CPU := None; Memory := None;
     EFI := None; Boot := None; Disks := []; CDROMs := []; Networks := [];
     Display := None; Audio := None; Serials := []; Chardevs := [];
     VirtioSerial := None; USB := None; USBDevices := []; Balloon := None;
     RTC := None; Secrets := []; NoDefaults := true; ExtraArgs := [] |} in
  exists pre post,
    buildArgs (ToConfig cfg) "vm" "/run/vm.sock"
    = pre ++ ["-machine"; "pc,accel=kvm"] ++ post.
Proof.
  intros tcg cfg.
  refine (ToConfig_always_asks_for_kvm cfg tcg "vm" "/run/vm.sock" eq_refl _).
  discriminate.
Defined.

End SimpleFacts.

(* ================================================================= *)
(** ** [StopContext] *)
(* ================================================================= *)

Module StopFacts.
Import StrFacts Disk Inst InstFacts Transport TransportFacts Stop.

Lemma no_kill_refl w : no_kill_step w w.
Proof.
  unfold no_kill_step. repeat split; auto. exists []. rewrite app_nil_r. auto.
Qed.

Lemma no_kill_trans w0 w1 w2 : no_kill_step w0 w1 -> no_kill_step w1 w2 -> no_kill_step w0 w2.
Proof.
  intros (A1 & A2 & A3 & A4 & A5 & A6 & A7 & A8 & l1 & A9 & A10)
         (B1 & B2 & B3 & B4 & B5 & B6 & B7 & B8 & l2 & B9 & B10).
  unfold no_kill_step. repeat split; try congruence.
  exists (l1 ++ l2). split; [rewrite B9, A9, app_assoc; reflexivity|].
  apply Forall_app; auto.
Qed.

Lemma no_kill_log e w : is_kill e = false -> no_kill_step w (log e w).
Proof.
  intros H. unfold no_kill_step, log; cbn. repeat split; auto.
  exists [e]. auto.
Qed.

Lemma no_kill_setState s w : no_kill_step w (setState s w).
Proof.
  destruct w as [[n p pr sp q st cb] tr fs t].
  unfold no_kill_step, setState, State_, with_inst, log.
  cbn [inst state Inst.onStateChange trace].
  destruct (bool_decide (st <> s) && cb); cbn; repeat split; auto.
  - exists [Callback s s]. auto.
  - exists []. rewrite app_nil_r. auto.
Qed.

Lemma no_kill_bridge : forall ss w, no_kill_step w (bridge ss w).
Proof.
  unfold bridge. induction ss as [|s ss IH]; intros w; cbn [fold_left].
  - apply no_kill_refl.
  - eapply no_kill_trans; [apply no_kill_setState | apply IH].
Qed.

Lemma no_kill_isProcessAlive a w : no_kill_step w (snd (isProcessAlive a w)).
Proof.
  unfold isProcessAlive. destruct (process (inst w)); cbn [snd].
  - apply no_kill_log. reflexivity.
  - destruct (0 <? pid (inst w)); cbn [snd];
      [apply no_kill_log; reflexivity | apply no_kill_refl].
Qed.

(** What [cleanup] logs holds no signal. *)
Lemma cleanup_trace w :
  exists l, trace (cleanup w) = trace w ++ l /\ Forall (fun e => is_signal e = false) l.
Proof.
  cleanup_cases w; rewrite <- ?app_assoc; eexists;
    (split; [try reflexivity; symmetry; apply app_nil_r|]);
    repeat constructor.
Qed.

(** How the waiting loop ends: with a cleanup after steps that killed
    nothing, or with [ForceStop] after such steps. *)
Lemma stop_loop_ends : forall polls w,
  exists w1, no_kill_step w w1
    /\ ((snd (stop_loop polls w) = None /\ fst (stop_loop polls w) = cleanup w1)
        \/ (snd (stop_loop polls w) <> None /\ fst (stop_loop polls w) = ForceStop w1)).
Proof.
  induction polls as [|[|arrived a a'] polls IH]; intros w; cbn [stop_loop].
  - exists w. split; [apply no_kill_refl|]. right. split; [discriminate | reflexivity].
  - exists w. split; [apply no_kill_refl|]. right. split; [discriminate | reflexivity].
  - pose proof (no_kill_bridge arrived w) as Q1.
    pose proof (no_kill_isProcessAlive a (bridge arrived w)) as Q2.
    destruct (isProcessAlive a (bridge arrived w)) as [x w2]. cbn [snd] in Q2.
    pose proof (no_kill_trans _ _ _ Q1 Q2) as Q12.
    destruct x; cbn [negb].
    + destruct (bool_decide (State_ w2 = StateShutdown)).
      * pose proof (no_kill_isProcessAlive a' w2) as Q3.
        destruct (isProcessAlive a' w2) as [y w3]. cbn [snd] in Q3.
        pose proof (no_kill_trans _ _ _ Q12 Q3) as Q123.
        destruct y; cbn [negb].
        -- destruct (IH w3) as (w4 & Q4 & H). exists w4.
           split; [exact (no_kill_trans _ _ _ Q123 Q4) | exact H].
        -- exists w3. split; [exact Q123|]. left. split; reflexivity.
      * destruct (IH w2) as (w4 & Q4 & H). exists w4.
        split; [exact (no_kill_trans _ _ _ Q12 Q4) | exact H].
    + exists w2. split; [exact Q12|]. left. split; reflexivity.
Qed.

(** The same for the whole of [StopContext]. *)
Lemma StopContext_ends out polls w :
  exists w1, no_kill_step w w1
    /\ ((snd (StopContext out polls w) = None /\ qmp (inst w) <> None
         /\ fst (StopContext out polls w) = cleanup w1)
        \/ ((snd (StopContext out polls w) <> None \/ qmp (inst w) = None)
            /\ fst (StopContext out polls w) = ForceStop w1)).
Proof.
  unfold StopContext. destruct (qmp (inst w)) as [r|] eqn:Q.
  - pose proof (no_kill_log (Execute r "system_powerdown") w eq_refl) as Q1.
    destruct out as [payload|err].
    + destruct (stop_loop_ends polls (log (Execute r "system_powerdown") w))
        as (w1 & Q2 & [[H1 H2]|[H1 H2]]); exists w1;
        (split; [exact (no_kill_trans _ _ _ Q1 Q2)|]).
      * left. repeat split; [exact H1 | discriminate | exact H2].
      * right. split; [left; exact H1 | exact H2].
    + eexists. split; [exact Q1|]. right. cbn [fst snd].
      split; [left; discriminate | reflexivity].
  - exists w. split; [apply no_kill_refl|]. right. cbn [fst snd]. auto.
Qed.

Lemma ForceStop_is_cleanup w :
  exists w2, ForceStop w = cleanup w2
    /\ socketPath (inst w2) = socketPath (inst w)
    /\ files w2 = files w.
Proof.
  unfold ForceStop. eexists. split; [reflexivity|].
  destruct (process (inst w)); [cbn; auto|].
  destruct (0 <? pid (inst w)); cbn; auto.
Qed.

(** X16.  However [StopContext] ends (the guest shut down, the
    power-down command failed, the context was cancelled, the deadline
    passed, or there was no transport), it leaves the instance cleaned
    up: detached from its transport, in state [StateShutdown], with the
    socket file removed and no other file touched. *)
Theorem StopContext_always_cleans_up out polls w :
  let w' := fst (StopContext out polls w) in
  qmp (inst w') = None
  /\ State_ w' = StateShutdown
  /\ files w' = (if nonempty (socketPath (inst w))
                 then files w ∖ {[ socketPath (inst w) ]} else files w).
Proof.
  destruct (StopContext_ends out polls w)
    as (w1 & (_ & _ & _ & Hsp & _ & _ & _ & Hf & _) & [(_ & _ & ->)|(_ & ->)]);
    cbv zeta.
  - unfold State_. rewrite cleanup_inst, cleanup_files, Hsp, Hf. auto.
  - destruct (ForceStop_is_cleanup w1) as (w2 & -> & Hsp2 & Hf2).
    unfold State_. rewrite cleanup_inst, cleanup_files, Hsp2, Hf2, Hsp, Hf. auto.
Qed.

Lemma added_app w w' l : trace w' = trace w ++ l -> added w w' = l.
Proof. intros H. unfold added. rewrite H. apply drop_app_length. Qed.

Lemma no_signal_no_kill l :
  Forall (fun e => is_signal e = false) l -> Forall (fun e => is_kill e = false) l.
Proof.
  intros H. eapply Forall_impl; [exact H|].
  intros [] He; simpl in *; congruence.
Qed.

(** X17.  A graceful stop is graceful: when an instance with a
    transport gets [nil] back from [StopContext], the power-down command
    was answered and no killing signal was sent, to the process or to
    its group; the only signals are liveness probes (signal 0). *)
Theorem graceful_stop_sends_no_kill out polls w r :
  qmp (inst w) = Some r ->
  snd (StopContext out polls w) = None ->
  (exists payload, out = Returned payload)
  /\ Forall (fun e => is_kill e = false) (added w (fst (StopContext out polls w))).
Proof.
  intros Q Hnil. split.
  - unfold StopContext in Hnil. rewrite Q in Hnil.
    destruct out; [eauto | discriminate].
  - destruct (StopContext_ends out polls w)
      as (w1 & (_ & _ & _ & _ & _ & _ & _ & _ & l & Ht & Hl) & [(_ & _ & ->)|([H|H] & _)]);
      [|congruence|congruence].
    destruct (cleanup_trace w1) as (l2 & Ht2 & Hl2).
    rewrite (added_app w (cleanup w1) (l ++ l2))
      by (rewrite Ht2, Ht, app_assoc; reflexivity).
    apply Forall_app. split; [exact Hl | apply no_signal_no_kill, Hl2].
Qed.

Lemma graceful_stop_sends_no_kill_witness :
  let w := world_of spawned_vm in
  let polls := [Tick [] true true; Tick [StateShutdown] true false] in
  snd (StopContext (Returned "{}") polls w) = None
  /\ Forall (fun e => is_kill e = false)
            (added w (fst (StopContext (Returned "{}") polls w))).
Proof.
  intros w polls.
  assert (H : snd (StopContext (Returned "{}") polls w) = None) by reflexivity.
  split; [exact H|].
  exact (proj2 (graceful_stop_sends_no_kill (Returned "{}") polls w 0%nat eq_refl H)).
Defined.

(** X18.  When [StopContext] returns an error, [ForceStop] has run: for
    an instance with a process handle, [SIGKILL] went to the process
    group and [Kill] to the process. *)
Theorem failed_stop_kills_the_process_group out polls w p :
  snd (StopContext out polls w) <> None ->
  process (inst w) = Some p ->
  Kill (- Pid p) SIGKILL ∈ added w (fst (StopContext out polls w))
  /\ ProcessKill (Pid p) ∈ added w (fst (StopContext out polls w)).
Proof.
  intros Herr Hp.
  destruct (StopContext_ends out polls w)
    as (w1 & (_ & _ & Hpr & _ & _ & _ & _ & _ & l & Ht & Hl) & [(H & _)|(_ & ->)]);
    [congruence|].
  unfold ForceStop. rewrite Hpr, Hp.
  destruct (cleanup_trace (log (ProcessKill (Pid p)) (log (Kill (- Pid p) SIGKILL) w1)))
    as (l2 & Ht2 & _).
  rewrite (added_app w _ (l ++ [Kill (- Pid p) SIGKILL; ProcessKill (Pid p)] ++ l2)).
  - split; apply elem_of_app; right; apply elem_of_app; left;
      [left | right; left].
  - rewrite Ht2. cbn [log trace]. rewrite Ht, <- !app_assoc. reflexivity.
Qed.

Lemma failed_stop_kills_the_process_group_witness :
  let w := world_of spawned_vm in
  Kill (-4242) SIGKILL ∈ added w (fst (StopContext (Returned "{}") [Tick [] true true] w)).
Proof.
  intros w.
  refine (proj1 (failed_stop_kills_the_process_group
                   (Returned "{}") [Tick [] true true] w {| Pid := 4242 |} _ eq_refl)).
  vm_compute. discriminate.
Defined.

(** X19.  An instance without process handle and without pid, as
    [AttachContext] returns it, is never waited for: once the power-down
    command is answered, [StopContext] returns [nil] at the first tick,
    whatever the guest does, having sent no signal at all: the liveness
    test answers [false] without probing. *)
Theorem stop_without_pid_never_waits payload arrived a a' polls w r :
  qmp (inst w) = Some r ->
  without_pid (inst w) ->
  snd (StopContext (Returned payload) (Tick arrived a a' :: polls) w) = None
  /\ signals (added w (fst (StopContext (Returned payload)
                                          (Tick arrived a a' :: polls) w))) = [].
Proof.
  intros Q [Hp Hpid]. unfold StopContext. rewrite Q. cbn [stop_loop].
  set (w1 := log (Execute r "system_powerdown") w).
  pose proof (no_kill_bridge arrived w1) as (_ & B2 & B3 & _ & _ & _ & _ & _ & _).
  unfold isProcessAlive. rewrite B3, B2. cbn [w1 log inst]. rewrite Hp.
  assert ((0 <? pid (inst w)) = false) as -> by (apply Z.ltb_ge; exact Hpid).
  cbn [negb fst snd]. split; [reflexivity|].
  fold w1.
  assert (exists l, trace (bridge arrived w1) = trace w1 ++ l
                    /\ Forall (fun e => is_signal e = false) l) as (l & Ht & Hl).
  { clear. generalize w1. clear w1. unfold bridge.
    induction arrived as [|s ss IH]; intros w1; cbn [fold_left].
    - exists []. rewrite app_nil_r. auto.
    - destruct (IH (setState s w1)) as (l & Ht & Hl).
      destruct (setState_facts s w1) as (_ & _ & H3).
      eexists. rewrite Ht, H3, <- app_assoc. split; [reflexivity|].
      apply Forall_app. split; [|exact Hl].
      destruct (_ && _); repeat constructor. }
  destruct (cleanup_trace (bridge arrived w1)) as (l2 & Ht2 & Hl2).
  rewrite (added_app w _ ([Execute r "system_powerdown"] ++ l ++ l2))
    by (rewrite Ht2, Ht; cbn [w1 log trace]; rewrite <- !app_assoc; reflexivity).
  unfold signals. cbn [app List.filter is_signal].
  assert (Hall : Forall (fun e => is_signal e = false) (l ++ l2))
    by (apply Forall_app; auto).
  induction Hall as [|e l' He _ IH]; [reflexivity|].
  cbn [List.filter]. rewrite He. exact IH.
Qed.

Lemma stop_without_pid_never_waits_witness :
  let w := world_of (attached "mon" "/run/qemu/mon.sock" 0%nat) in
  snd (StopContext (Returned "{}") [Tick [] true true] w) = None.
Proof.
  intros w.
  refine (proj1 (stop_without_pid_never_waits "{}" [] true true [] w 0%nat eq_refl _)).
  split; [reflexivity | vm_compute; discriminate].
Defined.

Lemma wait_loop_ends : forall probes w,
  In false probes ->
  exists w1, wait_loop probes w = Some w1 /\ no_kill_step w w1.
Proof.
  induction probes as [|a probes IH]; intros w Hin; [destruct Hin|].
  cbn [wait_loop].
  pose proof (no_kill_isProcessAlive a w) as Q.
  destruct (isProcessAlive a w) as [x w1] eqn:E. cbn [snd] in Q.
  destruct x.
  - assert (Hin' : In false probes).
    { destruct Hin as [->|Hin]; [|exact Hin].
      unfold isProcessAlive in E. destruct (process (inst w));
        [injection E as E _; discriminate|].
      destruct (0 <? pid (inst w)); injection E as E _; discriminate. }
    destruct (IH w1 Hin') as (w2 & E2 & Q2).
    exists w2. split; [exact E2 | exact (no_kill_trans _ _ _ Q Q2)].
  - exists w1. split; [reflexivity | exact Q].
Qed.



(** X21.  [Wait] on an instance without process handle and without pid,
    as [AttachContext] returns it, does not wait: it returns [nil] at
    the first test, without probing, and has by then closed the
    transport and removed the socket file of a machine it knows nothing
    about. *)
Theorem Wait_without_pid_returns_at_once waitErr answer probes w :
  without_pid (inst w) ->
  Wait waitErr (answer :: probes) w = Some (cleanup w, None)
  /\ signals (added w (cleanup w)) = [].
Proof.
  intros [Hp Hpid]. unfold Wait. rewrite Hp. cbn [wait_loop].
  unfold isProcessAlive. rewrite Hp.
  assert ((0 <? pid (inst w)) = false) as -> by (apply Z.ltb_ge; exact Hpid).
  split; [reflexivity|].
  destruct (cleanup_trace w) as (l & Ht & Hl).
  rewrite (added_app w (cleanup w) l Ht). unfold signals. clear Ht.
  induction Hl as [|e l' He _ IH]; [reflexivity|].
  cbn [List.filter]. rewrite He. exact IH.
Qed.

Lemma Wait_without_pid_returns_at_once_witness :
  let w := world_of (attached "mon" "/run/qemu/mon.sock" 0%nat) in
  Wait None [true] w = Some (cleanup w, None)
  /\ "/run/qemu/mon.sock" ∉ files (cleanup w).
Proof.
  intros w. split.
  - refine (proj1 (Wait_without_pid_returns_at_once None true [] w _)).
    split; [reflexivity | vm_compute; discriminate].
  - vm_compute. intros H. discriminate H.
Defined.

End StopFacts.

(* ================================================================= *)
(** ** Network devices *)
(* ================================================================= *)

Module NetFacts.
Import StrFacts PCI PCIFacts Disk Net Config NetBackends.

Lemma Join_two (a b : string) (rest : list string) :
  exists tl, GoStr.Join (a :: b :: rest) "," = a +:+ "," +:+ b +:+ tl.
Proof.
  cbn [GoStr.Join]. destruct rest as [|c rest].
  - exists EmptyString. rewrite append_nil_r. reflexivity.
  - eexists. rewrite ?append_assoc. reflexivity.
Qed.

Lemma Join_three (a b c : string) (rest : list string) :
  exists tl, GoStr.Join (a :: b :: c :: rest) "," = a +:+ "," +:+ b +:+ "," +:+ c +:+ tl.
Proof.
  change (GoStr.Join (a :: b :: c :: rest) ",")
    with (a +:+ "," +:+ GoStr.Join (b :: c :: rest) ",").
  destruct (Join_two b c rest) as [tl ->]. exists tl. reflexivity.
Qed.

Lemma netdev_line k id :
  exists tl,
    AnyBuildNetdevArgs (pack_net k) id
    = ["-netdev"; net_name k +:+ ",id=" +:+ id +:+ tl].
Proof.
  destruct k; unfold AnyBuildNetdevArgs; cbn; unfold netdev; cbn [app];
    match goal with
    | |- context [GoStr.Join (?a :: ?b :: ?rest) ","] =>
        destruct (Join_two a b rest) as [tl ->]
    end;
    exists tl; rewrite ?append_assoc; reflexivity.
Qed.

(** X22.  For each of the six network back-ends, [buildNetworkArgs]
    writes one [-netdev] and one [-device] argument that belong
    together: the netdev is of the back-end's type and carries the id of
    the configuration ([net0] when none is given), and the device, of
    the configured model ([virtio-net-pci] when none is given), names
    that same id as its [netdev]. *)
Theorem nic_refers_to_its_netdev cfg k oa :
  net_Backend cfg = Some (pack_net k) ->
  alloc_ok oa ->
  exists ntl dtl oa',
    buildNetworkArgs (Some cfg) oa
    = Ok ([ "-netdev"; net_name k +:+ ",id=" +:+ net_id cfg +:+ ntl;
            "-device"; net_model cfg +:+ ",netdev=" +:+ net_id cfg
                       +:+ ",id=" +:+ net_id cfg +:+ "-device" +:+ dtl ], oa').
Proof.
  intros Hbe Hoa. unfold buildNetworkArgs. rewrite Hbe. fold (net_id cfg) (net_model cfg).
  destruct (netdev_line k (net_id cfg)) as [ntl ->]. exists ntl.
  assert (Hdev : forall extra, exists dtl,
            GoStr.Join (([net_model cfg; "netdev=" +:+ net_id cfg;
                          "id=" +:+ net_id cfg +:+ "-device"]
                         ++ (if nonempty (net_MACAddr cfg)
                             then ["mac=" +:+ net_MACAddr cfg] else []))
                        ++ extra) ","
            = net_model cfg +:+ ",netdev=" +:+ net_id cfg
              +:+ ",id=" +:+ net_id cfg +:+ "-device" +:+ dtl).
  { intros extra. cbn [app].
    match goal with
    | |- context [GoStr.Join (?a :: ?b :: ?c :: ?rest) ","] =>
        destruct (Join_three a b c rest) as [tl ->]
    end.
    exists tl. rewrite ?append_assoc. reflexivity. }
  cbv zeta.
  destruct oa as [a|].
  - destruct (pci_model (net_model cfg)).
    + destruct (Alloc_fresh a (Hoa a eq_refl)) as (addr & a' & -> & _).
      destruct (Hdev (["bus=" +:+ Bus a; "addr=" +:+ addr]
                      ++ part_pos "bootindex" (net_BootIndex cfg))) as [dtl ->].
      exists dtl, (Some a'). reflexivity.
    + destruct (Hdev (part_pos "bootindex" (net_BootIndex cfg))) as [dtl ->].
      exists dtl, (Some a). reflexivity.
  - destruct (Hdev (part_pos "bootindex" (net_BootIndex cfg))) as [dtl ->].
    exists dtl, None. reflexivity.
Qed.

Lemma nic_refers_to_its_netdev_witness :
  let tap := {| tap_Ifname := "tap0"; tap_Bridge := "br0"; tap_Script := "no";
                tap_DownScript := "no"; tap_VHost := true; tap_Queues := 4;
                tap_FD := 0 |} in
  let cfg := {| net_ID := EmptyString; net_Backend := Some (pack_net (KTap tap));
                net_Model := "e1000"; net_MACAddr := "52:54:00:12:34:56";
                net_BootIndex := 0 |} in
  exists ntl dtl oa',
    buildNetworkArgs (Some cfg) (Some (newPCISlotAllocator true))
    = Ok ([ "-netdev"; "tap,id=net0" +:+ ntl;
            "-device"; "e1000,netdev=net0,id=net0-device" +:+ dtl ], oa').
Proof.
  intros tap cfg.
  refine (nic_refers_to_its_netdev cfg (KTap tap) (Some (newPCISlotAllocator true))
            eq_refl _).
  intros a [= <-]. exact (new_fresh true).
Defined.

End NetFacts.

(* ================================================================= *)
(** ** Throttled disks *)
(* ================================================================= *)

Module ThrottleFacts.
Import StrFacts PCI PCIFacts Json Disk DiskFacts Throttled.

(** X23.  A throttled disk is chained in order: the throttle-group
    object comes first, then the block devices of the back-end, then a
    [throttle] block device named [<id>-throttle] that sits on the top
    node of the back-end ([<id>-iscsi] for iSCSI, [<id>-format]
    otherwise) and names the group, and last the device, whose drive is
    the throttle node. *)
Theorem throttled_disk_is_chained quote d be t oa :
  Backend d = Some be ->
  Throttle d = Some t ->
  Group t <> EmptyString ->
  alloc_ok oa ->
  exists grp o devType suffix oa',
    buildDiskArgs quote (Some d) oa
    = Ok ([ "-object"; "throttle-group,id=" +:+ Group t +:+ grp ]
          ++ AnyBuildBlockdevArgs be (disk_id d)
          ++ [ "-blockdev"; Marshal quote o;
               "-device"; devType +:+ ",drive=" +:+ (disk_id d +:+ "-throttle")
                          +:+ ",id=" +:+ disk_id d +:+ "-device" +:+ suffix ], oa')
    /\ field "driver" o = Some (JStr "throttle")
    /\ field "node-name" o = Some (JStr (disk_id d +:+ "-throttle"))
    /\ field "file" o = Some (JStr (top_node be (disk_id d)))
    /\ field "throttle-group" o = Some (JStr (Group t)).
Proof.
  intros Hbe Ht Hg Hoa. apply nonempty_true in Hg.
  unfold buildDiskArgs. rewrite Hbe. unfold throttled. rewrite Ht, Hg.
  fold (top_node be (disk_id d)).
  unfold BuildThrottleGroupArgs, BuildThrottleBlockdevArgs. rewrite Hg. cbn [negb].
  set (id := disk_id d).
  set (iface := if nonempty (Interface d) then Interface d else "virtio").
  cbv zeta. cbn [app].
  match goal with
  | |- context [GoStr.Join (?a :: ?b :: ?rest) ","] =>
      destruct (NetFacts.Join_two a b rest) as [grp Hgrp]
  end.
  rewrite Hgrp. clear Hgrp.
  exists grp, (throttleOpts t (id +:+ "-throttle") (top_node be id)), (deviceType_of iface).
  assert (Hfields :
    field "driver" (throttleOpts t (id +:+ "-throttle") (top_node be id))
      = Some (JStr "throttle")
    /\ field "node-name" (throttleOpts t (id +:+ "-throttle") (top_node be id))
       = Some (JStr (id +:+ "-throttle"))
    /\ field "file" (throttleOpts t (id +:+ "-throttle") (top_node be id))
       = Some (JStr (top_node be id))
    /\ field "throttle-group" (throttleOpts t (id +:+ "-throttle") (top_node be id))
       = Some (JStr (Group t))).
  { unfold throttleOpts, field. repeat split;
      repeat first [ rewrite mget_mset_eq; reflexivity
                   | rewrite mget_mset_ne by discriminate ]. }
  destruct oa as [a|];
    [destruct (String.eqb iface "virtio" || String.eqb iface "nvme");
     [destruct (Alloc_fresh a (Hoa a eq_refl)) as (addr & a' & -> & _)|]|].
  - destruct (device_line_suffix d (deviceType_of iface) (id +:+ "-throttle") id
                (",bus=" +:+ Bus a +:+ ",addr=" +:+ addr)) as [sfx Hs].
    exists sfx, (Some a'). split; [|exact Hfields].
    rewrite <- Hs. rewrite <- !app_assoc. cbn [app].
    rewrite !append_assoc. reflexivity.
  - destruct (device_line_suffix d (deviceType_of iface) (id +:+ "-throttle") id
                EmptyString) as [sfx Hs].
    exists sfx, (Some a). split; [|exact Hfields].
    rewrite <- Hs. rewrite <- !app_assoc. cbn [app].
    rewrite !append_assoc, ?append_nil_r. reflexivity.
  - destruct (device_line_suffix d (deviceType_of iface) (id +:+ "-throttle") id
                EmptyString) as [sfx Hs].
    exists sfx, None. split; [|exact Hfields].
    rewrite <- Hs. rewrite <- !app_assoc. cbn [app].
    rewrite !append_assoc, ?append_nil_r. reflexivity.
Qed.

Lemma throttled_disk_is_chained_witness :
  exists grp o devType suffix oa',
    buildDiskArgs plainQuote (Some slow_disk) (Some (newPCISlotAllocator true))
    = Ok ([ "-object"; "throttle-group,id=slow" +:+ grp ]
          ++ AnyBuildBlockdevArgs (pack plainQuote (KFile qcow_file)) "disk0"
          ++ [ "-blockdev"; Marshal plainQuote o;
               "-device"; devType +:+ ",drive=disk0-throttle,id=disk0-device" +:+ suffix ],
          oa')
    /\ field "file" o = Some (JStr "disk0-format").
Proof.
  destruct (throttled_disk_is_chained plainQuote slow_disk
              (pack plainQuote (KFile qcow_file)) slow_group
              (Some (newPCISlotAllocator true)) eq_refl eq_refl)
    as (grp & o & devType & suffix & oa' & E & _ & _ & Hf & _).
  - discriminate.
  - intros a [= <-]. exact (new_fresh true).
  - exists grp, o, devType, suffix, oa'. split; [exact E | exact Hf].
Defined.

End ThrottleFacts.

(* ================================================================= *)
(** ** The composer: what every command line has *)
(* ================================================================= *)

Module ComposerFacts.
Import StrFacts PCI PCIFacts Json Disk Net Config Inst Simple SimpleFacts.
Import BuilderFacts Helpers Builder.

Section Emits.
Variable P : list string -> Prop.
Hypothesis P_nil : P [].
Hypothesis P_app : forall l1 l2, P l1 -> P l2 -> P (l1 ++ l2).

Lemma emits_ret {A} (x : A) : emits P (ret x).
Proof. intros b H. exists x, b, []. rewrite app_nil_r. auto 10. Qed.

Lemma emits_emit l : P l -> emits P (emit l).
Proof. intros Hl b H. eexists tt, _, l. simpl. auto 10. Qed.

Lemma emits_bus : emits P bus.
Proof. intros b H. eexists _, b, []. rewrite app_nil_r. unfold bus. auto 10. Qed.

Lemma emits_cfg : emits P cfg.
Proof. intros b H. eexists _, b, []. rewrite app_nil_r. unfold cfg. auto 10. Qed.

Lemma emits_q35 : emits P q35.
Proof. intros b H. eexists _, b, []. rewrite app_nil_r. unfold q35. auto 10. Qed.

Lemma emits_alloc : emits P alloc.
Proof.
  intros b H. destruct (Alloc_fresh _ H) as (addr & a' & E & Hf & _).
  unfold alloc. rewrite E. eexists addr, _, []. simpl. rewrite app_nil_r. auto 10.
Qed.

Lemma emits_bind {A B} (m : M A) (f : A -> M B) :
  emits P m -> (forall x, emits P (f x)) -> emits P (bind m f).
Proof.
  intros Hm Hf b H.
  destruct (Hm b H) as (x & b1 & l1 & E1 & F1 & C1 & Q1 & A1 & P1).
  destruct (Hf x b1 F1) as (y & b2 & l2 & E2 & F2 & C2 & Q2 & A2 & P2).
  exists y, b2, (l1 ++ l2). unfold bind. rewrite E1.
  split; [exact E2|]. split; [exact F2|].
  split; [congruence|]. split; [congruence|].
  split; [rewrite A2, A1, app_assoc; reflexivity | apply P_app; assumption].
Qed.

Lemma emits_forM {A} (l : list A) (f : A -> M unit) :
  (forall x, emits P (f x)) -> emits P (forM_ l f).
Proof.
  intros Hf. induction l as [|x l IH]; simpl.
  - apply emits_ret.
  - apply emits_bind; [apply Hf | intros _; exact IH].
Qed.

Lemma emits_forI {A} (l : list A) (f : Z -> A -> M unit) :
  (forall i x, emits P (f i x)) -> forall i, emits P (forI_ i l f).
Proof.
  intros Hf. induction l as [|x l IH]; intros i; simpl.
  - apply emits_ret.
  - apply emits_bind; [apply Hf | intros _; apply IH].
Qed.

Lemma emits_with_alloc f :
  (forall a, fresh_above a ->
     exists l oa, f (Some a) = Ok (l, oa) /\ fresh_above (default a oa) /\ P l) ->
  emits P (with_alloc f).
Proof.
  intros Hf b H. destruct (Hf _ H) as (l & oa & E & F & Pl).
  unfold with_alloc. rewrite E. eexists tt, _, l. simpl. auto 10.
Qed.

End Emits.

(** Walks through a step; [tac] settles the property of each emitted
    list. *)
Ltac emits_step P_nil P_app tac :=
  repeat first
    [ assumption
    | apply (emits_ret _ P_nil)
    | apply (emits_bus _ P_nil)
    | apply (emits_cfg _ P_nil)
    | apply (emits_q35 _ P_nil)
    | apply (emits_alloc _ P_nil)
    | apply (emits_bind _ P_app); [|intros]
    | apply (emits_forM _ P_nil P_app); intros
    | apply (emits_forI _ P_nil P_app); intros
    | apply emits_emit; solve [tac]
    | match goal with
      | |- emits _ (match ?x with _ => _ end) => destruct x
      end ].

(** *** Every step keeps the builder in order *)

Lemma anything_nil : anything [].
Proof. exact I. Qed.

Lemma anything_app l1 l2 : anything l1 -> anything l2 -> anything (l1 ++ l2).
Proof. intros _ _. exact I. Qed.

Ltac orderly_step := emits_step anything_nil anything_app ltac:(exact I).

Section OrderlySteps.
Variable quote : string -> string.

Lemma orderly_buildSATAController : emits anything buildSATAController.
Proof. unfold buildSATAController. orderly_step. Qed.

Lemma orderly_buildDisks : emits anything (buildDisks quote).
Proof.
  unfold buildDisks. orderly_step.
  apply emits_with_alloc. intros a Ha.
  match goal with
  | |- context [buildDiskArgs quote ?d] =>
      destruct (buildDiskArgs_returns quote d a Ha) as (l & oa & E & F)
  end.
  exists l, oa. repeat split; assumption.
Qed.

Lemma orderly_buildCDROMs : emits anything buildCDROMs.
Proof. unfold buildCDROMs. orderly_step. Qed.

Lemma orderly_buildNetworks : emits anything buildNetworks.
Proof.
  unfold buildNetworks. orderly_step.
  apply emits_with_alloc. intros a Ha.
  match goal with
  | |- context [buildNetworkArgs ?n] =>
      destruct (buildNetworkArgs_returns n a Ha) as (l & oa & E & F)
  end.
  exists l, oa. repeat split; assumption.
Qed.

Lemma orderly_buildVirtioSerial : emits anything buildVirtioSerial.
Proof. unfold buildVirtioSerial, virtio_port. orderly_step. Qed.

Lemma orderly_buildChardevs : emits anything buildChardevs.
Proof. unfold buildChardevs. orderly_step. Qed.

Lemma orderly_buildBalloon : emits anything buildBalloon.
Proof. unfold buildBalloon. orderly_step. Qed.

Lemma orderly_buildMiscDevices : emits anything buildMiscDevices.
Proof. unfold buildMiscDevices. orderly_step. Qed.

End OrderlySteps.

(** *** The socket scan passes over everything built before the monitor *)

Lemma quiet_nil : quiet [].
Proof. split; [intros y rest _; reflexivity | reflexivity]. Qed.

Lemma quiet_app l1 l2 : quiet l1 -> quiet l2 -> quiet (l1 ++ l2).
Proof.
  intros [H1 F1] [H2 F2]. split.
  - intros y rest Hy. destruct l2 as [|f t].
    + rewrite app_nil_r. apply H1, Hy.
    + rewrite <- app_assoc. cbn [app]. rewrite (H1 f _ F2).
      exact (H2 y rest Hy).
  - destruct l1; [exact F2 | exact F1].
Qed.

(** An option and its value, the option being neither [-chardev] nor of
    the form [socket,...]. *)
Lemma quiet_pair flag v :
  String.eqb flag "-chardev" = false ->
  GoStr.HasPrefix flag "socket," = false ->
  quiet [flag; v].
Proof.
  intros Hf Hp. split; [|exact Hp].
  intros y rest Hy. cbn [app].
  rewrite (find_skip_flag flag v _ Hf). apply find_skip_value, Hy.
Qed.

Ltac quiet_list :=
  repeat first
    [ assumption
    | apply quiet_nil
    | apply quiet_pair; reflexivity
    | apply quiet_app
    | match goal with
      | |- quiet (match ?x with _ => _ end) => destruct x
      | |- quiet (if ?x then _ else _) => destruct x
      end ].

Lemma quiet_buildMachineArgs m : quiet (buildMachineArgs m).
Proof. unfold buildMachineArgs. quiet_list. Qed.

Lemma quiet_buildCPUArgs c mem : quiet (buildCPUArgs c mem).
Proof. unfold buildCPUArgs. destruct c; cbv zeta; quiet_list. Qed.

Lemma quiet_buildVNCArgs v : quiet (buildVNCArgs v).
Proof. unfold buildVNCArgs. quiet_list. Qed.

Lemma quiet_buildSpiceArgs s : quiet (buildSpiceArgs s).
Proof. unfold buildSpiceArgs. quiet_list. Qed.

Lemma quiet_buildSecretArgs s : quiet (buildSecretArgs s).
Proof. unfold buildSecretArgs. quiet_list. Qed.

Ltac quiet_step :=
  emits_step quiet_nil quiet_app
    ltac:(first [ apply quiet_buildMachineArgs | apply quiet_buildCPUArgs
                | apply quiet_buildVNCArgs | apply quiet_buildSpiceArgs
                | apply quiet_buildSecretArgs | quiet_list ]).

Section QuietSteps.
Variable quote : string -> string.

Lemma quiet_buildMachine : emits quiet buildMachine.
Proof. unfold buildMachine. quiet_step. Qed.

Lemma quiet_buildEFI : emits quiet (buildEFI quote).
Proof. unfold buildEFI. quiet_step. Qed.

Lemma quiet_buildCPU : emits quiet buildCPU.
Proof. unfold buildCPU. quiet_step. Qed.

Lemma quiet_buildMemory : emits quiet buildMemory.
Proof. unfold buildMemory. quiet_step. Qed.

Lemma quiet_buildRTC : emits quiet buildRTC.
Proof. unfold buildRTC. quiet_step. Qed.

Lemma quiet_buildBoot : emits quiet buildBoot.
Proof. unfold buildBoot. quiet_step. Qed.

Lemma quiet_buildSecrets : emits quiet buildSecrets.
Proof. unfold buildSecrets. quiet_step. Qed.

Lemma quiet_buildVideoDevice v : emits quiet (buildVideoDevice v).
Proof. unfold buildVideoDevice. quiet_step. Qed.

Lemma quiet_buildDisplay : emits quiet buildDisplay.
Proof.
  unfold buildDisplay. quiet_step; apply quiet_buildVideoDevice.
Qed.

Lemma quiet_buildAudio : emits quiet buildAudio.
Proof. unfold buildAudio. quiet_step. Qed.

End QuietSteps.

Section Build.
Variable quote : string -> string.

(** The head of [Build]: the name, then a list the socket scan passes
    over. *)
Lemma buildHead_quiet name b :
  fresh_above (pciAlloc b) ->
  exists b1 l,
    buildHead quote name b = Ok (tt, b1)
    /\ fresh_above (pciAlloc b1)
    /\ config b1 = config b
    /\ isQ35 b1 = isQ35 b
    /\ args b1 = name_args name ++ l
    /\ quiet l.
Proof.
  intros H. unfold buildHead.
  match goal with
  | |- context [bind (if nonempty name then _ else _) ?k] =>
      assert (HK : emits quiet (k tt))
  end.
  { cbv beta.
    pose proof quiet_buildMachine. pose proof (quiet_buildEFI quote).
    pose proof quiet_buildCPU. pose proof quiet_buildMemory.
    pose proof quiet_buildRTC. pose proof quiet_buildBoot.
    pose proof quiet_buildSecrets. pose proof quiet_buildDisplay.
    pose proof quiet_buildAudio.
    quiet_step. }
  destruct (HK (mkBuilder (config b) (pciAlloc b) (name_args name) (isQ35 b)) H)
    as ([] & b1 & l & E & F & C & Q & A & Pl).
  exists b1, l. cbn [config isQ35 args] in *.
  split; [|auto 10].
  rewrite <- E. unfold bind at 1 2, reset_args, name_args.
  destruct (nonempty name); reflexivity.
Qed.



End Build.



Lemma forM_emit {A} (g : A -> list string) : forall (l : list A) b,
  forM_ l (fun x => emit (g x)) b
  = Ok (tt, mkBuilder (config b) (pciAlloc b) (args b ++ concat (map g l)) (isQ35 b)).
Proof.
  induction l as [|x l IH]; intros b; cbn [forM_ map concat].
  - unfold ret. rewrite app_nil_r. destruct b; reflexivity.
  - unfold bind, emit at 1. rewrite IH. cbn [config pciAlloc args isQ35].
    rewrite <- app_assoc. reflexivity.
Qed.

Section Agent.
Variable quote : string -> string.

(** The controller and the ports, when there is a virtio-serial
    configuration. *)
Lemma buildVirtioSerial_lines b vs :
  fresh_above (pciAlloc b) ->
  VirtioSerial (config b) = Some vs ->
  exists b1 ctl,
    buildVirtioSerial b = Ok (tt, b1)
    /\ fresh_above (pciAlloc b1)
    /\ config b1 = config b
    /\ args b1
       = args b ++ ["-device"; "virtio-serial-pci,id=virtio-serial0," +:+ ctl]
                ++ concat (map port_line (vs_Ports vs)).
Proof.
  intros H Hvs. unfold buildVirtioSerial, bind, cfg, bus. rewrite Hvs.
  unfold alloc. destruct (Alloc_fresh _ H) as (addr & a' & -> & Hf & _).
  unfold emit at 1.
  change virtio_port with (fun p => emit (port_line p)).
  rewrite forM_emit. cbn [config pciAlloc args isQ35].
  eexists _, (GoStr.Join (["bus=" +:+ Bus (pciAlloc b); "addr=" +:+ addr]
                          ++ part_pos "max_ports" (vs_MaxPorts vs)) ",").
  split; [reflexivity|]. cbn [config pciAlloc args isQ35].
  split; [exact Hf|]. split; [reflexivity|].
  rewrite <- app_assoc. reflexivity.
Qed.

Lemma buildChardevs_lines b :
  buildChardevs b
  = Ok (tt, mkBuilder (config b) (pciAlloc b)
                      (args b ++ concat (map buildChardevArgs (Chardevs (config b))))
                      (isQ35 b)).
Proof. unfold buildChardevs, bind, cfg. apply forM_emit. Qed.

(** Where the ports and the chardevs of a configuration with a
    virtio-serial part stand in the command line. *)
Lemma Build_serial_lines (c : VMConfig) vs name socketPath :
  nil_free c = true ->
  VirtioSerial c = Some vs ->
  exists pre ctl mid post,
    Build quote (NewVMBuilder (Some c)) name socketPath
    = Ok (pre ++ ["-device"; "virtio-serial-pci,id=virtio-serial0," +:+ ctl]
              ++ concat (map port_line (vs_Ports vs))
              ++ mid
              ++ concat (map buildChardevArgs (Chardevs c))
              ++ post).
Proof.
  intros Hn Hvs. apply andb_true_iff in Hn as [Hs Hu].
  destruct (buildHead_quiet quote name (NewVMBuilder (Some c)) (new_fresh _))
    as (b1 & l1 & E1 & F1 & C1 & _ & _ & _).
  destruct (steady_buildControlSocket socketPath b1 F1)
    as ([] & b2 & l2 & E2 & F2 & C2 & A2).
  assert (HA : emits anything
                 (buildSATAController ;; buildDisks quote ;; buildCDROMs ;;
                  buildNetworks)).
  { pose proof orderly_buildSATAController. pose proof (orderly_buildDisks quote).
    pose proof orderly_buildCDROMs. pose proof orderly_buildNetworks.
    orderly_step. }
  destruct (HA b2 F2) as ([] & b3 & l3 & E3 & F3 & C3 & _ & A3 & _).
  assert (Hc3 : config b3 = c) by (rewrite C3, C2, C1; reflexivity).
  destruct (buildVirtioSerial_lines b3 vs F3) as (b4 & ctl & E4 & F4 & C4 & A4);
    [rewrite Hc3; exact Hvs|].
  destruct (buildSerials_returns b4 F4) as ([] & b5 & l5 & E5 & F5 & C5 & A5);
    [rewrite C4, Hc3; exact Hs|].
  pose proof (buildChardevs_lines b5) as E6.
  set (b6 := mkBuilder (config b5) (pciAlloc b5)
                       (args b5 ++ concat (map buildChardevArgs (Chardevs (config b5))))
                       (isQ35 b5)) in E6.
  destruct (buildUSB_returns b6 F5) as ([] & b7 & l7 & E7 & F7 & C7 & A7);
    [unfold b6; cbn [config]; rewrite C5, C4, Hc3; exact Hu|].
  assert (HB : emits anything
                 (buildBalloon ;; buildMiscDevices ;;
                  c' <- cfg ;; emit (ExtraArgs c'))).
  { pose proof orderly_buildBalloon. pose proof orderly_buildMiscDevices.
    orderly_step. }
  destruct (HB b7 F7) as ([] & b8 & l8 & E8 & F8 & C8 & _ & A8 & _).
  exists (args b3), ctl, l5, (l7 ++ l8).
  unfold Build, BuildM. unfold bind at 1. rewrite E1.
  unfold bind at 1. rewrite E2.
  unfold bind at 1, buildTail.
  revert E3 E8. unfold bind.
  destruct (buildSATAController b2) as [[[] s1]|]; [|discriminate].
  destruct (buildDisks quote s1) as [[[] s2]|]; [|discriminate].
  destruct (buildCDROMs s2) as [[[] s3]|]; [|discriminate].
  intros E3. rewrite E3, E4, E5, E6, E7.
  destruct (buildBalloon b7) as [[[] s5]|]; [|discriminate].
  destruct (buildMiscDevices s5) as [[[] s6]|]; [|discriminate].
  intros E8. rewrite E8. f_equal.
  rewrite A8, A7. unfold b6. cbn [args]. rewrite A5, A4, C5, C4, Hc3.
  rewrite <- !app_assoc. reflexivity.
Qed.


(** [WithSpiceAgent] does the same for the SPICE agent: the
    port [com.redhat.spice.0] names the chardev [vdagent0], which is a
    [spicevmc] channel called [vdagent]. *)
Lemma WithSpiceAgent_is_wired (c : VMConfig) (name socketPath : string) :
  nil_free c = true ->
  exists pre ctl mid1 mid2 post,
    Build quote (NewVMBuilder (Some (WithSpiceAgent c))) name socketPath
    = Ok (pre
          ++ ["-device"; "virtio-serial-pci,id=virtio-serial0," +:+ ctl]
          ++ mid1
          ++ ["-device";
              "virtserialport,bus=virtio-serial0.0,chardev=vdagent0,name=com.redhat.spice.0"]
          ++ mid2
          ++ ["-chardev"; "spicevmc,id=vdagent0,wait=off,name=vdagent"]
          ++ post).
Proof.
  intros Hn. set (c' := WithSpiceAgent c).
  destruct (add_port vdagent_port (VirtioSerial c)) as [vs|] eqn:Evs;
    [|destruct (VirtioSerial c); discriminate].
  destruct (Build_serial_lines c' vs name socketPath Hn Evs)
    as (pre & ctl & mid & post & E).
  assert (Hports : exists ps, vs_Ports vs = ps ++ [vdagent_port]).
  { destruct (VirtioSerial c) as [v|]; injection Evs as <-;
      [exists (vs_Ports v) | exists []]; reflexivity. }
  destruct Hports as [ps Hps].
  exists pre, ctl, (concat (map port_line ps)),
    (mid ++ concat (map buildChardevArgs (Chardevs c))), post.
  rewrite E, Hps. f_equal.
  change (Chardevs c') with (Chardevs c ++ [Some vdagent_chardev]).
  rewrite !map_app, !concat_app. cbn [map concat].
  change (buildChardevArgs (Some vdagent_chardev))
    with ["-chardev"; "spicevmc,id=vdagent0,wait=off,name=vdagent"].
  change (port_line vdagent_port)
    with ["-device";
          "virtserialport,bus=virtio-serial0.0,chardev=vdagent0,name=com.redhat.spice.0"].
  rewrite !app_nil_r, <- !app_assoc. reflexivity.
Qed.

End Agent.


End ComposerFacts.

(* ================================================================= *)
(** ** Passwords and the command line *)
(* ================================================================= *)

Module SecretsFacts.
Import StrFacts PCI PCIFacts Json Disk Net Config Helpers Builder.

Section Agree.
Variables c1 c2 : VMConfig.

Lemma agree_ret {A} (x : A) : agree c1 c2 (ret x) (ret x).
Proof. intros b1 b2 H. cbn. auto. Qed.

Lemma agree_emit l1 l2 : l1 = l2 -> agree c1 c2 (emit l1) (emit l2).
Proof.
  intros -> b1 b2 (H1 & H2 & H3 & H4 & H5). cbn. split; [reflexivity|].
  unfold alike. cbn. rewrite H4. auto.
Qed.

Lemma agree_reset : agree c1 c2 reset_args reset_args.
Proof.
  intros b1 b2 (H1 & H2 & H3 & H4 & H5). cbn. split; [reflexivity|].
  unfold alike. cbn. auto.
Qed.

Lemma agree_nil_deref {A} : agree c1 c2 (@nil_deref A) (@nil_deref A).
Proof. intros b1 b2 H. reflexivity. Qed.

Lemma agree_bus : agree c1 c2 bus bus.
Proof.
  intros b1 b2 H. unfold bus. cbv beta iota.
  split; [|exact H]. destruct H as (_ & _ & H3 & _). rewrite H3. reflexivity.
Qed.

Lemma agree_q35 : agree c1 c2 q35 q35.
Proof.
  intros b1 b2 H. unfold q35. cbv beta iota.
  split; [|exact H]. destruct H as (_ & _ & _ & _ & H5). exact H5.
Qed.

Lemma agree_alloc : agree c1 c2 alloc alloc.
Proof.
  intros b1 b2 (H1 & H2 & H3 & H4 & H5). unfold alloc. rewrite H3.
  destruct (Alloc (pciAlloc b2)) as [[addr a']|e]; [|reflexivity].
  split; [reflexivity|]. unfold alike. cbn. auto.
Qed.

Lemma agree_with_alloc f : agree c1 c2 (with_alloc f) (with_alloc f).
Proof.
  intros b1 b2 (H1 & H2 & H3 & H4 & H5). unfold with_alloc. rewrite H3.
  destruct (f (Some (pciAlloc b2))) as [[l oa]|e]; [|reflexivity].
  split; [reflexivity|]. unfold alike. cbn. rewrite H4. auto.
Qed.

Lemma agree_bind {A B} (m1 m2 : M A) (f1 f2 : A -> M B) :
  agree c1 c2 m1 m2 -> (forall x, agree c1 c2 (f1 x) (f2 x)) ->
  agree c1 c2 (bind m1 f1) (bind m2 f2).
Proof.
  intros Hm Hf b1 b2 H. unfold bind. specialize (Hm b1 b2 H).
  destruct (m1 b1) as [[x1 b1']|e1], (m2 b2) as [[x2 b2']|e2];
    try contradiction; [|exact Hm].
  destruct Hm as [-> Hm]. exact (Hf x2 b1' b2' Hm).
Qed.

(** Reading the configuration: each run goes on with its own. *)
Lemma agree_cfg {B} (f1 f2 : VMConfig -> M B) :
  agree c1 c2 (f1 c1) (f2 c2) ->
  agree c1 c2 (bind cfg f1) (bind cfg f2).
Proof.
  intros Hf b1 b2 H. unfold bind, cfg.
  pose proof H as (H1 & H2 & _). rewrite H1, H2. exact (Hf b1 b2 H).
Qed.

Lemma agree_forM {A} (l : list A) (f1 f2 : A -> M unit) :
  (forall x, agree c1 c2 (f1 x) (f2 x)) ->
  agree c1 c2 (forM_ l f1) (forM_ l f2).
Proof.
  intros Hf. induction l as [|x l IH]; cbn [forM_].
  - apply agree_ret.
  - apply agree_bind; [apply Hf | intros _; exact IH].
Qed.

Lemma agree_forI {A} (l : list A) (f1 f2 : Z -> A -> M unit) :
  (forall i x, agree c1 c2 (f1 i x) (f2 i x)) ->
  forall i, agree c1 c2 (forI_ i l f1) (forI_ i l f2).
Proof.
  intros Hf. induction l as [|x l IH]; intros i; cbn [forI_].
  - apply agree_ret.
  - apply agree_bind; [apply Hf | intros _; apply IH].
Qed.

End Agree.

(** The two runs of a step side by side. *)
Ltac agree_step :=
  repeat first
    [ apply agree_ret
    | apply agree_nil_deref
    | apply agree_reset
    | apply agree_bus
    | apply agree_q35
    | apply agree_alloc
    | apply agree_with_alloc
    | apply agree_emit; reflexivity
    | apply agree_cfg
    | apply agree_bind; [|intros]
    | apply agree_forM; intros
    | apply agree_forI; intros
    | match goal with
      | |- agree _ _ (match ?x with _ => _ end) (match ?x with _ => _ end) =>
          destruct x
      end ].

(** A VNC password is written as [password=on], whatever it is. *)
Lemma vnc_password_is_not_written v p1 p2 :
  p1 <> EmptyString -> p2 <> EmptyString ->
  buildVNCArgs (Some {| vnc_Listen := vnc_Listen v; vnc_Password := p1;
                        vnc_PasswordSecret := vnc_PasswordSecret v;
                        vnc_Lossy := vnc_Lossy v; vnc_AudioDev := vnc_AudioDev v;
                        vnc_Websocket := vnc_Websocket v |})
  = buildVNCArgs (Some {| vnc_Listen := vnc_Listen v; vnc_Password := p2;
                          vnc_PasswordSecret := vnc_PasswordSecret v;
                          vnc_Lossy := vnc_Lossy v; vnc_AudioDev := vnc_AudioDev v;
                          vnc_Websocket := vnc_Websocket v |}).
Proof.
  intros H1 H2. apply nonempty_true in H1. apply nonempty_true in H2.
  unfold buildVNCArgs. cbn [vnc_Listen vnc_Password vnc_PasswordSecret vnc_Lossy
    vnc_AudioDev vnc_Websocket]. rewrite H1, H2. reflexivity.
Qed.

Section Build.
Variable quote : string -> string.

(** X27.  The VNC password of a configuration never reaches the command
    line: for any two passwords that are not empty, [Build] composes the
    same arguments (or panics alike), so what a process listing shows
    does not depend on the password. *)
Theorem vnc_password_stays_off_the_command_line
    (c : VMConfig) (p1 p2 name socketPath : string) :
  p1 <> EmptyString -> p2 <> EmptyString ->
  Build quote (NewVMBuilder (Some (with_vnc_password p1 c))) name socketPath
  = Build quote (NewVMBuilder (Some (with_vnc_password p2 c))) name socketPath.
Proof.
  intros H1 H2. unfold with_vnc_password.
  destruct (Display c) as [d|] eqn:Hd; [|reflexivity].
  destruct (dsp_VNC d) as [v|] eqn:Hv; [|reflexivity].
  pose proof (vnc_password_is_not_written v p1 p2 H1 H2) as Hvnc.
  match goal with
  | |- Build _ (NewVMBuilder (Some ?x1)) _ _ = Build _ (NewVMBuilder (Some ?x2)) _ _ =>
      set (c1 := x1); set (c2 := x2)
  end.
  assert (Hb : alike c1 c2 (NewVMBuilder (Some c1)) (NewVMBuilder (Some c2))).
  { unfold alike, NewVMBuilder. cbn. auto. }
  assert (Ha : agree c1 c2 (BuildM quote name socketPath) (BuildM quote name socketPath)).
  { unfold BuildM, buildHead, buildControlSocket, buildTail,
      buildMachine, buildEFI, buildCPU, buildMemory, buildRTC, buildBoot,
      buildSecrets, buildDisplay, buildVideoDevice, buildAudio,
      buildSATAController, buildDisks, buildCDROMs, buildNetworks,
      buildVirtioSerial, virtio_port, buildSerials, serial_port, buildChardevs,
      buildUSB, usb_device, buildBalloon, buildMiscDevices.
    repeat first
      [ progress agree_step
      | progress (unfold c1, c2;
                  cbn [Name Arch QemuPath SocketDir Machine CPU Memory EFI Boot
                       Disks CDROMs Networks Display Audio Serials Chardevs
                       VirtioSerial USB USBDevices Balloon RTC Secrets NoDefaults
                       ExtraArgs dsp_Type dsp_VNC dsp_Spice dsp_Video];
                  fold c1 c2)
      | rewrite Hvnc ].
    intros b1 b2 Hal. pose proof Hal as (_ & _ & _ & Hargs & _).
    cbv beta iota. rewrite Hargs. split; [reflexivity | exact Hal]. }
  specialize (Ha _ _ Hb). unfold Build.
  destruct (BuildM quote name socketPath (NewVMBuilder (Some c1))) as [[l1 b1]|e1],
           (BuildM quote name socketPath (NewVMBuilder (Some c2))) as [[l2 b2]|e2];
    try contradiction.
  - destruct Ha as [-> _]. reflexivity.
  - rewrite Ha. reflexivity.
Qed.

End Build.

Lemma vnc_password_stays_off_the_command_line_witness :
  Build plainQuote (NewVMBuilder (Some (vnc_vm "s3cret"))) "vnc-vm" "/run/vnc-vm.sock"
  = Build plainQuote (NewVMBuilder (Some (vnc_vm "hunter2"))) "vnc-vm" "/run/vnc-vm.sock".
Proof.
  unfold vnc_vm.
  apply (vnc_password_stays_off_the_command_line plainQuote _ "s3cret" "hunter2");
    discriminate.
Defined.

End SecretsFacts.

(* ================================================================= *)
(** ** Display clients *)
(* ================================================================= *)

Module DisplayFacts.
Import Inst Display.

(** X28.  Handing a client connection to QEMU never leaks the
    duplicated descriptor and never registers an unknown one: whenever
    [connToFd] produced a descriptor, it is closed exactly once, as the
    last step, on the success path and on both error paths; [add_client]
    is sent only after [getfd] succeeded, and under the name [getfd]
    registered the descriptor with. *)
Theorem client_fd_is_closed_on_every_path
    (protocol : string) (fd : Z) (skipAuth : bool) (now : Z) (getfd add : ExecOutcome) :
  let '(steps, err) := AddDisplayClient protocol true (inl fd) skipAuth now getfd add in
  last steps = Some (CloseFd fd)
  /\ List.filter (fun s => match s with CloseFd _ => true | _ => false end) steps
     = [CloseFd fd]
  /\ (forall p n a, In (AddClient p n a) steps ->
        (exists payload, getfd = Returned payload)
        /\ steps = [GetFd n fd; AddClient protocol n skipAuth; CloseFd fd])
  /\ (err = None <-> (exists p1 p2, getfd = Returned p1 /\ add = Returned p2)).
Proof.
  unfold AddDisplayClient, addClientFd. cbn [negb].
  destruct getfd as [p1|e1]; [destruct add as [p2|e2]|]; cbn [app last List.filter];
    (split; [reflexivity|]); (split; [reflexivity|]); split.
  - intros p n a [H|[H|[H|[]]]]; try discriminate. injection H as <- <- <-. eauto.
  - split; [eauto | reflexivity].
  - intros p n a [H|[H|[H|[]]]]; try discriminate. injection H as <- <- <-. eauto.
  - split; [discriminate | intros (? & ? & _ & ?); discriminate].
  - intros p n a [H|[H|[]]]; discriminate.
  - split; [discriminate | intros (? & ? & ? & _); discriminate].
Qed.

End DisplayFacts.

(* ================================================================= *)
(** ** Locating the emulator *)
(* ================================================================= *)

Module LocateFacts.
Import StrFacts Disk Locate.

Section FileSystem.
Variable GOARCH : string.
Variable isFile : string -> bool.
Variable LookPath : string -> option string.
Variable Join : string -> string -> string.

Lemma search_sound dirs binaryName path :
  search isFile Join dirs binaryName = Some path ->
  exists dir, In dir dirs /\ isFile (Join dir binaryName) = true
              /\ path = Join dir binaryName.
Proof.
  induction dirs as [|d dirs IH]; cbn [search]; [discriminate|].
  destruct (isFile (Join d binaryName)) eqn:E.
  - intros [= <-]. exists d. split; [left; reflexivity | auto].
  - intros H. destruct (IH H) as (dir & Hin & Hf & Hp).
    exists dir. split; [right; exact Hin | auto].
Qed.

Lemma search_complete dirs binaryName :
  search isFile Join dirs binaryName = None ->
  forall dir, In dir dirs -> isFile (Join dir binaryName) = false.
Proof.
  induction dirs as [|d dirs IH]; cbn [search]; [intros _ dir []|].
  destruct (isFile (Join d binaryName)) eqn:E; [discriminate|].
  intros H dir [<-|Hin]; [exact E | exact (IH H dir Hin)].
Qed.

(** X29.  [LocateQemu] is sound and complete for a supported
    architecture: what it returns is one of the places it promises to
    look at (the custom path itself when that is a file, the binary
    under the custom path, the binary on [PATH], the binary in one of
    the known directories), and it answers [QemuNotFound] only when none of
    these places holds the binary.  For an architecture outside its
    table it fails without looking at any path, the custom path
    included. *)
Theorem LocateQemu_sound_and_complete (arch customPath : string) :
  let arch' := if nonempty arch then arch else GOARCH in
  match QemuArchName arch' with
  | None => LocateQemu GOARCH isFile LookPath Join arch customPath
            = inr (UnsupportedArch arch')
  | Some qemuArch =>
      let binaryName := "qemu-system-" +:+ qemuArch in
      match LocateQemu GOARCH isFile LookPath Join arch customPath with
      | inl path => candidate isFile LookPath Join customPath binaryName path
      | inr e =>
          e = QemuNotFound
          /\ forall path, ~ candidate isFile LookPath Join customPath binaryName path
      end
  end.
Proof.
  cbv zeta. unfold LocateQemu, QemuArchName.
  destruct (lookup_arch _ archToQemu) as [qemuArch|]; [|reflexivity].
  set (binaryName := "qemu-system-" +:+ qemuArch).
  destruct (nonempty customPath) eqn:Hc; cbn [andb].
  - apply nonempty_true in Hc.
    destruct (isFile customPath) eqn:F1; [left; auto|].
    destruct (isFile (Join customPath binaryName)) eqn:F2; [right; left; auto|].
    destruct (LookPath binaryName) as [p|] eqn:L; [right; right; left; exact L|].
    destruct (search isFile Join qemuSearchPaths binaryName) as [p|] eqn:S.
    + right; right; right. apply search_sound, S.
    + split; [reflexivity|].
      intros path [(_ & H & _)|[(_ & H & _)|[H|(dir & Hin & H & _)]]];
        try congruence.
      rewrite (search_complete _ _ S dir Hin) in H. discriminate.
  - assert (customPath = EmptyString) as Hce.
    { unfold nonempty in Hc. apply negb_false_iff, String.eqb_eq in Hc. exact Hc. }
    destruct (LookPath binaryName) as [p|] eqn:L; [right; right; left; exact L|].
    destruct (search isFile Join qemuSearchPaths binaryName) as [p|] eqn:S.
    + right; right; right. apply search_sound, S.
    + split; [reflexivity|].
      intros path [(H & _)|[(H & _)|[H|(dir & Hin & H & _)]]]; try congruence.
      rewrite (search_complete _ _ S dir Hin) in H. discriminate.
Qed.

End FileSystem.

End LocateFacts.

(* ================================================================= *)
(** ** builder.go: entries left nil *)
(* ================================================================= *)

Module NilEntryFacts.
Import StrFacts PCI PCIFacts Json Disk Net Config Builder BuilderFacts.

(** The loop of [buildSerials] stops with a panic at the first [nil]
    entry. *)
Lemma serial_ports_panic (l : list (option SerialConfig)) :
  no_nil l = false ->
  forall i b, forI_ i l serial_port b = Panic nil_dereference.
Proof.
  induction l as [|[x|] l IH]; cbn [no_nil forallb andb]; intros H i b.
  - discriminate H.
  - cbn [forI_]. unfold bind at 1. unfold serial_port, bind, emit.
    apply IH, H.
  - reflexivity.
Qed.

Lemma usb_devices_panic (l : list (option USBDeviceConfig)) :
  no_nil l = false ->
  forall i b, forI_ i l usb_device b = Panic nil_dereference.
Proof.
  induction l as [|[x|] l IH]; cbn [no_nil forallb andb]; intros H i b.
  - discriminate H.
  - cbn [forI_]. unfold bind at 1. unfold usb_device, emit.
    apply IH, H.
  - reflexivity.
Qed.

Lemma buildSerials_panics b :
  no_nil (Serials (config b)) = false -> buildSerials b = Panic nil_dereference.
Proof.
  intros H. unfold buildSerials. unfold bind at 1, cfg at 1.
  apply serial_ports_panic, H.
Qed.

Lemma buildUSB_panics b :
  fresh_above (pciAlloc b) ->
  no_nil (USBDevices (config b)) = false -> buildUSB b = Panic nil_dereference.
Proof.
  intros F H. unfold buildUSB. unfold bind at 1, cfg at 1.
  pose proof (usb_devices_panic _ H 0) as Hl. revert H Hl.
  generalize (forI_ 0 (USBDevices (config b)) usb_device). intros loop H Hl.
  destruct (Alloc_fresh _ F) as (addr & a' & E & _).
  destruct (USB (config b)), (USBDevices (config b)); try discriminate H;
    unfold bind, bus, alloc; rewrite E; unfold emit; apply Hl.
Qed.

Section Build.
Variable quote : string -> string.

Lemma buildTail_panics b :
  fresh_above (pciAlloc b) -> nil_free (config b) = false ->
  buildTail quote b = Panic nil_dereference.
Proof.
  intros H Hn. unfold buildTail.
  destruct (steady_buildSATAController b H) as ([] & b1 & l1 & E1 & F1 & C1 & A1).
  destruct (steady_buildDisks quote b1 F1) as ([] & b2 & l2 & E2 & F2 & C2 & A2).
  destruct (steady_buildCDROMs b2 F2) as ([] & b3 & l3 & E3 & F3 & C3 & A3).
  destruct (steady_buildNetworks b3 F3) as ([] & b4 & l4 & E4 & F4 & C4 & A4).
  destruct (steady_buildVirtioSerial b4 F4) as ([] & b5 & l5 & E5 & F5 & C5 & A5).
  assert (Hc5 : config b5 = config b) by (rewrite C5, C4, C3, C2, C1; reflexivity).
  unfold bind at 1. rewrite E1. unfold bind at 1. rewrite E2.
  unfold bind at 1. rewrite E3. unfold bind at 1. rewrite E4.
  unfold bind at 1. rewrite E5. unfold bind at 1.
  destruct (no_nil (Serials (config b))) eqn:Hs.
  - destruct (buildSerials_returns b5 F5) as ([] & b6 & l6 & E6 & F6 & C6 & A6);
      [rewrite Hc5; exact Hs|].
    destruct (steady_buildChardevs b6 F6) as ([] & b7 & l7 & E7 & F7 & C7 & A7).
    rewrite E6. unfold bind at 1. rewrite E7. unfold bind at 1.
    rewrite buildUSB_panics; [reflexivity | exact F7 |].
    rewrite C7, C6, Hc5. unfold nil_free in Hn. rewrite Hs in Hn. exact Hn.
  - rewrite buildSerials_panics; [reflexivity|]. rewrite Hc5. exact Hs.
Qed.


End Build.

(** A serial port entry left [nil] after a good one. *)
Example Build_panics_on_nil_serial :
  Build plainQuote (NewVMBuilder (Some nil_serial_vm)) "test-vm" "/tmp/t.sock"
  = Panic nil_dereference.
Proof. vm_compute. reflexivity. Qed.

(** A USB device entry left [nil]. *)
Example Build_panics_on_nil_usb :
  Build plainQuote (NewVMBuilder (Some nil_usb_vm)) "test-vm" "/tmp/t.sock"
  = Panic nil_dereference.
Proof. vm_compute. reflexivity. Qed.

End NilEntryFacts.
